(** * The compile / diagnose / repair agents of mcpserver-simplicity

    A shallow embedding of [agent_autofix.py] and [agent_claude.py]: the
    rule-based source rewriters, the diagnostic extraction, the two retry
    controllers, the delegated fix engine and the batch loops of [main].

    Conventions.
    - A Python [str] is a list of Unicode code points.
    - [print] writes to the console only; the expressions a [print]
      evaluates are kept where they can raise.
    - The MCP session, the reasoning service and the file system are
      external: they are functions on an abstract [World].  [json.loads],
      the Unicode table behind [\w] and [str()] of a decoded JSON value
      are library code and are taken as parameters. *)

From Stdlib Require Import String Ascii Bool Arith NArith ZArith QArith Lia List.
Import ListNotations.
Close Scope Q_scope.

(* ================================================================== *)
(** ** Python strings *)
(* ================================================================== *)

Module Py.

Definition char := N.
Definition str := list char.

(** An ASCII literal of the source, as code points. *)
Definition lit (s : string) : str := map N_of_ascii (list_ascii_of_string s).

Definition nl : char := 10%N.
Definition dquote : char := 34%N.

(** [str.isspace] on one code point, which is also the class [\s] of
    [re] on a [str] pattern and what [str.strip()] removes. *)
Definition is_space (c : char) : bool :=
  ((9 <=? c) && (c <=? 13) || (28 <=? c) && (c <=? 32)
   || (c =? 133) || (c =? 160) || (c =? 5760)
   || (8192 <=? c) && (c <=? 8202)
   || (c =? 8232) || (c =? 8233) || (c =? 8239) || (c =? 8287)
   || (c =? 12288))%N.

Fixpoint str_eqb (a b : str) : bool :=
  match a, b with
  | [], [] => true
  | x :: a', y :: b' => N.eqb x y && str_eqb a' b'
  | _, _ => false
  end.

(** [s.startswith(p)] *)
Fixpoint startswith (p s : str) : bool :=
  match p, s with
  | [], _ => true
  | _ :: _, [] => false
  | a :: p', b :: s' => N.eqb a b && startswith p' s'
  end.

(** [p in s] *)
Fixpoint contains (p s : str) : bool :=
  match s with
  | [] => startswith p []
  | _ :: s' => startswith p s || contains p s'
  end.

Fixpoint find_from (p s : str) (i : Z) : Z :=
  match s with
  | [] => if startswith p [] then i else (-1)%Z
  | _ :: s' => if startswith p s then i else find_from p s' (i + 1)%Z
  end.

(** [s.find(p)]: the first index of [p], or -1. *)
Definition find (p s : str) : Z := find_from p s 0%Z.

(** [s.find(p, start)] for [start >= 0]. *)
Definition find_at (p s : str) (start : Z) : Z :=
  let r := find p (skipn (Z.to_nat start) s) in
  if (r <? 0)%Z then (-1)%Z else (start + r)%Z.

(** A slice bound as Python clips it. *)
Definition norm_index (n i : Z) : Z :=
  if (i <? 0)%Z then Z.max 0 (n + i) else Z.min i n.

(** [s[i:j]] and [s[i:]] *)
Definition slice (s : str) (i j : Z) : str :=
  let n := Z.of_nat (length s) in
  let a := norm_index n i in
  let b := norm_index n j in
  firstn (Z.to_nat (b - a)) (skipn (Z.to_nat a) s).

Definition slice_from (s : str) (i : Z) : str :=
  skipn (Z.to_nat (norm_index (Z.of_nat (length s)) i)) s.

(** [s.split(sep)] for a one-character separator. *)
Fixpoint split_on (sep : char) (s : str) : list str :=
  match s with
  | [] => [[]]
  | c :: s' =>
      if N.eqb c sep then [] :: split_on sep s'
      else match split_on sep s' with
           | [] => [[c]]
           | l :: ls => (c :: l) :: ls
           end
  end.

(** [sep.join(ls)] *)
Fixpoint join (sep : str) (ls : list str) : str :=
  match ls with
  | [] => []
  | l :: ls' =>
      match ls' with
      | [] => l
      | _ :: _ => l ++ sep ++ join sep ls'
      end
  end.

Fixpoint lstrip (s : str) : str :=
  match s with
  | [] => []
  | c :: s' => if is_space c then lstrip s' else s
  end.

Fixpoint rstrip (s : str) : str :=
  match s with
  | [] => []
  | c :: s' =>
      match rstrip s' with
      | [] => if is_space c then [] else [c]
      | r => c :: r
      end
  end.

(** [s.strip()] *)
Definition strip (s : str) : str := rstrip (lstrip s).

(** [s.encode('ascii', 'ignore').decode('ascii')] *)
Definition ascii_ignore (s : str) : str := filter (fun c => (c <? 128)%N) s.

End Py.
Import Py.

(* ================================================================== *)
(** ** The fragment of [re] the agents use *)
(* ================================================================== *)

Module Re.

(** Patterns: literals, greedy repetition of a character class, sequence
    and numbered groups.  Every repetition in the agents' patterns is
    over a class ([\s*], [\s+], [\w+], [.*], [[^)]+]). *)
Inductive regex : Type :=
| Eps
| Lit (l : str)
| Star (p : char -> bool)
| Plus (p : char -> bool)
| Cat (r1 r2 : regex)
| Grp (n : nat) (r : regex).

Definition captures := list (nat * str).

Fixpoint group (n : nat) (caps : captures) : str :=
  match caps with
  | [] => []
  | (m, s) :: caps' => if Nat.eqb m n then s else group n caps'
  end.

Fixpoint drop_prefix (p s : str) : option str :=
  match p, s with
  | [], _ => Some s
  | _ :: _, [] => None
  | a :: p', b :: s' => if N.eqb a b then drop_prefix p' s' else None
  end.

Section Matcher.
Context {R : Type}.

(** Greedy [p*]: the longest run first, then shorter ones. *)
Fixpoint star (p : char -> bool) (k : str -> option R) (s : str) : option R :=
  match s with
  | [] => k []
  | c :: s' =>
      if p c then
        match star p k s' with
        | Some r => Some r
        | None => k s
        end
      else k s
  end.

(** Backtracking match of [r] at the head of [s]; [k] is what must
    match after it. *)
Fixpoint rmatch (r : regex) (caps : captures) (s : str)
         (k : captures -> str -> option R) : option R :=
  match r with
  | Eps => k caps s
  | Lit l =>
      match drop_prefix l s with
      | Some s' => k caps s'
      | None => None
      end
  | Star p => star p (k caps) s
  | Plus p =>
      match s with
      | [] => None
      | c :: s' => if p c then star p (k caps) s' else None
      end
  | Cat r1 r2 => rmatch r1 caps s (fun caps' s' => rmatch r2 caps' s' k)
  | Grp n r1 =>
      rmatch r1 caps s
        (fun caps' s' => k ((n, firstn (length s - length s') s) :: caps') s')
  end.
End Matcher.

(** [pattern.match] at the head of [s]: the groups and the text left. *)
Definition match_here (r : regex) (s : str) : option (captures * str) :=
  rmatch r [] s (fun caps rest => Some (caps, rest)).

(** [re.sub(r, repl, s)]: leftmost matches, left to right, none
    overlapping.  [skip] counts the characters of the last match that are
    still to be passed over. *)
Fixpoint sub_from (r : regex) (repl : captures -> str) (skip : nat) (s : str)
  {struct s} : str :=
  match skip with
  | S n =>
      match s with
      | [] => []
      | _ :: s' => sub_from r repl n s'
      end
  | O =>
      match match_here r s with
      | Some (caps, rest) =>
          match s with
          | [] => repl caps
          | c :: s' =>
              match length s - length rest with
              | O => repl caps ++ c :: sub_from r repl 0 s'
              | S m => repl caps ++ sub_from r repl m s'
              end
          end
      | None =>
          match s with
          | [] => []
          | c :: s' => c :: sub_from r repl 0 s'
          end
      end
  end.

Definition sub (r : regex) (repl : captures -> str) (s : str) : str :=
  sub_from r repl 0 s.

Definition cat_all (rs : list regex) : regex := fold_right Cat Eps rs.

(** [.] under [re.DOTALL] *)
Definition any_char (c : char) : bool := true.

(** [[^)]] *)
Definition not_rparen (c : char) : bool := negb (N.eqb c 41).

End Re.
Import Re.

(** [\w] on a [str] pattern: the ASCII letters, digits and underscore,
    and whatever [str.isalnum] accepts outside ASCII; that table is not
    part of the repository and is the parameter [unicode_alnum]. *)
Definition is_word (unicode_alnum : char -> bool) (c : char) : bool :=
  ((c =? 95) || (48 <=? c) && (c <=? 57) || (65 <=? c) && (c <=? 90)
   || (97 <=? c) && (c <=? 122) || (128 <=? c) && unicode_alnum c)%N.

(* ================================================================== *)
(** ** Python values, exceptions and effects *)
(* ================================================================== *)

(** What [json.loads] can return, which is also every value the agents
    handle dynamically.  An object keeps its items in insertion order; a
    float is the rational it denotes (no operation of the agents tells
    the infinities and NaN from other floats). *)
#[warnings="-register-all"]
Inductive json : Type :=
| JNull
| JBool (b : bool)
| JInt (z : Z)
| JFloat (q : Q)
| JStr (s : str)
| JArr (items : list json)
| JObj (fields : list (str * json)).

(** The exception classes the model raises itself, and [ExternalError]
    for whatever a collaborator raises.  All derive from [Exception]. *)
Inductive exn : Type :=
| AttributeError
| TypeError
| ValueError
| KeyError
| IndexError
| OverflowError
| JSONDecodeError
| FileNotFoundError
| ExternalError (message : str).

Inductive res (A : Type) : Type :=
| Ok (a : A)
| Raise (e : exn).
Arguments Ok {A} a.
Arguments Raise {A} e.

Definition res_bind {A B : Type} (r : res A) (k : A -> res B) : res B :=
  match r with
  | Ok a => k a
  | Raise e => Raise e
  end.

(** [try: body / except: handler] on a pure computation. *)
Definition res_catch {A : Type} (body : res A) (handler : exn -> res A) : res A :=
  match body with
  | Ok a => Ok a
  | Raise e => handler e
  end.

(** One interaction with a collaborator, recorded in the order it happened. *)
Inductive event : Type :=
| EvCompile (source_code : json) (witness_data : str) (reply : res (list str))
| EvAsk (model prompt : str) (reply : res (list str))
| EvRead (path : str) (reply : res str)
| EvWrite (path : str) (text : json) (reply : res unit).

Record state (World : Type) : Type := mkState {
  world : World;
  trace : list event
}.
Arguments mkState {World} world trace.
Arguments world {World} s.
Arguments trace {World} s.

(** Stateful code that may raise. *)
Definition M (World A : Type) : Type := state World -> state World * res A.

Section Monad.
Context {World : Type}.

Definition ret {A : Type} (a : A) : M World A := fun st => (st, Ok a).

Definition raise {A : Type} (e : exn) : M World A := fun st => (st, Raise e).

Definition lift {A : Type} (r : res A) : M World A := fun st => (st, r).

Definition bind {A B : Type} (m : M World A) (k : A -> M World B) : M World B :=
  fun st =>
    match m st with
    | (st', Ok a) => k a st'
    | (st', Raise e) => (st', Raise e)
    end.

(** [try: body / except Exception as e: handler(e)] *)
Definition try_except {A : Type} (body : M World A) (handler : exn -> M World A)
  : M World A :=
  fun st =>
    match body st with
    | (st', Ok a) => (st', Ok a)
    | (st', Raise e) => handler e st'
    end.

(** A call to a collaborator: run it on the world and log it. *)
Definition external {A : Type} (step : World -> World * res A)
           (log : res A -> event) : M World A :=
  fun st =>
    let (w', reply) := step (world st) in
    (mkState w' (trace st ++ [log reply]), reply).
End Monad.

Declare Scope py_scope.
Delimit Scope py_scope with py.
Notation "x <- m ;; k" := (bind m (fun x => k))
  (at level 61, m at next level, right associativity) : py_scope.
Notation "m ;;; k" := (bind m (fun _ => k))
  (at level 61, right associativity) : py_scope.
Notation "x <~ r ;; k" := (res_bind r (fun x => k))
  (at level 61, r at next level, right associativity) : py_scope.

(** The compile submissions of a trace, oldest first. *)
Definition submissions (tr : list event) : list (json * str * res (list str)) :=
  flat_map (fun ev => match ev with
                      | EvCompile s w r => [(s, w, r)]
                      | _ => []
                      end) tr.

(** [range(lo, hi)] *)
Definition py_range (lo hi : Z) : list Z :=
  map (fun i => (lo + Z.of_nat i)%Z) (seq 0 (Z.to_nat (hi - lo))).

(** [result.content[0].text if result.content else ""] *)
Definition first_text (content : list str) : str :=
  match content with
  | [] => []
  | text :: _ => text
  end.

(** *** Operations on dynamically typed values *)

Fixpoint lookup (key : str) (fields : list (str * json)) : option json :=
  match fields with
  | [] => None
  | (k, v) :: fields' => if str_eqb k key then Some v else lookup key fields'
  end.

(** [isinstance(v, dict) and key in v] *)
Definition is_dict_with (key : str) (v : json) : bool :=
  match v with
  | JObj fields => match lookup key fields with Some _ => true | None => false end
  | _ => false
  end.

(** [v[key]] for a string key *)
Definition py_getitem (v : json) (key : str) : res json :=
  match v with
  | JObj fields =>
      match lookup key fields with
      | Some x => Ok x
      | None => Raise KeyError
      end
  | _ => Raise TypeError
  end.

(** [v.get(key, default)]: only a dict has [get]. *)
Definition py_get (v : json) (key : str) (default : json) : res json :=
  match v with
  | JObj fields =>
      match lookup key fields with
      | Some x => Ok x
      | None => Ok default
      end
  | _ => Raise AttributeError
  end.

(** [v[:n]]: strings and lists slice, nothing else does (a dict rejects
    the slice as a key). *)
Definition py_take (n : nat) (v : json) : res json :=
  match v with
  | JStr s => Ok (JStr (firstn n s))
  | JArr items => Ok (JArr (firstn n items))
  | _ => Raise TypeError
  end.

(** [v.encode('ascii', 'ignore').decode('ascii')]: only a [str] has [encode]. *)
Definition py_ascii_ignore (v : json) : res str :=
  match v with
  | JStr s => Ok (ascii_ignore s)
  | _ => Raise AttributeError
  end.

(** [len(v)] *)
Definition py_len (v : json) : res nat :=
  match v with
  | JStr s => Ok (length s)
  | JArr items => Ok (length items)
  | JObj fields => Ok (length fields)
  | _ => Raise TypeError
  end.

(** [f"{v:.0%}"]: the percent format takes numbers (and booleans); an
    integer goes through [float], which overflows from [2^1024 - 2^970]. *)
Definition py_format_percent (v : json) : res unit :=
  match v with
  | JFloat _ | JBool _ => Ok tt
  | JInt z =>
      if (Z.abs z <? 2 ^ 1024 - 2 ^ 970)%Z then Ok tt else Raise OverflowError
  | JStr _ => Raise ValueError
  | _ => Raise TypeError
  end.
(* ================================================================== *)
(** ** agent_autofix.py: the Pattern Fix Engine *)
(* ================================================================== *)

Module Autofix.
Section Rules.

Variable unicode_alnum : char -> bool.

(** [f"fn main() -> () {{\n{fixed_code}\n    ()\n}}"] *)
Definition wrap_main (fixed_code : str) : str :=
  lit "fn main() -> () {" ++ [nl] ++ fixed_code ++ [nl]
    ++ lit "    ()" ++ [nl] ++ lit "}".

(** Lines 60-62: drop the lines whose stripped text starts with [//]. *)
Definition remove_comments (fixed_code : str) : str :=
  join [nl]
    (filter (fun line => negb (startswith (lit "//") (strip line)))
       (split_on nl fixed_code)).

(** The pattern of line 68 under [re.DOTALL]: [fn\s+main\s*\(\s*\)\s*\{],
    then group 1, a greedy run of any characters, then [\}]. *)
Definition re_main_wrapper : regex :=
  cat_all [Lit (lit "fn"); Plus is_space; Lit (lit "main"); Star is_space;
           Lit (lit "("); Star is_space; Lit (lit ")"); Star is_space;
           Lit (lit "{"); Grp 1 (Star any_char); Lit (lit "}")].

(** [line[4:] if line.startswith('    ') else line] *)
Definition dedent_line (line : str) : str :=
  if startswith (lit "    ") line then skipn 4 line else line.

(** Lines 67-76: substitute the wrapper by its body, then dedent. *)
Definition remove_main_wrapper (fixed_code : str) : str :=
  join [nl]
    (map dedent_line
       (split_on nl (Re.sub re_main_wrapper (group 1) fixed_code))).

(** [r'let\s+\((\w+),\)\s*='] *)
Definition re_tuple_let : regex :=
  cat_all [Lit (lit "let"); Plus is_space; Lit (lit "(");
           Grp 1 (Plus (is_word unicode_alnum)); Lit (lit ",)");
           Star is_space; Lit (lit "=")].

(** Line 81, with the template [r'let \1 ='] *)
Definition fix_tuple_patterns (fixed_code : str) : str :=
  Re.sub re_tuple_let
    (fun caps => lit "let " ++ group 1 caps ++ lit " =") fixed_code.

(** Whether each rule's trigger is present. *)
Definition wants_wrapper (error_message : str) : bool :=
  contains (lit "expected program") error_message.

Definition wants_comment_removal (error_message : str) : bool :=
  contains (lit "expected EOI or item") error_message.

Definition has_main_wrapper (fixed_code : str) : bool :=
  contains (lit "fn main()") fixed_code || contains (lit "fn main (") fixed_code.

Definition has_tuple_pattern (fixed_code : str) : bool :=
  contains (lit "let (") fixed_code && contains (lit ",)") fixed_code.

(** The text after each rule of [apply_rule_based_fixes], in the order
    of the source. *)
Definition after_wrap (source_code error_message : str) : str :=
  if wants_wrapper error_message then wrap_main source_code else source_code.

Definition after_comments (source_code error_message : str) : str :=
  let fixed_code := after_wrap source_code error_message in
  if wants_comment_removal error_message then remove_comments fixed_code
  else fixed_code.

Definition after_unwrap (source_code error_message : str) : str :=
  let fixed_code := after_comments source_code error_message in
  if has_main_wrapper fixed_code then remove_main_wrapper fixed_code
  else fixed_code.

Definition after_tuples (source_code error_message : str) : str :=
  let fixed_code := after_unwrap source_code error_message in
  if has_tuple_pattern fixed_code then fix_tuple_patterns fixed_code
  else fixed_code.

(** [apply_rule_based_fixes(source_code, error_message)] *)
Definition apply_rule_based_fixes (source_code error_message : str) : str :=
  strip (after_tuples source_code error_message) ++ [nl].

End Rules.

Section Controller.

Variable unicode_alnum : char -> bool.
(** [json.loads] *)
Variable json_loads : str -> res json.
Variable World : Type.
(** [session.call_tool("compile_simplicity", arguments={"source_code": ..,
    "witness_data": ..})], answering with the texts of [result.content]. *)
Variable call_tool : World -> json -> str -> World * res (list str).
(** [Path(p).read_text()], [Path(p).exists()], [Path(p).write_text(t)] *)
Variable read_text : World -> str -> World * res str.
Variable path_exists : World -> str -> bool.
Variable write_text : World -> str -> json -> World * res unit.
(** [Path(source_file).parent / f"{Path(source_file).stem}_fixed.simf"] *)
Variable fixed_path : str -> str.

Local Open Scope py_scope.

Definition compile_simplicity (source_code witness_data : str)
  : M World (list str) :=
  external (fun w => call_tool w (JStr source_code) witness_data)
           (EvCompile (JStr source_code) witness_data).

Definition LLM_PROVIDER : str := lit "anthropic".

(** [fix_code_with_llm]: every provider branch ends in the rule-based fixes. *)
Definition fix_code_with_llm (source_code error_message : str) (attempt : Z) : str :=
  if str_eqb LLM_PROVIDER (lit "anthropic")
  then apply_rule_based_fixes unicode_alnum source_code error_message
  else if str_eqb LLM_PROVIDER (lit "openai")
  then apply_rule_based_fixes unicode_alnum source_code error_message
  else apply_rule_based_fixes unicode_alnum source_code error_message.

(** One entry of [attempts_history] (lines 119-124). *)
Record attempt_entry : Type := mkEntry {
  h_attempt : Z;
  h_code : str;
  h_success : bool;
  h_result : str
}.

Definition success_marker : str := lit "Compilation successful!".

(** Line 127: the success test on the ASCII-only text. *)
Definition succeeded (content_safe : str) : bool :=
  contains success_marker content_safe.

(** The body of the [try] of lines 135-138. *)
Definition parse_result_message (content_safe : str) (error_msg : json) : res json :=
  let json_start := find (lit "{") content_safe in
  json_data <~ json_loads (slice_from content_safe json_start) ;;
  if is_dict_with (lit "result_json") json_data then
    result_json <~ py_getitem json_data (lit "result_json") ;;
    py_get result_json (lit "message") error_msg
  else Ok error_msg.

(** Lines 132-140: the canonical error; the bare [except: pass] keeps
    the raw text. *)
Definition extract_error (content_safe : str) : res json :=
  let error_msg := JStr content_safe in
  if contains (lit "message") content_safe then
    res_catch (parse_result_message content_safe error_msg)
              (fun _ => Ok error_msg)
  else Ok error_msg.

(** The body of [for attempt in range(1, max_attempts + 1)], over the
    attempts still to run. *)
Fixpoint attempts_loop (max_attempts : Z) (use_llm : bool) (witness_data : str)
         (attempts : list Z) (current_code : str)
         (attempts_history : list attempt_entry)
  : M World (bool * str * list attempt_entry) :=
  match attempts with
  | [] => ret (false, current_code, attempts_history)
  | attempt :: rest =>
      content <- compile_simplicity current_code witness_data ;;
      let content_safe := ascii_ignore (first_text content) in
      let attempts_history :=
        attempts_history
          ++ [mkEntry attempt current_code (succeeded content_safe)
                      (firstn 500 content_safe)] in
      if succeeded content_safe then ret (true, current_code, attempts_history)
      else
        error_msg <- lift (extract_error content_safe) ;;
        (* line 144: error_msg.encode('ascii', 'ignore') *)
        error_msg_safe <- lift (py_ascii_ignore error_msg) ;;
        match error_msg with
        | JStr error_text =>
            if (max_attempts <=? attempt)%Z
            then ret (false, current_code, attempts_history)
            else
              let fixed :=
                if use_llm then fix_code_with_llm current_code error_text attempt
                else apply_rule_based_fixes unicode_alnum current_code error_text in
              attempts_loop max_attempts use_llm witness_data rest fixed
                            attempts_history
        | _ => raise AttributeError (* not reached: line 144 has raised *)
        end
  end.

(** [compile_and_fix(session, source_code, witness_data, max_attempts, use_llm)] *)
Definition compile_and_fix (source_code witness_data : str) (max_attempts : Z)
           (use_llm : bool) : M World (bool * str * list attempt_entry) :=
  attempts_loop max_attempts use_llm witness_data
                (py_range 1 (max_attempts + 1)) source_code [].

(** [test_file_with_agent(session, name, source_file, witness_file, ..)] *)
Definition test_file_with_agent (name source_file witness_file : str)
           (max_attempts : Z) (use_llm : bool)
  : M World (bool * list attempt_entry) :=
  source_code <- external (fun w => read_text w source_file) (EvRead source_file) ;;
  witness_data <-
    (fun st =>
       if path_exists (world st) witness_file
       then external (fun w => read_text w witness_file) (EvRead witness_file) st
       else ret [] st) ;;
  outcome <- compile_and_fix source_code witness_data max_attempts use_llm ;;
  let '(success, final_code, history) := outcome in
  (if success
   then external (fun w => write_text w (fixed_path source_file) (JStr final_code))
                 (EvWrite (fixed_path source_file) (JStr final_code))
   else ret tt) ;;;
  ret (success, history).

(** [d[key] = value] on a dict kept in insertion order. *)
Fixpoint dict_set {V : Type} (d : list (str * V)) (key : str) (value : V)
  : list (str * V) :=
  match d with
  | [] => [(key, value)]
  | (k, v) :: d' =>
      if str_eqb k key then (k, value) :: d' else (k, v) :: dict_set d' key value
  end.

(** The [for name, source, witness in test_files] loop of [main]. *)
Fixpoint run_cases (max_attempts : Z) (use_llm : bool)
         (test_files : list (str * str * str))
         (results : list (str * bool))
         (all_history : list (str * list attempt_entry))
  : M World (list (str * bool) * list (str * list attempt_entry)) :=
  match test_files with
  | [] => ret (results, all_history)
  | (name, source, witness) :: rest =>
      outcome <- test_file_with_agent name source witness max_attempts use_llm ;;
      let '(success, history) := outcome in
      run_cases max_attempts use_llm rest
                (dict_set results name success)
                (dict_set all_history name history)
  end.

Definition test_files : list (str * str * str) :=
  [ (lit "Arithmetic", lit "examples/arithmetic.simf", lit "examples/arithmetic.wit");
    (lit "Scoping", lit "examples/scoping.simf", lit "examples/scoping.wit");
    (lit "Witness Equality", lit "examples/witness_equality.simf",
     lit "examples/witness_equality.wit");
    (lit "Witness Computation", lit "examples/witness_computation.simf",
     lit "examples/witness_computation.wit") ].

(** [main], from the loop over [test_files] to the exit code. *)
Definition main (max_attempts : Z) (use_llm : bool) : M World Z :=
  outcome <- run_cases max_attempts use_llm test_files [] [] ;;
  let '(results, all_history) := outcome in
  let total := length results in
  let fixed := length (filter (fun r => snd r) results) in
  if Nat.eqb fixed total then ret 0%Z else ret 1%Z.

End Controller.
End Autofix.

(* ================================================================== *)
(** ** agent_claude.py: the rule-based fixer of [SimplicityFixAgent] *)
(* ================================================================== *)

Module ClaudeAgent.
Section Rules.

Variable unicode_alnum : char -> bool.

(** The pattern of line 137 under [re.DOTALL]: [fn\s+main\(\)\s*\{],
    then group 1, a greedy run of any characters, then [\}]. *)
Definition re_main_wrapper : regex :=
  cat_all [Lit (lit "fn"); Plus is_space; Lit (lit "main()"); Star is_space;
           Lit (lit "{"); Grp 1 (Star any_char); Lit (lit "}")].

(** [r'let\s+(\w+)\s*=\s*(jet::\w+\([^)]+\));'] *)
Definition re_let_jet : regex :=
  cat_all [Lit (lit "let"); Plus is_space;
           Grp 1 (Plus (is_word unicode_alnum)); Star is_space;
           Lit (lit "="); Star is_space;
           Grp 2 (cat_all [Lit (lit "jet::"); Plus (is_word unicode_alnum);
                           Lit (lit "("); Plus not_rparen; Lit (lit ")")]);
           Lit (lit ";")].

(** [r'assert!\(([^)]+)\);'] *)
Definition re_assert : regex :=
  cat_all [Lit (lit "assert!("); Grp 1 (Plus not_rparen); Lit (lit ");")].

Definition remove_main_wrapper (fixed_code : str) : str :=
  if contains (lit "fn main()") fixed_code
  then Re.sub re_main_wrapper (group 1) fixed_code
  else fixed_code.

(** Template [r'let (\1,) = \2;'] *)
Definition fix_let_patterns (fixed_code : str) : str :=
  Re.sub re_let_jet
    (fun caps => lit "let (" ++ group 1 caps ++ lit ",) = "
                   ++ group 2 caps ++ lit ";")
    fixed_code.

(** Template [r'jet::verify(\1);'] *)
Definition fix_asserts (fixed_code : str) : str :=
  Re.sub re_assert
    (fun caps => lit "jet::verify(" ++ group 1 caps ++ lit ");") fixed_code.

(** [SimplicityFixAgent.apply_rule_based_fixes(source_code, error_message)];
    the error message is never read, so it may be of any type. *)
Definition apply_rule_based_fixes {E : Type} (source_code : str) (error_message : E)
  : str :=
  fix_asserts (fix_let_patterns (remove_main_wrapper source_code)).

End Rules.

Section Controller.

Variable unicode_alnum : char -> bool.
(** [json.loads] *)
Variable json_loads : str -> res json.
(** [str(v)] of a decoded value that is not a string, and [str(e)] *)
Variable py_repr : json -> str.
Variable exn_str : exn -> str.
Variable World : Type.
(** [session.call_tool("compile_simplicity", arguments={"source_code": ..,
    "witness_data": ..})], answering with the texts of [result.content]. *)
Variable call_tool : World -> json -> str -> World * res (list str).
(** [self.client.messages.create(model=.., max_tokens=2000, messages=[..])],
    answering with the texts of [response.content]. *)
Variable messages_create : World -> str -> str -> World * res (list str).
(** [Path(p).read_text()], [Path(p).write_text(t)] *)
Variable read_text : World -> str -> World * res str.
Variable write_text : World -> str -> json -> World * res unit.
(** [Path(source_file).parent / f"{Path(source_file).stem}_fixed.simf"] *)
Variable fixed_path : str -> str.

Local Open Scope py_scope.

(** The agent object: [self.client] is set when the [anthropic] package
    was imported and the key is a non-empty string. *)
Record SimplicityFixAgent : Type := mkAgent {
  api_key : option str;
  model : str;
  client : bool
}.

Definition truthy (key : option str) : bool :=
  match key with
  | Some (_ :: _) => true
  | _ => false
  end.

Definition new_agent (ANTHROPIC_AVAILABLE : bool) (key : option str) : SimplicityFixAgent :=
  mkAgent key (lit "claude-sonnet-4-20250514") (ANTHROPIC_AVAILABLE && truthy key).

(** The doubles written [0.5] and [0.3]. *)
Definition confidence_without_client : Q := 1 # 2.
Definition confidence_after_error : Q := 5404319552844595 # 18014398509481984.

(** The dict an [analyze_and_fix] fallback returns. *)
Definition fix_result (fixed_code explanation : str) (confidence : Q) : json :=
  JObj [ (lit "fixed_code", JStr fixed_code);
         (lit "explanation", JStr explanation);
         (lit "confidence", JFloat confidence) ].

(** [self.apply_rule_based_fixes(source_code, error_message)] on whatever
    the controller passes: [re.sub] takes a [str] only. *)
Definition rule_based (source_code error_message : json) : res str :=
  match source_code with
  | JStr text => Ok (apply_rule_based_fixes unicode_alnum text error_message)
  | _ => Raise TypeError
  end.

(** A value inside an f-string. *)
Definition format_value (v : json) : str :=
  match v with
  | JStr text => text
  | _ => py_repr v
  end.

Definition fence : str := lit "```".

(** Lines 57-85 *)
Definition prompt_for (source_code error_message : json) : str :=
  join [nl]
    [ lit "You are an expert in SimplicityHL, a functional programming language for Bitcoin smart contracts.";
      [];
      lit "The following SimplicityHL code failed to compile with this error:";
      [];
      fence;
      format_value error_message;
      fence;
      [];
      lit "Current code:";
      fence;
      format_value source_code;
      fence;
      [];
      lit "Please analyze the error and provide a fixed version of the code. SimplicityHL has specific syntax rules:";
      [];
      lit "1. Variable declarations use pattern matching: `let (var,) = expression;`";
      lit "2. Jets (built-in functions) are called like: `jet::add_32(a, b)`";
      lit "3. There may not be a `fn main()` wrapper - code might be top-level";
      lit "4. Assertions use `jet::verify(condition)`";
      lit "5. Witness data is accessed with specific syntax";
      [];
      lit "Respond with a JSON object:";
      lit "{";
      lit "    " ++ [dquote] ++ lit "fixed_code" ++ [dquote] ++ lit ": " ++ [dquote]
        ++ lit "the corrected code" ++ [dquote] ++ lit ",";
      lit "    " ++ [dquote] ++ lit "explanation" ++ [dquote] ++ lit ": " ++ [dquote]
        ++ lit "what was wrong and how you fixed it" ++ [dquote] ++ lit ",";
      lit "    " ++ [dquote] ++ lit "confidence" ++ [dquote] ++ lit ": 0.0-1.0";
      lit "}";
      [];
      lit "Only respond with valid JSON, no other text." ].

(** Lines 101-108: the text between code fences, when there are any. *)
Definition unfence (response_text : str) : str :=
  if contains (fence ++ lit "json") response_text then
    let json_start := (find (fence ++ lit "json") response_text + 7)%Z in
    let json_end := find_at fence response_text json_start in
    strip (slice response_text json_start json_end)
  else if contains fence response_text then
    let json_start := (find fence response_text + 3)%Z in
    let json_end := find_at fence response_text json_start in
    strip (slice response_text json_start json_end)
  else response_text.

(** The body of the [try] of lines 88-116. *)
Definition ask_service (agent : SimplicityFixAgent) (prompt : str) : M World json :=
  content <- external (fun w => messages_create w (model agent) prompt)
                      (EvAsk (model agent) prompt) ;;
  response_text <- lift (match content with
                         | [] => Raise IndexError
                         | text :: _ => Ok text
                         end) ;;
  result <- lift (json_loads (unfence response_text)) ;;
  (* line 113: result.get('explanation', 'N/A')[:150] *)
  explanation <- lift (py_get result (lit "explanation") (JStr (lit "N/A"))) ;;
  lift (py_take 150 explanation) ;;;
  (* line 114: f"{result.get('confidence', 0.0):.0%}" *)
  confidence <- lift (py_get result (lit "confidence") (JFloat 0)) ;;
  lift (py_format_percent confidence) ;;;
  ret result.

(** [SimplicityFixAgent.analyze_and_fix(source_code, error_message, attempt)] *)
Definition analyze_and_fix (agent : SimplicityFixAgent)
           (source_code error_message : json) (attempt : Z) : M World json :=
  if negb (client agent) then
    fixed <- lift (rule_based source_code error_message) ;;
    ret (fix_result fixed (lit "Rule-based fix applied (no LLM available)")
           confidence_without_client)
  else
    try_except
      (ask_service agent (prompt_for source_code error_message))
      (fun e =>
         fixed <- lift (rule_based source_code error_message) ;;
         ret (fix_result fixed
                (lit "API error, used rule-based fix: " ++ exn_str e)
                confidence_after_error)).

(** One entry of [history] (lines 192-196 and 213-218). *)
Record history_entry : Type := mkEntry {
  h_attempt : Z;
  h_success : bool;
  h_error : option json;
  h_code : json
}.

(** The marker of line 190 starts with the check-mark U+2705. *)
Definition success_marker : str := 9989%N :: lit " Compilation successful!".

Definition succeeded (content : str) : bool := contains success_marker content.

(** The body of the [try] of lines 203-206. *)
Definition parse_result_message (content : str) (error_msg : json) : res json :=
  let json_start := find (lit "{") content in
  json_data <~ json_loads (slice_from content json_start) ;;
  if is_dict_with (lit "result_json") json_data then
    result_json <~ py_getitem json_data (lit "result_json") ;;
    py_get result_json (lit "message") error_msg
  else Ok error_msg.

(** Lines 200-208: the canonical error; the bare [except: pass] keeps
    the raw text. *)
Definition extract_error (content : str) : res json :=
  let error_msg := JStr content in
  if contains (lit "message" ++ [dquote; 58%N]) content then
    res_catch (parse_result_message content error_msg) (fun _ => Ok error_msg)
  else Ok error_msg.

(** Line 230: [current_code[:400] + "..." if len(current_code) > 400 else
    current_code], evaluated for the preview. *)
Definition preview (current_code : json) : res unit :=
  n <~ py_len current_code ;;
  if 400 <? n then
    match current_code with
    | JStr _ => Ok tt
    | _ => Raise TypeError
    end
  else Ok tt.

(** The body of [for attempt in range(1, max_attempts + 1)], over the
    attempts still to run. *)
Fixpoint attempts_loop (agent : SimplicityFixAgent) (max_attempts : Z)
         (witness_data : str) (attempts : list Z) (current_code : json)
         (history : list history_entry)
  : M World (bool * json * list history_entry) :=
  match attempts with
  | [] => ret (false, current_code, history)
  | attempt :: rest =>
      content <- external (fun w => call_tool w current_code witness_data)
                          (EvCompile current_code witness_data) ;;
      let content := first_text content in
      if succeeded content then
        ret (true, current_code,
             history ++ [mkEntry attempt true None current_code])
      else
        error_msg <- lift (extract_error content) ;;
        (* line 211: error_msg[:250] *)
        lift (py_take 250 error_msg) ;;;
        error_excerpt <- lift (py_take 200 error_msg) ;;
        let history :=
          history ++ [mkEntry attempt false (Some error_excerpt) current_code] in
        if (max_attempts <=? attempt)%Z then ret (false, current_code, history)
        else
          fix_result <- analyze_and_fix agent current_code error_msg attempt ;;
          fixed_code <- lift (py_getitem fix_result (lit "fixed_code")) ;;
          lift (preview fixed_code) ;;;
          attempts_loop agent max_attempts witness_data rest fixed_code history
  end.

(** [compile_with_retries(session, agent, source_code, witness_data, max_attempts)] *)
Definition compile_with_retries (agent : SimplicityFixAgent)
           (source_code witness_data : str) (max_attempts : Z)
  : M World (bool * json * list history_entry) :=
  attempts_loop agent max_attempts witness_data
                (py_range 1 (max_attempts + 1)) (JStr source_code) [].

(** The [for name, source_file, witness_file in test_files] loop of [main]. *)
Fixpoint run_cases (agent : SimplicityFixAgent) (max_attempts : Z)
         (test_files : list (str * str * str)) (results : list (str * bool))
  : M World (list (str * bool)) :=
  match test_files with
  | [] => ret results
  | (name, source_file, witness_file) :: rest =>
      source_code <- external (fun w => read_text w source_file)
                              (EvRead source_file) ;;
      witness_data <- external (fun w => read_text w witness_file)
                               (EvRead witness_file) ;;
      outcome <- compile_with_retries agent source_code witness_data max_attempts ;;
      let '(success, fixed_code, history) := outcome in
      let results := Autofix.dict_set results name success in
      (if success
       then external (fun w => write_text w (fixed_path source_file) fixed_code)
                     (EvWrite (fixed_path source_file) fixed_code)
       else ret tt) ;;;
      run_cases agent max_attempts rest results
  end.

(** [main], from the loop over [test_files] to the exit code. *)
Definition main (agent : SimplicityFixAgent) (max_attempts : Z) : M World Z :=
  results <- run_cases agent max_attempts Autofix.test_files [] ;;
  let total := length results in
  let fixed := length (filter (fun r => snd r) results) in
  if Nat.eqb fixed total then ret 0%Z else ret 1%Z.

End Controller.
End ClaudeAgent.


(* ================================================================== *)
(** ** test_examples.py: the batch loop that guards its compile call *)
(* ================================================================== *)

Module TestExamples.
Section Runner.

Variable World : Type.
Variable call_tool : World -> json -> str -> World * res (list str).
Variable read_text : World -> str -> World * res str.
Variable path_exists : World -> str -> bool.

Local Open Scope py_scope.

(** [test_example(session, name, source_file, witness_file)]: the compile
    call sits in a [try] whose [except Exception] returns [False]. *)
Definition test_example (name source_file witness_file : str) : M World bool :=
  source_code <- external (fun w => read_text w source_file) (EvRead source_file) ;;
  witness_data <-
    (fun st =>
       if path_exists (world st) witness_file
       then external (fun w => read_text w witness_file) (EvRead witness_file) st
       else ret [] st) ;;
  try_except
    (content <- external (fun w => call_tool w (JStr source_code) witness_data)
                         (EvCompile (JStr source_code) witness_data) ;;
     let content := match content with
                    | [] => lit "No content"
                    | text :: _ => text
                    end in
     ret (contains (lit "Compilation successful!") (ascii_ignore content)))
    (fun _ => ret false).

(** The [for name, source, witness in examples] loop of [main]. *)
Fixpoint run_examples (examples : list (str * str * str))
         (results : list (str * bool)) : M World (list (str * bool)) :=
  match examples with
  | [] => ret results
  | (name, source, witness) :: rest =>
      success <- test_example name source witness ;;
      run_examples rest (Autofix.dict_set results name success)
  end.

(** [main], from the loop over the examples to the exit code. *)
Definition main : M World Z :=
  results <- run_examples Autofix.test_files [] ;;
  let total := length results in
  let passed := length (filter (fun r => snd r) results) in
  if Nat.eqb passed total then ret 0%Z else ret 1%Z.

End Runner.
End TestExamples.

(* ================================================================== *)
(** ** server.py: the compile tool the agents call *)
(* ================================================================== *)

Module Server.

(** One entry of [compilation_history]; [success], [output] and [errors]
    are stored as they come. *)
Record history_entry : Type := mkEntry {
  timestamp : Q;
  source_code : str;
  witness_data : str;
  success : json;
  output : json;
  errors : json
}.

(** [s[:n] + "..." if len(s) > n else s] *)
Definition excerpt (n : nat) (s : str) : str :=
  if n <? length s then firstn n s ++ lit "..." else s.

(** [add_to_history(source_code, witness_data, success, output, errors)]
    on the global list [compilation_history]; [now] is what
    [asyncio.get_event_loop().time()] answers. *)
Definition add_to_history (now : Q) (source_code witness_data : str)
           (success output errors : json)
           (compilation_history : list history_entry) : list history_entry :=
  let compilation_history :=
    compilation_history
      ++ [mkEntry now (excerpt 500 source_code) (excerpt 200 witness_data)
                  success output errors] in
  if 50 <? length compilation_history
  then tl compilation_history (* pop(0) *)
  else compilation_history.

(** [l[i:]] on a list *)
Definition list_slice_from {A : Type} (l : list A) (i : Z) : list A :=
  skipn (Z.to_nat (norm_index (Z.of_nat (length l)) i)) l.

(** Lines 359-362 of [call_tool], branch [get_compilation_history], for
    an integer [limit]: the entries selected for the reply, or [None] when
    the reply is that there is no history. *)
Definition selected_history (limit : Z) (compilation_history : list history_entry)
  : option (list history_entry) :=
  match list_slice_from compilation_history (- limit) with
  | [] => None
  | history => Some history
  end.

(** Lines 268-277 and 333-342 of [call_tool]: the text of the reply to a
    compilation, from the truth value of [result["success"]], the texts
    of [result['output']] and [result['errors']] and the text of
    [json.dumps(result, indent=2)]. *)
Definition compile_reply (success : bool) (output errors dumped : str) : list str :=
  let message :=
    if success
    then 9989%N :: lit " Compilation successful!" ++ [nl; nl] ++ lit "Output:"
           ++ [nl] ++ output
    else 10060%N :: lit " Compilation failed" ++ [nl; nl] ++ lit "Errors:"
           ++ [nl] ++ errors ++ [nl; nl] ++ lit "Output:" ++ [nl] ++ output in
  [message ++ [nl; nl] ++ lit "---" ++ [nl] ++ lit "Full response:" ++ [nl]
     ++ dumped].

End Server.

(* ================================================================== *)
(** ** Concrete collaborators, to run the model *)
(* ================================================================== *)

Module Demo.

(** A table for [\w] outside ASCII under which no such character is a
    word character. *)
Definition no_unicode_words (c : char) : bool := false.

(** The response text [{"result_json": {"message": null}}]. *)
Definition null_message_text : str :=
  lit "{" ++ [dquote] ++ lit "result_json" ++ [dquote] ++ lit ": {"
    ++ [dquote] ++ lit "message" ++ [dquote] ++ lit ": null}}".

(** A decoder that knows one document and rejects every other text. *)
Definition loads (text : str) : res json :=
  if str_eqb text null_message_text
  then Ok (JObj [(lit "result_json", JObj [(lit "message", JNull)])])
  else Raise JSONDecodeError.

Definition repr (v : json) : str := lit "<value>".

Definition exn_text (e : exn) : str :=
  match e with
  | ExternalError message => message
  | _ => lit "error"
  end.

(** The text the compile tool sends on success. *)
Definition success_text : str := 9989%N :: lit " Compilation successful!".

(** A compiler that answers its n-th call with the n-th reply of a
    script, and with success once the script is over; the world counts
    the calls. *)
Definition scripted (script : list (res (list str)))
           (calls : nat) (source_code : json) (witness_data : str)
  : nat * res (list str) :=
  (S calls, nth calls script (Ok [success_text])).

(** A compiler that rejects every submission, and a decoder that
    rejects every text. *)
Definition always_fails (calls : nat) (source_code : json) (witness_data : str)
  : nat * res (list str) :=
  (S calls, Ok [lit "error: expected item"]).

Definition loads_nothing (text : str) : res json := Raise JSONDecodeError.

(** A reasoning service that is down. *)
Definition service_down (calls : nat) (model prompt : str) : nat * res (list str) :=
  (calls, Raise (ExternalError (lit "connection refused"))).

(** A file system in which every file reads as ["1 + 1"]. *)
Definition read_text (calls : nat) (path : str) : nat * res str :=
  (calls, Ok (lit "1 + 1")).

Definition path_exists (calls : nat) (path : str) : bool := true.

Definition write_text (calls : nat) (path : str) (text : json) : nat * res unit :=
  (calls, Ok tt).

Definition fixed_path (source_file : str) : str := source_file ++ lit "_fixed.simf".

Definition start : state nat := mkState 0 [].

Definition no_client : ClaudeAgent.SimplicityFixAgent :=
  ClaudeAgent.new_agent false None.

Definition with_client : ClaudeAgent.SimplicityFixAgent :=
  ClaudeAgent.new_agent true (Some (lit "key")).

End Demo.

(* ================================================================== *)
(** ** Vocabulary of the statements *)
(* ================================================================== *)

Local Open Scope py_scope.

(** The opening line of the wrapper that rule 1 adds. *)
Definition wrapper_head : str := lit "fn main() -> () {".

(** No repair rule of [Autofix.apply_rule_based_fixes] has its trigger. *)
Definition no_rule_fires (source_code error_message : str) : bool :=
  negb (Autofix.wants_wrapper error_message)
  && negb (Autofix.wants_comment_removal error_message)
  && negb (Autofix.has_main_wrapper source_code)
  && negb (Autofix.has_tuple_pattern source_code).

(** Stripped text: no whitespace at its head or at its end. *)
Definition trimmed (u : str) : Prop :=
  (forall c u', u = c :: u' -> is_space c = false)
  /\ (forall c u', u = u' ++ [c] -> is_space c = false).

(** What a run added to the trace: the events after those of [before]. *)
Definition since {World : Type} (before after : state World) : list event :=
  skipn (length (trace before)) (trace after).

(** A submission the compiler answered with the success marker of the
    controller that made it ([succeeded] is that controller's test on the
    text it reads). *)
Definition answered_by (succeeded : str -> bool) (read : str -> str)
           (submission : json * str * res (list str)) : bool :=
  match submission with
  | (_, _, Ok content) => succeeded (read (first_text content))
  | (_, _, Raise _) => false
  end.

(** What a run of the [agent_autofix] loop guarantees, in terms of the
    compile submissions [subs] it made. *)
Definition autofix_post (max_attempts : Z) (attempts : list Z) (current_code : str)
           (history : list Autofix.attempt_entry)
           (subs : list (json * str * res (list str)))
           (r : res (bool * str * list Autofix.attempt_entry)) : Prop :=
  length subs <= length attempts
  /\ (attempts <> [] -> 1 <= length subs)
  /\ (forall ok final h, r = Ok (ok, final, h) ->
        length h = length history + length subs)
  /\ (forall k sub,
        nth_error subs k = Some sub ->
        answered_by Autofix.succeeded ascii_ignore sub = true ->
        length subs = S k
        /\ exists final h, fst (fst sub) = JStr final /\ r = Ok (true, final, h))
  /\ (forall final h, r = Ok (true, final, h) ->
        exists sub, last subs (JNull, [], Raise KeyError) = sub
                    /\ subs <> []
                    /\ answered_by Autofix.succeeded ascii_ignore sub = true
                    /\ fst (fst sub) = JStr final)
  /\ (forall lo final h, attempts = py_range lo (max_attempts + 1) ->
        attempts <> [] -> r = Ok (false, final, h) ->
        length subs = length attempts
        /\ fst (fst (last subs (JNull, [], Raise KeyError))) = JStr final).

(** Lines 200-218: the canonical error and its excerpt for the history. *)
Definition claude_diagnose (json_loads : str -> res json) (content : str)
  : res (json * json) :=
  error_msg <~ ClaudeAgent.extract_error json_loads content ;;
  _ <~ py_take 250 error_msg ;;
  error_excerpt <~ py_take 200 error_msg ;;
  Ok (error_msg, error_excerpt).

(** Lines 227-230: the next source out of the fix result. *)
Definition claude_next_code (fix_result : json) : res json :=
  fixed_code <~ py_getitem fix_result (lit "fixed_code") ;;
  _ <~ ClaudeAgent.preview fixed_code ;;
  Ok fixed_code.

(** What a run of the [agent_claude] loop guarantees, in terms of the
    compile submissions [subs] it made. *)
Definition claude_post (max_attempts : Z) (attempts : list Z) (current_code : json)
           (history : list ClaudeAgent.history_entry)
           (subs : list (json * str * res (list str)))
           (r : res (bool * json * list ClaudeAgent.history_entry)) : Prop :=
  length subs <= length attempts
  /\ (attempts <> [] -> 1 <= length subs)
  /\ (forall ok final h, r = Ok (ok, final, h) ->
        length h = length history + length subs)
  /\ (forall k sub,
        nth_error subs k = Some sub ->
        answered_by ClaudeAgent.succeeded (fun text => text) sub = true ->
        length subs = S k /\ exists h, r = Ok (true, fst (fst sub), h))
  /\ (forall final h, r = Ok (true, final, h) ->
        exists sub, last subs (JNull, [], Raise KeyError) = sub
                    /\ subs <> []
                    /\ answered_by ClaudeAgent.succeeded (fun text => text) sub
                       = true
                    /\ fst (fst sub) = final)
  /\ (forall lo final h, attempts = py_range lo (max_attempts + 1) ->
        attempts <> [] -> r = Ok (false, final, h) ->
        length subs = length attempts
        /\ fst (fst (last subs (JNull, [], Raise KeyError))) = final).

Local Close Scope py_scope.

(** Where a greedy run of the class [p] must end: at the end of the text
    or before a character outside [p]. *)
Definition stops (p : char -> bool) (rest : str) : Prop :=
  match rest with
  | [] => True
  | c :: _ => p c = false
  end.

(** A line without a line break. *)
Definition no_newline (line : str) : bool :=
  forallb (fun c => negb (N.eqb c nl)) line.

(** A line the comment rule drops: its stripped text starts with [//]. *)
Definition is_comment_line (line : str) : bool :=
  startswith (lit "//") (strip line).

(** The arguments of one call of [add_to_history]. *)
Record recorded_call : Type := mkCall {
  call_time : Q;
  call_source : str;
  call_witness : str;
  call_success : json;
  call_output : json;
  call_errors : json
}.

Definition record_call (compilation_history : list Server.history_entry)
           (c : recorded_call) : list Server.history_entry :=
  Server.add_to_history (call_time c) (call_source c) (call_witness c)
    (call_success c) (call_output c) (call_errors c) compilation_history.

(** The entry that a call leaves in the history. *)
Definition entry_of (c : recorded_call) : Server.history_entry :=
  Server.mkEntry (call_time c) (Server.excerpt 500 (call_source c))
    (Server.excerpt 200 (call_witness c)) (call_success c) (call_output c)
    (call_errors c).

(* ================================================================== *)
(** ** Facts about the string operations *)
(* ================================================================== *)

Section StringFacts.

Lemma startswith_app (p x : str) : startswith p (p ++ x) = true.
Proof.
  induction p as [|c p IH]; simpl; [reflexivity|].
  now rewrite N.eqb_refl, IH.
Qed.

Lemma startswith_prefix (a b s : str) :
  startswith (a ++ b) s = true -> startswith a s = true.
Proof.
  revert s; induction a as [|c a IH]; intros s H; [reflexivity|].
  destruct s as [|d s]; simpl in *; [discriminate|].
  apply andb_true_iff in H as [H1 H2].
  rewrite H1; simpl; auto.
Qed.

Lemma contains_prefix (a b s : str) :
  contains (a ++ b) s = true -> contains a s = true.
Proof.
  induction s as [|d s IH]; simpl; intro H.
  - destruct a; [reflexivity|discriminate].
  - apply orb_true_iff in H as [H|H].
    + now rewrite (startswith_prefix a b _ H).
    + rewrite (IH H); apply orb_true_r.
Qed.

Lemma contains_absent_prefix (a b s : str) :
  contains a s = false -> contains (a ++ b) s = false.
Proof.
  intro H; destruct (contains (a ++ b) s) eqn:E; [|reflexivity].
  apply contains_prefix in E; congruence.
Qed.

Lemma contains_app (m pre post : str) : contains m (pre ++ m ++ post) = true.
Proof.
  induction pre as [|c pre IH]; simpl.
  - destruct (m ++ post) eqn:E.
    + destruct m; [reflexivity|discriminate].
    + simpl. rewrite <- E, startswith_app. reflexivity.
  - rewrite IH; apply orb_true_r.
Qed.

Lemma contains_tail (p : str) (c : char) (s : str) :
  contains p (c :: s) = false -> contains p s = false.
Proof. simpl; intro H; now apply orb_false_iff in H. Qed.

Lemma contains_head (p : str) (c : char) (s : str) :
  contains p (c :: s) = false -> startswith p (c :: s) = false.
Proof. simpl; intro H; now apply orb_false_iff in H. Qed.

Lemma ascii_ignore_app (a b : str) :
  ascii_ignore (a ++ b) = ascii_ignore a ++ ascii_ignore b.
Proof. apply filter_app. Qed.

(** *** [strip] leaves no whitespace at either end *)

Lemma lstrip_head (s : str) (c : char) (u : str) :
  lstrip s = c :: u -> is_space c = false.
Proof.
  induction s as [|d s IH]; simpl; [discriminate|].
  destruct (is_space d) eqn:E; [exact IH|].
  intro H; injection H as -> _; exact E.
Qed.

Lemma rstrip_cons_nonspace (c : char) (s : str) :
  is_space c = false -> rstrip (c :: s) = c :: rstrip s.
Proof. intro H; simpl; rewrite H; now destruct (rstrip s). Qed.

Lemma rstrip_cons_kept (c : char) (s : str) :
  rstrip s <> [] -> rstrip (c :: s) = c :: rstrip s.
Proof. intro H; simpl; destruct (rstrip s); [contradiction|reflexivity]. Qed.

Lemma rstrip_head (s : str) (c : char) (u : str) :
  rstrip s = c :: u -> exists s', s = c :: s'.
Proof.
  destruct s as [|d s]; simpl; [discriminate|].
  destruct (rstrip s); [destruct (is_space d); [discriminate|]|];
    intro H; injection H as -> _; eauto.
Qed.

Lemma rstrip_last (s u : str) (c : char) :
  rstrip s = u ++ [c] -> is_space c = false.
Proof.
  revert u; induction s as [|d s IH]; intros u; simpl.
  - destruct u; discriminate.
  - destruct (rstrip s) as [|e r] eqn:E.
    + destruct (is_space d) eqn:Ed.
      * destruct u; discriminate.
      * destruct u as [|x [|y u]]; try discriminate.
        intro H; injection H as ->; exact Ed.
    + destruct u as [|x u]; [discriminate|].
      intro H; injection H as _ H. exact (IH u H).
Qed.

Lemma strip_head (t : str) (c : char) (u : str) :
  strip t = c :: u -> is_space c = false.
Proof.
  unfold strip; intro H.
  destruct (rstrip_head _ _ _ H) as [s' Hs].
  exact (lstrip_head _ _ _ Hs).
Qed.

Lemma strip_last (t u : str) (c : char) :
  strip t = u ++ [c] -> is_space c = false.
Proof. unfold strip; apply rstrip_last. Qed.

Lemma lstrip_nonspace (c : char) (s : str) :
  is_space c = false -> lstrip (c :: s) = c :: s.
Proof. intro H; simpl; now rewrite H. Qed.

(** *** Lines *)

Lemma split_on_nonempty (sep : char) (s : str) : split_on sep s <> [].
Proof.
  destruct s as [|c s]; simpl; [discriminate|].
  destruct (N.eqb c sep); [discriminate|].
  destruct (split_on sep s); discriminate.
Qed.

Lemma split_on_cons (sep c : char) (s : str) :
  N.eqb c sep = false ->
  exists l ls, split_on sep s = l :: ls /\ split_on sep (c :: s) = (c :: l) :: ls.
Proof.
  intro H; simpl; rewrite H.
  destruct (split_on sep s) as [|l ls] eqn:E.
  - now destruct (split_on_nonempty sep s).
  - eauto.
Qed.

Lemma join_head (sep l : str) (ls : list str) :
  exists tl, join sep (l :: ls) = l ++ tl.
Proof.
  simpl; destruct ls.
  - exists []; now rewrite app_nil_r.
  - eauto.
Qed.

End StringFacts.

(** *** A substitution changes nothing where the pattern's literal head is absent *)

Section SubFacts.

Lemma drop_prefix_startswith (l s : str) :
  startswith l s = false -> drop_prefix l s = None.
Proof.
  revert s; induction l as [|a l IH]; intros [|b s]; simpl; try discriminate; auto.
  destruct (N.eqb a b); simpl; auto.
Qed.

Lemma match_here_lit_absent (l : str) (rs : list regex) (s : str) :
  startswith l s = false -> match_here (cat_all (Lit l :: rs)) s = None.
Proof.
  intro H; unfold match_here; simpl.
  now rewrite (drop_prefix_startswith _ _ H).
Qed.

Lemma sub_lit_absent (l : str) (rs : list regex) (repl : captures -> str) (s : str) :
  l <> [] -> contains l s = false -> Re.sub (cat_all (Lit l :: rs)) repl s = s.
Proof.
  intros Hl; unfold Re.sub.
  induction s as [|c s IH]; intro H.
  - cbn [sub_from]. rewrite match_here_lit_absent; [reflexivity|].
    destruct l; [contradiction|reflexivity].
  - cbn [sub_from].
    rewrite (match_here_lit_absent _ _ _ (contains_head _ _ _ H)).
    now rewrite (IH (contains_tail _ _ _ H)).
Qed.

End SubFacts.

(* ================================================================== *)
(** ** The Pattern Fix Engine: what its rules do to a wrapped source *)
(* ================================================================== *)

Section PatternFacts.

Variable unicode_alnum : char -> bool.

Lemma split_on_prefix (p W l0 : str) (ls : list str) :
  forallb (fun c => negb (N.eqb c nl)) p = true ->
  split_on nl W = l0 :: ls ->
  split_on nl (p ++ W) = (p ++ l0) :: ls.
Proof.
  intros Hp HW; induction p as [|c p IH]; simpl in *; [exact HW|].
  apply andb_true_iff in Hp as [Hc Hp].
  apply negb_true_iff in Hc. rewrite Hc, (IH Hp). reflexivity.
Qed.

Lemma rstrip_prefix (p : str) (c : char) (W : str) :
  is_space c = false -> rstrip (p ++ c :: W) = p ++ c :: rstrip W.
Proof.
  intro Hc; induction p as [|d p IH].
  - apply rstrip_cons_nonspace; exact Hc.
  - change ((d :: p) ++ c :: W) with (d :: (p ++ c :: W)).
    rewrite rstrip_cons_kept; rewrite IH; [reflexivity|].
    destruct p; discriminate.
Qed.

Lemma wrap_main_head (s : str) :
  Autofix.wrap_main s
  = wrapper_head ++ nl :: s ++ nl :: lit "    ()" ++ nl :: lit "}".
Proof. reflexivity. Qed.

Lemma head_lines (W : str) :
  exists l0 ls, split_on nl W = l0 :: ls
                /\ split_on nl (wrapper_head ++ W) = (wrapper_head ++ l0) :: ls.
Proof.
  destruct (split_on nl W) as [|l0 ls] eqn:E.
  - now destruct (split_on_nonempty nl W).
  - exists l0, ls; split; [reflexivity|].
    apply split_on_prefix; [reflexivity|exact E].
Qed.

(** The comment rule keeps the wrapper's opening line. *)
Lemma remove_comments_head (W : str) :
  exists W', Autofix.remove_comments (wrapper_head ++ W) = wrapper_head ++ W'.
Proof.
  unfold Autofix.remove_comments.
  destruct (head_lines W) as (l0 & ls & _ & ->).
  assert (Hkeep : negb (startswith (lit "//") (strip (wrapper_head ++ l0))) = true).
  { unfold strip. change (wrapper_head ++ l0) with (102%N :: tl wrapper_head ++ l0).
    rewrite lstrip_nonspace by reflexivity.
    rewrite rstrip_cons_nonspace by reflexivity. reflexivity. }
  cbn [filter]. rewrite Hkeep.
  destruct (join_head [nl] (wrapper_head ++ l0)
              (filter (fun line => negb (startswith (lit "//") (strip line))) ls))
    as [t ->].
  exists (l0 ++ t). now rewrite app_assoc.
Qed.

(** The wrapper pattern of rule 3 wants the brace right after [fn main()];
    the line rule 1 writes has [-> ()] there, so no match starts in it. *)
Lemma unwrap_pattern_skips_head (W : str) :
  Re.sub Autofix.re_main_wrapper (group 1) (wrapper_head ++ W)
  = wrapper_head ++ Re.sub Autofix.re_main_wrapper (group 1) W.
Proof. reflexivity. Qed.

Lemma dedent_head (W : str) :
  exists W', join [nl] (map Autofix.dedent_line (split_on nl (wrapper_head ++ W)))
             = wrapper_head ++ W'.
Proof.
  destruct (head_lines W) as (l0 & ls & _ & ->).
  cbn [map].
  change (Autofix.dedent_line (wrapper_head ++ l0)) with (wrapper_head ++ l0).
  destruct (join_head [nl] (wrapper_head ++ l0) (map Autofix.dedent_line ls))
    as [t ->].
  exists (l0 ++ t). now rewrite app_assoc.
Qed.

Lemma remove_main_wrapper_head (W : str) :
  exists W', Autofix.remove_main_wrapper (wrapper_head ++ W) = wrapper_head ++ W'.
Proof.
  unfold Autofix.remove_main_wrapper.
  rewrite unwrap_pattern_skips_head. apply dedent_head.
Qed.

Lemma fix_tuple_patterns_head (W : str) :
  exists W', Autofix.fix_tuple_patterns unicode_alnum (wrapper_head ++ W)
             = wrapper_head ++ W'.
Proof. eexists; reflexivity. Qed.

Lemma strip_head_kept (W : str) :
  exists W', strip (wrapper_head ++ W) = wrapper_head ++ W'.
Proof.
  unfold strip.
  change (wrapper_head ++ W) with (102%N :: tl wrapper_head ++ W).
  rewrite lstrip_nonspace by reflexivity.
  change (102%N :: tl wrapper_head ++ W)
    with (lit "fn main() -> () " ++ 123%N :: W).
  rewrite rstrip_prefix by reflexivity.
  eexists; reflexivity.
Qed.

Lemma has_main_wrapper_head (W : str) :
  Autofix.has_main_wrapper (wrapper_head ++ W) = true.
Proof. reflexivity. Qed.

(** The text after each rule, once rule 1 has fired. *)
Lemma after_comments_head (source_code error_message : str) :
  Autofix.wants_wrapper error_message = true ->
  exists W, Autofix.after_comments source_code error_message = wrapper_head ++ W.
Proof.
  intro H; unfold Autofix.after_comments, Autofix.after_wrap; rewrite H.
  rewrite wrap_main_head.
  destruct (Autofix.wants_comment_removal error_message).
  - apply remove_comments_head.
  - eexists; reflexivity.
Qed.

Lemma after_unwrap_head (source_code error_message : str) :
  Autofix.wants_wrapper error_message = true ->
  exists W, Autofix.after_unwrap source_code error_message = wrapper_head ++ W.
Proof.
  intro H; unfold Autofix.after_unwrap.
  destruct (after_comments_head source_code _ H) as [W ->].
  rewrite has_main_wrapper_head. apply remove_main_wrapper_head.
Qed.

Lemma after_tuples_head (source_code error_message : str) :
  Autofix.wants_wrapper error_message = true ->
  exists W, Autofix.after_tuples unicode_alnum source_code error_message
            = wrapper_head ++ W.
Proof.
  intro H; unfold Autofix.after_tuples.
  destruct (after_unwrap_head source_code _ H) as [W ->].
  destruct (Autofix.has_tuple_pattern (wrapper_head ++ W)).
  - apply fix_tuple_patterns_head.
  - eexists; reflexivity.
Qed.

Lemma output_head (source_code error_message : str) :
  Autofix.wants_wrapper error_message = true ->
  exists W, Autofix.apply_rule_based_fixes unicode_alnum source_code error_message
            = wrapper_head ++ W.
Proof.
  intro H; unfold Autofix.apply_rule_based_fixes.
  destruct (after_tuples_head source_code _ H) as [W ->].
  destruct (strip_head_kept W) as [W' ->].
  exists (W' ++ [nl]). now rewrite app_assoc.
Qed.

Lemma no_rule_fires_output (source_code error_message : str) :
  no_rule_fires source_code error_message = true ->
  Autofix.apply_rule_based_fixes unicode_alnum source_code error_message
  = strip source_code ++ [nl].
Proof.
  unfold no_rule_fires; intro H.
  repeat (apply andb_true_iff in H as [H ?]).
  repeat match goal with E : negb _ = true |- _ => apply negb_true_iff in E end.
  unfold Autofix.apply_rule_based_fixes, Autofix.after_tuples,
    Autofix.after_unwrap, Autofix.after_comments, Autofix.after_wrap.
  repeat match goal with E : _ = false |- _ => rewrite E end.
  reflexivity.
Qed.

Lemma strip_trimmed (t : str) : trimmed (strip t).
Proof.
  split; intros c u' E.
  - exact (strip_head _ _ _ E).
  - exact (strip_last _ _ _ E).
Qed.

End PatternFacts.

(* ================================================================== *)
(** ** Claims about the Pattern Fix Engine *)
(* ================================================================== *)

(** C8.  On source ["1 + 1"] with error ["expected program"] the Pattern
    Fix Engine returns the source wrapped in [fn main() -> () { .. }], a
    declaration with no argument and the unit return type, whose body is
    the original source followed by the unit expression [()]:
    the lines [fn main() -> () {], [1 + 1], [()], [}]. *)
Theorem C8_scenario_wraps_top_level_source (unicode_alnum : char -> bool) :
  Autofix.apply_rule_based_fixes unicode_alnum (lit "1 + 1") (lit "expected program")
  = wrapper_head ++ [nl] ++ lit "1 + 1" ++ [nl] ++ lit "()" ++ [nl] ++ lit "}" ++ [nl].
Proof. reflexivity. Qed.

(** C7, as the claim states it, fails: no input with the rule-1 trigger
    makes one call add the wrapper and take it away again, neither in the
    text after rule 3 nor in the returned source. *)
Lemma C7_no_call_removes_its_wrapper :
  ~ (exists (unicode_alnum : char -> bool) (source_code error_message : str),
        Autofix.wants_wrapper error_message = true
        /\ (startswith wrapper_head
              (Autofix.after_unwrap source_code error_message) = false
            \/ startswith wrapper_head
                 (Autofix.apply_rule_based_fixes unicode_alnum source_code
                    error_message) = false)).
Proof.
  intros (ua & s & e & H & [Hf|Hf]).
  - destruct (after_unwrap_head s e H) as [W E].
    rewrite E, startswith_app in Hf; discriminate.
  - destruct (output_head ua s e H) as [W E].
    rewrite E, startswith_app in Hf; discriminate.
Qed.

(** C7, amended.  For every input whose error has the rule-1 trigger, one
    call wraps the source (rule 1), the trigger of rule 3 is then present
    and rule 3 runs, but no match of its pattern starts at the wrapper's
    opening line: the text after rule 3 and the returned source both still
    begin with [fn main() -> () {].  Rule 3 can still delete other text of
    the wrapper: on the source [fn main() { x }] it matches from the
    source's own [fn main() {] to the last closing brace of the text,
    which is the brace rule 1 wrote, and the call returns the lines
    [fn main() -> () {], [ x }], [()]. *)
Theorem C7_wrapper_survives_rule_3 (unicode_alnum : char -> bool)
        (source_code error_message : str) :
  Autofix.wants_wrapper error_message = true ->
  Autofix.after_wrap source_code error_message = Autofix.wrap_main source_code
  /\ Autofix.has_main_wrapper (Autofix.after_comments source_code error_message) = true
  /\ Autofix.after_unwrap source_code error_message
     = Autofix.remove_main_wrapper (Autofix.after_comments source_code error_message)
  /\ startswith wrapper_head (Autofix.after_unwrap source_code error_message) = true
  /\ startswith wrapper_head
       (Autofix.apply_rule_based_fixes unicode_alnum source_code error_message) = true
  /\ (forall W, match_here Autofix.re_main_wrapper (wrapper_head ++ W) = None)
  /\ (forall W, Re.sub Autofix.re_main_wrapper (group 1) (wrapper_head ++ W)
                = wrapper_head ++ Re.sub Autofix.re_main_wrapper (group 1) W)
  /\ Autofix.remove_main_wrapper (Autofix.wrap_main (lit "fn main() { x }"))
     = wrapper_head ++ [nl] ++ lit " x }" ++ [nl] ++ lit "()" ++ [nl]
  /\ Autofix.apply_rule_based_fixes unicode_alnum (lit "fn main() { x }")
       (lit "expected program")
     = wrapper_head ++ [nl] ++ lit " x }" ++ [nl] ++ lit "()" ++ [nl].
Proof.
  intro H.
  assert (Hc := after_comments_head source_code error_message H).
  destruct Hc as [W Hc].
  assert (Ht : Autofix.has_main_wrapper
                 (Autofix.after_comments source_code error_message) = true)
    by (rewrite Hc; apply has_main_wrapper_head).
  repeat split.
  - unfold Autofix.after_wrap; now rewrite H.
  - exact Ht.
  - unfold Autofix.after_unwrap; now rewrite Ht.
  - destruct (after_unwrap_head source_code error_message H) as [W' ->].
    apply startswith_app.
  - destruct (output_head unicode_alnum source_code error_message H) as [W' ->].
    apply startswith_app.
Qed.

Lemma C7_wrapper_survives_witness :
  Autofix.wants_wrapper (lit "expected program") = true
  /\ startswith wrapper_head
       (Autofix.apply_rule_based_fixes Demo.no_unicode_words (lit "fn main() { x }")
          (lit "expected program")) = true.
Proof.
  split; [reflexivity|].
  apply (C7_wrapper_survives_rule_3 Demo.no_unicode_words (lit "fn main() { x }")
           (lit "expected program")).
  reflexivity.
Defined.

(** C10.  Every output of the Pattern Fix Engine is some text stripped of
    leading and trailing whitespace, followed by one newline.  When no
    rule fires that text is the input's, so the output is the input only
    if the input already has that form: an input that starts with
    whitespace (other than the lone newline), that ends in whitespace
    before its last newline, or that does not end in a newline comes
    back changed. *)
Theorem C10_output_is_whitespace_normalised (unicode_alnum : char -> bool)
        (source_code error_message : str) :
  let output :=
    Autofix.apply_rule_based_fixes unicode_alnum source_code error_message in
  (exists text, output = strip text ++ [nl] /\ trimmed (strip text))
  /\ (no_rule_fires source_code error_message = true ->
      output = strip source_code ++ [nl]
      /\ (output = source_code <-> source_code = strip source_code ++ [nl])
      /\ (forall c rest, source_code = c :: rest -> is_space c = true ->
                         source_code <> [nl] -> output <> source_code)
      /\ (forall body c, source_code = body ++ [c; nl] -> is_space c = true ->
                         output <> source_code)
      /\ ((forall body, source_code <> body ++ [nl]) -> output <> source_code)).
Proof.
  cbv zeta. split.
  - exists (Autofix.after_tuples unicode_alnum source_code error_message).
    split; [reflexivity|apply strip_trimmed].
  - intro H. rewrite (no_rule_fires_output unicode_alnum _ _ H).
    split; [reflexivity|]. split; [split; intro E; now rewrite <- E at 1|].
    split; [|split].
    + intros c rest Hs Hc Hn E.
      destruct (strip source_code) as [|d u] eqn:Eu.
      * now symmetry in E.
      * assert (Hd := strip_head _ _ _ Eu).
        rewrite Hs in E; injection E as -> _. congruence.
    + intros body c Hs Hc E.
      rewrite Hs in E at 2.
      change (body ++ [c; nl]) with (body ++ [c] ++ [nl]) in E.
      rewrite app_assoc in E. apply app_inj_tail in E as [E _].
      apply strip_last in E. congruence.
    + intros Hs E. exact (Hs (strip source_code) (eq_sym E)).
Qed.

Lemma C10_normalised_witness :
  no_rule_fires (lit " x") (lit "") = true
  /\ Autofix.apply_rule_based_fixes Demo.no_unicode_words (lit " x") (lit "") = lit "x" ++ [nl]
  /\ Autofix.apply_rule_based_fixes Demo.no_unicode_words (lit " x") (lit "") <> lit " x".
Proof.
  split; [reflexivity|]. split; [reflexivity|].
  destruct (C10_output_is_whitespace_normalised Demo.no_unicode_words (lit " x") (lit ""))
    as [_ H].
  destruct (H eq_refl) as (_ & _ & Hlead & _).
  apply (Hlead 32%N (lit "x")); [reflexivity|reflexivity|discriminate].
Defined.

(** C9, as the claim states it, fails: the two rule-based fixers differ
    already on source ["x"] with an empty error. *)
Lemma C9_fixers_are_not_the_same_function :
  ~ (forall (unicode_alnum : char -> bool) (source_code error_message : str),
        ClaudeAgent.apply_rule_based_fixes unicode_alnum source_code error_message
        = Autofix.apply_rule_based_fixes unicode_alnum source_code error_message).
Proof.
  intro H. specialize (H Demo.no_unicode_words (lit "x") (lit "")).
  discriminate H.
Qed.

(** C9, amended.  The agent's fallback fixer is another function than the
    Pattern Fix Engine: it never reads the error and does not normalise
    whitespace.  Where the error has neither trigger phrase and the source
    has no [fn main], no [let] and no [assert!(], the fallback returns the
    source as it is, and the Pattern Fix Engine returns the same text
    stripped and closed by one newline. *)
Theorem C9_fixers_agree_up_to_normalisation (unicode_alnum : char -> bool)
        (source_code error_message : str) :
  Autofix.wants_wrapper error_message = false ->
  Autofix.wants_comment_removal error_message = false ->
  contains (lit "fn main") source_code = false ->
  contains (lit "let") source_code = false ->
  contains (lit "assert!(") source_code = false ->
  ClaudeAgent.apply_rule_based_fixes unicode_alnum source_code error_message
  = source_code
  /\ Autofix.apply_rule_based_fixes unicode_alnum source_code error_message
     = strip (ClaudeAgent.apply_rule_based_fixes unicode_alnum source_code
                error_message) ++ [nl].
Proof.
  intros Hw Hc Hmain Hlet Hassert.
  assert (Hagent :
    ClaudeAgent.apply_rule_based_fixes unicode_alnum source_code error_message
    = source_code).
  { unfold ClaudeAgent.apply_rule_based_fixes, ClaudeAgent.remove_main_wrapper.
    change (lit "fn main()") with (lit "fn main" ++ lit "()").
    rewrite (contains_absent_prefix _ _ _ Hmain).
    unfold ClaudeAgent.fix_let_patterns, ClaudeAgent.re_let_jet.
    rewrite sub_lit_absent by (discriminate || assumption).
    unfold ClaudeAgent.fix_asserts, ClaudeAgent.re_assert.
    now rewrite sub_lit_absent by (discriminate || assumption). }
  split; [exact Hagent|]. rewrite Hagent.
  apply no_rule_fires_output. unfold no_rule_fires.
  rewrite Hw, Hc. unfold Autofix.has_main_wrapper, Autofix.has_tuple_pattern.
  change (lit "fn main()") with (lit "fn main" ++ lit "()").
  change (lit "fn main (") with (lit "fn main" ++ lit " (").
  change (lit "let (") with (lit "let" ++ lit " (").
  now rewrite !(contains_absent_prefix _ _ _ Hmain),
    (contains_absent_prefix _ _ _ Hlet).
Qed.

Lemma C9_agree_up_to_normalisation_witness :
  ClaudeAgent.apply_rule_based_fixes Demo.no_unicode_words (lit "  x ") (lit "parse error")
  = lit "  x "
  /\ Autofix.apply_rule_based_fixes Demo.no_unicode_words (lit "  x ") (lit "parse error")
     = strip (ClaudeAgent.apply_rule_based_fixes Demo.no_unicode_words (lit "  x ")
                (lit "parse error")) ++ [nl].
Proof.
  apply (C9_fixers_agree_up_to_normalisation Demo.no_unicode_words (lit "  x ")
           (lit "parse error")); reflexivity.
Defined.

(* ================================================================== *)
(** ** Retry runs *)
(* ================================================================== *)

Section RunFacts.

Context {World : Type}.

Lemma since_app (st st' : state World) (new : list event) :
  trace st' = trace st ++ new -> since st st' = new.
Proof.
  unfold since; intros ->.
  rewrite skipn_app, skipn_all, Nat.sub_diag. reflexivity.
Qed.

Lemma submissions_app (a b : list event) :
  submissions (a ++ b) = submissions a ++ submissions b.
Proof. apply flat_map_app. Qed.

Lemma py_range_length (lo hi : Z) : length (py_range lo hi) = Z.to_nat (hi - lo).
Proof. unfold py_range. now rewrite length_map, length_seq. Qed.

Lemma py_range_empty (lo hi : Z) : (hi <= lo)%Z -> py_range lo hi = [].
Proof. intro H; unfold py_range. now replace (Z.to_nat (hi - lo)) with 0 by lia. Qed.

Lemma py_range_cons (lo hi : Z) :
  (lo < hi)%Z -> py_range lo hi = lo :: py_range (lo + 1) hi.
Proof.
  intro H; unfold py_range.
  replace (Z.to_nat (hi - lo)) with (S (Z.to_nat (hi - (lo + 1)))) by lia.
  cbn [seq map]. f_equal; [lia|].
  rewrite <- seq_shift, map_map. apply map_ext; intro i; lia.
Qed.

(** A range that starts with [a] and has a second element continues from
    [a + 1], and [a] is below its bound. *)
Lemma py_range_step (lo hi a : Z) (rest : list Z) :
  py_range lo hi = a :: rest ->
  a = lo /\ (lo < hi)%Z /\ rest = py_range (lo + 1) hi.
Proof.
  intro E. destruct (Z_lt_le_dec lo hi) as [H|H].
  - rewrite (py_range_cons _ _ H) in E. injection E as <- <-. auto.
  - rewrite (py_range_empty _ _ H) in E. discriminate.
Qed.

(** The submission at the last index of a trace that ends in a compile
    event is that event's. *)
Lemma last_submission_is (before : list (json * str * res (list str)))
      (source_code : json) (witness_data : str) (reply : res (list str))
      (k : nat) (sub : json * str * res (list str)) :
  nth_error (before ++ submissions [EvCompile source_code witness_data reply]) k
  = Some sub ->
  length (before ++ submissions [EvCompile source_code witness_data reply]) = S k ->
  EvCompile source_code witness_data reply
  = EvCompile (fst (fst sub)) (snd (fst sub)) (snd sub).
Proof.
  cbn [submissions flat_map app]. rewrite length_app; cbn [length].
  intros Hk Hlen.
  rewrite nth_error_app2 in Hk by lia.
  replace (k - length before) with 0 in Hk by lia.
  injection Hk as <-. reflexivity.
Qed.

End RunFacts.

Section AutofixRuns.

Variable unicode_alnum : char -> bool.
Variable json_loads : str -> res json.
Variable World : Type.
Variable call_tool : World -> json -> str -> World * res (list str).

Let loop := Autofix.attempts_loop unicode_alnum json_loads World call_tool.

Lemma autofix_extract_error_total (content_safe : str) :
  exists v, Autofix.extract_error json_loads content_safe = Ok v.
Proof.
  unfold Autofix.extract_error.
  destruct (contains (lit "message") content_safe); [|eauto].
  destruct (Autofix.parse_result_message json_loads content_safe (JStr content_safe));
    simpl; eauto.
Qed.

Lemma nth_error_singleton {A : Type} (x y : A) (k : nat) :
  nth_error [x] k = Some y -> k = 0 /\ y = x.
Proof.
  destruct k as [|k]; simpl.
  - intro E; injection E as <-; auto.
  - destruct k; discriminate.
Qed.

(** One iteration of the loop, step by step. *)
Lemma autofix_loop_unfold (max_attempts : Z) (use_llm : bool) (witness_data : str)
      (attempt : Z) (rest : list Z) (current_code : str)
      (history : list Autofix.attempt_entry) (st : state World) :
  loop max_attempts use_llm witness_data (attempt :: rest) current_code history st
  = let (w1, reply) := call_tool (world st) (JStr current_code) witness_data in
    let st1 := mkState w1 (trace st ++ [EvCompile (JStr current_code) witness_data reply]) in
    match reply with
    | Raise e => (st1, Raise e)
    | Ok content =>
        let content_safe := ascii_ignore (first_text content) in
        let history1 :=
          history ++ [Autofix.mkEntry attempt current_code
                        (Autofix.succeeded content_safe) (firstn 500 content_safe)] in
        if Autofix.succeeded content_safe then (st1, Ok (true, current_code, history1))
        else
          match Autofix.extract_error json_loads content_safe with
          | Raise e => (st1, Raise e)
          | Ok (JStr error_text) =>
              if (max_attempts <=? attempt)%Z
              then (st1, Ok (false, current_code, history1))
              else
                loop max_attempts use_llm witness_data rest
                  (if use_llm
                   then Autofix.fix_code_with_llm unicode_alnum current_code error_text attempt
                   else Autofix.apply_rule_based_fixes unicode_alnum current_code error_text)
                  history1 st1
          | Ok _ => (st1, Raise AttributeError)
          end
    end.
Proof.
  unfold loop; cbn [Autofix.attempts_loop].
  unfold bind at 1, Autofix.compile_simplicity, external.
  destruct (call_tool (world st) (JStr current_code) witness_data) as [w1 [content|e]];
    [|reflexivity].
  cbv zeta.
  destruct (Autofix.succeeded (ascii_ignore (first_text content))); [reflexivity|].
  unfold bind at 1, lift at 1.
  destruct (Autofix.extract_error json_loads (ascii_ignore (first_text content)))
    as [[| | | |error_text| |]|e]; try reflexivity.
  unfold bind, lift; simpl.
  destruct (max_attempts <=? attempt)%Z; reflexivity.
Qed.
Lemma autofix_loop_spec (max_attempts : Z) (use_llm : bool) (witness_data : str)
      (attempts : list Z) :
  forall (current_code : str) (history : list Autofix.attempt_entry)
         (st : state World),
  exists new,
    trace (fst (loop max_attempts use_llm witness_data attempts current_code
                     history st)) = trace st ++ new
    /\ autofix_post max_attempts attempts current_code history (submissions new)
         (snd (loop max_attempts use_llm witness_data attempts current_code
                    history st)).
Proof.
  induction attempts as [|attempt rest IH]; intros current_code history st.
  - exists []; split; [now rewrite app_nil_r|].
    unfold autofix_post; cbn [submissions flat_map length loop Autofix.attempts_loop ret snd].
    split; [lia|]. split; [congruence|]. split; [|split; [|split]].
    + intros ok final h E; injection E as _ _ <-; lia.
    + intros [|k] sub E; discriminate.
    + intros final h E; discriminate.
    + intros lo final h _ Hne; congruence.
  - rewrite autofix_loop_unfold.
    destruct (call_tool (world st) (JStr current_code) witness_data)
      as [w1 reply] eqn:Ecall.
    set (ev := EvCompile (JStr current_code) witness_data reply).
    set (st1 := mkState w1 (trace st ++ [ev])).
    assert (Hone : forall r,
      (forall ok final h, r = Ok (ok, final, h) ->
         final = current_code /\ length h = length history + 1
         /\ ok = answered_by Autofix.succeeded ascii_ignore
             (JStr current_code, witness_data, reply)
         /\ (ok = false -> (max_attempts <= attempt)%Z)) ->
      (answered_by Autofix.succeeded ascii_ignore
          (JStr current_code, witness_data, reply) = true ->
         exists h, r = Ok (true, current_code, h)) ->
      autofix_post max_attempts (attempt :: rest) current_code history
        (submissions [ev]) r).
    { intros r Hr Ha. unfold autofix_post; cbn [submissions flat_map ev app length].
      split; [lia|]. split; [lia|]. split; [|split; [|split]].
      - intros ok final h E. destruct (Hr _ _ _ E) as (_ & -> & _). reflexivity.
      - intros k sub E Hs. apply nth_error_singleton in E as [-> ->].
        split; [reflexivity|]. destruct (Ha Hs) as [h ->].
        exists current_code, h; split; reflexivity.
      - intros final h E. destruct (Hr _ _ _ E) as (-> & _ & Hok & _).
        eexists; repeat split; [discriminate|now symmetry].
      - intros lo final h Hrange _ E.
        destruct (Hr _ _ _ E) as (-> & _ & _ & Hlast).
        specialize (Hlast eq_refl).
        destruct (py_range_step _ _ _ _ (eq_sym Hrange)) as (-> & _ & ->).
        rewrite py_range_empty by lia. split; reflexivity. }
    destruct reply as [content|e]; cbv zeta.
    + destruct (Autofix.succeeded (ascii_ignore (first_text content))) eqn:Esucc.
      * exists [ev]; split; [reflexivity|]. apply Hone.
        -- intros ok final h E; injection E as <- <- <-.
           rewrite length_app. unfold answered_by; simpl. rewrite Esucc.
           repeat split; try lia; discriminate.
        -- intros _; eexists; reflexivity.
      * assert (Hno : answered_by Autofix.succeeded ascii_ignore
          (JStr current_code, witness_data, Ok content) = false)
          by exact Esucc.
        destruct (Autofix.extract_error json_loads (ascii_ignore (first_text content)))
          as [[| | | |error_text| |]|e];
          try (exists [ev]; split; [reflexivity|]; apply Hone;
               [discriminate|rewrite Hno; discriminate]).
        destruct (max_attempts <=? attempt)%Z eqn:Elast.
        -- exists [ev]; split; [reflexivity|]. apply Hone.
           ++ intros ok final h E; injection E as <- <- <-.
              rewrite length_app, Hno. repeat split; try reflexivity; simpl; lia.
           ++ rewrite Hno; discriminate.
        -- match goal with
             |- context [loop _ _ _ rest ?c ?h st1] =>
               destruct (IH c h st1) as (new & Htrace & Hpost)
           end.
           exists (ev :: new); split.
           ++ rewrite Htrace. unfold st1; simpl. now rewrite <- app_assoc.
           ++ clear Hone. revert Hpost.
              match goal with
                |- context [loop _ _ _ rest ?c ?h st1] =>
                  generalize (snd (loop max_attempts use_llm witness_data rest c h st1))
              end.
              intros r (H1 & H2 & H3 & H4 & H5 & H6).
              unfold autofix_post.
              change (submissions (ev :: new))
                with ((JStr current_code, witness_data, Ok content) :: submissions new).
              cbn [length]. split; [lia|]. split; [lia|].
              split; [|split; [|split]].
              ** intros ok final h E. rewrite (H3 _ _ _ E), length_app. simpl; lia.
              ** intros [|k] sub E Hs.
                 { injection E as <-. congruence. }
                 destruct (H4 k sub E Hs) as (-> & final & h & Hf & Hr). eauto.
              ** intros final h E. destruct (H5 _ _ E) as (sub & Hl & Hne & Hs & Hf).
                 exists sub; repeat split; auto; [|discriminate].
                 destruct (submissions new); [contradiction|exact Hl].
              ** intros lo final h Hrange _ E.
                 destruct (py_range_step _ _ _ _ (eq_sym Hrange)) as (Ha & Hlt & Hrest).
                 apply Z.leb_gt in Elast.
                 assert (Hne : rest <> []).
                 { rewrite Hrest, py_range_cons by lia. discriminate. }
                 destruct (H6 _ _ _ Hrest Hne E) as (Hlen & Hf).
                 split; [now rewrite Hlen|].
                 destruct (submissions new) eqn:En; [|exact Hf].
                 exfalso. apply Hne. apply length_zero_iff_nil. now rewrite <- Hlen.
    + exists [ev]; split; [reflexivity|]. apply Hone; discriminate.
Qed.

(** A whole run of [compile_and_fix], from any state. *)
Lemma autofix_run_spec (source_code witness_data : str) (max_attempts : Z)
      (use_llm : bool) (st : state World) :
  let run := Autofix.compile_and_fix unicode_alnum json_loads World call_tool
               source_code witness_data max_attempts use_llm st in
  trace (fst run) = trace st ++ since st (fst run)
  /\ autofix_post max_attempts (py_range 1 (max_attempts + 1)) source_code []
       (submissions (since st (fst run))) (snd run).
Proof.
  cbv zeta. unfold Autofix.compile_and_fix.
  destruct (autofix_loop_spec max_attempts use_llm witness_data
              (py_range 1 (max_attempts + 1)) source_code [] st)
    as (new & Htrace & Hpost).
  fold loop. rewrite (since_app _ _ _ Htrace). auto.
Qed.

(** A successful run ends with the submission that succeeded. *)
Lemma autofix_success_is_last_event (max_attempts : Z) (use_llm : bool)
      (witness_data : str) (attempts : list Z) :
  forall (current_code : str) (history : list Autofix.attempt_entry)
         (st : state World) (final : str) (h : list Autofix.attempt_entry),
    snd (loop max_attempts use_llm witness_data attempts current_code history st)
    = Ok (true, final, h) ->
    exists before content,
      trace (fst (loop max_attempts use_llm witness_data attempts current_code
                       history st))
      = trace st ++ before ++ [EvCompile (JStr final) witness_data (Ok content)]
      /\ Autofix.succeeded (ascii_ignore (first_text content)) = true.
Proof.
  induction attempts as [|attempt rest IH]; intros current_code history st final h.
  - discriminate.
  - rewrite autofix_loop_unfold.
    destruct (call_tool (world st) (JStr current_code) witness_data)
      as [w1 [content|e]]; cbv zeta; [|discriminate].
    destruct (Autofix.succeeded (ascii_ignore (first_text content))) eqn:Esucc.
    + intro E; injection E as <- _. exists [], content. auto.
    + destruct (Autofix.extract_error json_loads (ascii_ignore (first_text content)))
        as [[| | | |error_text| |]|e]; try discriminate.
      destruct (max_attempts <=? attempt)%Z; [discriminate|].
      intro E. destruct (IH _ _ _ _ _ E) as (before & content' & Htrace & Hs).
      exists (EvCompile (JStr current_code) witness_data (Ok content) :: before),
             content'.
      split; [|exact Hs]. rewrite Htrace. cbn [trace].
      now rewrite <- app_assoc.
Qed.

Lemma autofix_run_success_is_last_event (source_code witness_data : str)
      (max_attempts : Z) (use_llm : bool) (st : state World) (final : str)
      (h : list Autofix.attempt_entry) :
  let run := Autofix.compile_and_fix unicode_alnum json_loads World call_tool
               source_code witness_data max_attempts use_llm st in
  snd run = Ok (true, final, h) ->
  exists before content,
    since st (fst run) = before ++ [EvCompile (JStr final) witness_data (Ok content)].
Proof.
  cbv zeta; unfold Autofix.compile_and_fix; fold loop; intro E.
  destruct (autofix_success_is_last_event _ _ _ _ _ _ _ _ _ E)
    as (before & content & Htrace & _).
  exists before, content. exact (since_app _ _ _ Htrace).
Qed.

End AutofixRuns.

Section ClaudeRuns.

Variable unicode_alnum : char -> bool.
Variable json_loads : str -> res json.
Variable py_repr : json -> str.
Variable exn_str : exn -> str.
Variable World : Type.
Variable call_tool : World -> json -> str -> World * res (list str).
Variable messages_create : World -> str -> str -> World * res (list str).
Variable agent : ClaudeAgent.SimplicityFixAgent.

Let loop :=
  ClaudeAgent.attempts_loop unicode_alnum json_loads py_repr exn_str World
    call_tool messages_create agent.
Let analyze :=
  ClaudeAgent.analyze_and_fix unicode_alnum json_loads py_repr exn_str World
    messages_create agent.

Local Open Scope py_scope.

Lemma claude_extract_error_total (content : str) :
  exists v, ClaudeAgent.extract_error json_loads content = Ok v.
Proof.
  unfold ClaudeAgent.extract_error.
  destruct (contains (lit "message" ++ [dquote; 58%N]) content); [|eauto].
  destruct (ClaudeAgent.parse_result_message json_loads content (JStr content));
    simpl; eauto.
Qed.

(** The service call logs one request and nothing else. *)
Lemma ask_service_trace (prompt : str) (st : state World) :
  trace (fst (ClaudeAgent.ask_service json_loads World messages_create agent
                prompt st))
  = trace st ++ [EvAsk (ClaudeAgent.model agent) prompt
                   (snd (messages_create (world st) (ClaudeAgent.model agent) prompt))].
Proof.
  unfold ClaudeAgent.ask_service, bind at 1, external.
  destruct (messages_create (world st) (ClaudeAgent.model agent) prompt)
    as [w1 [content|e]]; [|reflexivity].
  unfold bind, lift; simpl.
  repeat match goal with
         | |- context [match ?x with _ => _ end] => destruct x; simpl
         end; reflexivity.
Qed.

(** The delegated fix engine makes no compile submission. *)
Lemma analyze_trace (source_code error_message : json) (attempt : Z)
      (st : state World) :
  exists asks,
    trace (fst (analyze source_code error_message attempt st)) = trace st ++ asks
    /\ submissions asks = [].
Proof.
  unfold analyze, ClaudeAgent.analyze_and_fix.
  destruct (negb (ClaudeAgent.client agent)).
  - exists []; split; [|reflexivity]. rewrite app_nil_r.
    unfold bind, lift, ret.
    destruct (ClaudeAgent.rule_based unicode_alnum source_code error_message);
      reflexivity.
  - exists [EvAsk (ClaudeAgent.model agent)
                 (ClaudeAgent.prompt_for py_repr source_code error_message)
                 (snd (messages_create (world st) (ClaudeAgent.model agent)
                         (ClaudeAgent.prompt_for py_repr source_code error_message)))].
    split; [|reflexivity].
    unfold try_except.
    pose proof (ask_service_trace
                  (ClaudeAgent.prompt_for py_repr source_code error_message) st) as H.
    destruct (ClaudeAgent.ask_service json_loads World messages_create agent
                (ClaudeAgent.prompt_for py_repr source_code error_message) st)
      as [st1 [v|e]]; simpl in H.
    + exact H.
    + unfold bind, lift, ret.
      destruct (ClaudeAgent.rule_based unicode_alnum source_code error_message);
        exact H.
Qed.

(** One iteration of the loop, step by step. *)
Lemma claude_loop_unfold (max_attempts : Z) (witness_data : str) (attempt : Z)
      (rest : list Z) (current_code : json)
      (history : list ClaudeAgent.history_entry) (st : state World) :
  loop max_attempts witness_data (attempt :: rest) current_code history st
  = let (w1, reply) := call_tool (world st) current_code witness_data in
    let st1 := mkState w1 (trace st ++ [EvCompile current_code witness_data reply]) in
    match reply with
    | Raise e => (st1, Raise e)
    | Ok content =>
        if ClaudeAgent.succeeded (first_text content)
        then (st1, Ok (true, current_code,
                       history ++ [ClaudeAgent.mkEntry attempt true None current_code]))
        else
          match claude_diagnose json_loads (first_text content) with
          | Raise e => (st1, Raise e)
          | Ok (error_msg, error_excerpt) =>
              let history1 :=
                history ++ [ClaudeAgent.mkEntry attempt false (Some error_excerpt)
                              current_code] in
              if (max_attempts <=? attempt)%Z
              then (st1, Ok (false, current_code, history1))
              else
                let (st2, fixed) := analyze current_code error_msg attempt st1 in
                match res_bind fixed claude_next_code with
                | Raise e => (st2, Raise e)
                | Ok fixed_code =>
                    loop max_attempts witness_data rest fixed_code history1 st2
                end
          end
    end.
Proof.
  unfold loop; cbn [ClaudeAgent.attempts_loop].
  unfold bind at 1, external.
  destruct (call_tool (world st) current_code witness_data) as [w1 [content|e]];
    [|reflexivity].
  cbv zeta.
  destruct (ClaudeAgent.succeeded (first_text content)); [reflexivity|].
  unfold claude_diagnose.
  unfold bind at 1, lift at 1.
  destruct (ClaudeAgent.extract_error json_loads (first_text content))
    as [error_msg|e]; [|reflexivity].
  cbn [res_bind].
  unfold bind at 1, lift at 1.
  destruct (py_take 250 error_msg) as [x|e]; [|reflexivity].
  cbn [res_bind].
  unfold bind at 1, lift at 1.
  destruct (py_take 200 error_msg) as [error_excerpt|e]; [|reflexivity].
  cbn [res_bind].
  destruct (max_attempts <=? attempt)%Z; [reflexivity|].
  unfold bind at 1. fold analyze.
  destruct (analyze current_code error_msg attempt
              {| world := w1;
                 trace := trace st ++ [EvCompile current_code witness_data (Ok content)] |})
    as [st2 [fix_result|e]]; [|reflexivity].
  cbn [res_bind]. unfold claude_next_code.
  unfold bind at 1, lift at 1.
  destruct (py_getitem fix_result (lit "fixed_code")) as [fixed_code|e];
    [|reflexivity].
  cbn [res_bind].
  unfold bind at 1, lift at 1.
  destruct (ClaudeAgent.preview fixed_code); reflexivity.
Qed.

Lemma claude_loop_spec (max_attempts : Z) (witness_data : str) (attempts : list Z) :
  forall (current_code : json) (history : list ClaudeAgent.history_entry)
         (st : state World),
  exists new,
    trace (fst (loop max_attempts witness_data attempts current_code history st))
    = trace st ++ new
    /\ claude_post max_attempts attempts current_code history (submissions new)
         (snd (loop max_attempts witness_data attempts current_code history st)).
Proof.
  induction attempts as [|attempt rest IH]; intros current_code history st.
  - exists []; split; [now rewrite app_nil_r|].
    unfold claude_post;
      cbn [submissions flat_map length loop ClaudeAgent.attempts_loop ret snd].
    split; [lia|]. split; [congruence|]. split; [|split; [|split]].
    + intros ok final h E; injection E as _ _ <-; lia.
    + intros [|k] sub E; discriminate.
    + intros final h E; discriminate.
    + intros lo final h _ Hne; congruence.
  - rewrite claude_loop_unfold.
    destruct (call_tool (world st) current_code witness_data)
      as [w1 reply] eqn:Ecall.
    set (ev := EvCompile current_code witness_data reply).
    set (st1 := mkState w1 (trace st ++ [ev])).
    assert (Hone : forall asks r,
      submissions asks = [] ->
      (forall ok final h, r = Ok (ok, final, h) ->
         final = current_code /\ length h = length history + 1
         /\ ok = answered_by ClaudeAgent.succeeded (fun text => text)
             (current_code, witness_data, reply)
         /\ (ok = false -> (max_attempts <= attempt)%Z)) ->
      (answered_by ClaudeAgent.succeeded (fun text => text)
          (current_code, witness_data, reply) = true ->
         exists h, r = Ok (true, current_code, h)) ->
      claude_post max_attempts (attempt :: rest) current_code history
        (submissions (ev :: asks)) r).
    { intros asks r Hasks Hr Ha. unfold claude_post.
      change (submissions (ev :: asks))
        with ((current_code, witness_data, reply) :: submissions asks).
      rewrite Hasks. cbn [length].
      split; [lia|]. split; [lia|]. split; [|split; [|split]].
      - intros ok final h E. destruct (Hr _ _ _ E) as (_ & -> & _). reflexivity.
      - intros k sub E Hs. apply nth_error_singleton in E as [-> ->].
        split; [reflexivity|]. destruct (Ha Hs) as [h ->].
        exists h; reflexivity.
      - intros final h E. destruct (Hr _ _ _ E) as (-> & _ & Hok & _).
        eexists; repeat split; [discriminate|now symmetry].
      - intros lo final h Hrange _ E.
        destruct (Hr _ _ _ E) as (-> & _ & _ & Hlast).
        specialize (Hlast eq_refl).
        destruct (py_range_step _ _ _ _ (eq_sym Hrange)) as (-> & _ & ->).
        rewrite py_range_empty by lia. split; reflexivity. }
    destruct reply as [content|e]; cbv zeta.
    + destruct (ClaudeAgent.succeeded (first_text content)) eqn:Esucc.
      * exists [ev]; split; [reflexivity|]. apply Hone; [reflexivity| |].
        -- intros ok final h E; injection E as <- <- <-.
           rewrite length_app. unfold answered_by; simpl. rewrite Esucc.
           repeat split; try lia; discriminate.
        -- intros _; eexists; reflexivity.
      * assert (Hno : answered_by ClaudeAgent.succeeded (fun text => text)
          (current_code, witness_data, Ok content) = false)
          by exact Esucc.
        destruct (claude_diagnose json_loads (first_text content))
          as [[error_msg error_excerpt]|e].
        2:{ exists [ev]; split; [reflexivity|]. apply Hone;
              [reflexivity|discriminate|rewrite Hno; discriminate]. }
        destruct (max_attempts <=? attempt)%Z eqn:Elast.
        -- exists [ev]; split; [reflexivity|]. apply Hone; [reflexivity| |].
           ++ intros ok final h E; injection E as <- <- <-.
              rewrite length_app, Hno. repeat split; try reflexivity; simpl; lia.
           ++ rewrite Hno; discriminate.
        -- destruct (analyze_trace current_code error_msg attempt st1)
             as (asks & Hasks & Hnone).
           destruct (analyze current_code error_msg attempt st1) as [st2 fixed].
           cbn [fst] in Hasks.
           destruct (res_bind fixed claude_next_code) as [fixed_code|e].
           2:{ exists (ev :: asks); split.
               - cbn [fst]. rewrite Hasks. unfold st1; simpl.
                 now rewrite <- app_assoc.
               - apply Hone; [exact Hnone|discriminate|rewrite Hno; discriminate]. }
           match goal with
             |- context [loop _ _ rest ?c ?h st2] =>
               destruct (IH c h st2) as (new & Htrace & Hpost)
           end.
           exists (ev :: asks ++ new); split.
           ++ rewrite Htrace, Hasks. unfold st1; simpl.
              now rewrite <- !app_assoc.
           ++ clear Hone. revert Hpost.
              match goal with
                |- context [loop _ _ rest ?c ?h st2] =>
                  generalize (snd (loop max_attempts witness_data rest c h st2))
              end.
              intros r (H1 & H2 & H3 & H4 & H5 & H6).
              unfold claude_post.
              replace (submissions (ev :: asks ++ new))
                with ((current_code, witness_data, Ok content) :: submissions new).
              2:{ change (ev :: asks ++ new) with ([ev] ++ asks ++ new).
                  now rewrite !submissions_app, Hnone. }
              cbn [length]. split; [lia|]. split; [lia|].
              split; [|split; [|split]].
              ** intros ok final h E. rewrite (H3 _ _ _ E), length_app. simpl; lia.
              ** intros [|k] sub E Hs.
                 { injection E as <-. congruence. }
                 destruct (H4 k sub E Hs) as (-> & h & Hr). eauto.
              ** intros final h E. destruct (H5 _ _ E) as (sub & Hl & Hne & Hs & Hf).
                 exists sub; repeat split; auto; [|discriminate].
                 destruct (submissions new); [contradiction|exact Hl].
              ** intros lo final h Hrange _ E.
                 destruct (py_range_step _ _ _ _ (eq_sym Hrange)) as (Ha & Hlt & Hrest).
                 apply Z.leb_gt in Elast.
                 assert (Hne : rest <> []).
                 { rewrite Hrest, py_range_cons by lia. discriminate. }
                 destruct (H6 _ _ _ Hrest Hne E) as (Hlen & Hf).
                 split; [now rewrite Hlen|].
                 destruct (submissions new) eqn:En; [|exact Hf].
                 exfalso. apply Hne. apply length_zero_iff_nil. now rewrite <- Hlen.
    + exists [ev]; split; [reflexivity|]. apply Hone; [reflexivity| |]; discriminate.
Qed.

(** A whole run of [compile_with_retries], from any state. *)
Lemma claude_run_spec (source_code witness_data : str) (max_attempts : Z)
      (st : state World) :
  let run := ClaudeAgent.compile_with_retries unicode_alnum json_loads py_repr
               exn_str World call_tool messages_create agent source_code
               witness_data max_attempts st in
  trace (fst run) = trace st ++ since st (fst run)
  /\ claude_post max_attempts (py_range 1 (max_attempts + 1)) (JStr source_code) []
       (submissions (since st (fst run))) (snd run).
Proof.
  cbv zeta. unfold ClaudeAgent.compile_with_retries.
  destruct (claude_loop_spec max_attempts witness_data
              (py_range 1 (max_attempts + 1)) (JStr source_code) [] st)
    as (new & Htrace & Hpost).
  fold loop. rewrite (since_app _ _ _ Htrace). auto.
Qed.

(** A successful run ends with the submission that succeeded. *)
Lemma claude_success_is_last_event (max_attempts : Z) (witness_data : str)
      (attempts : list Z) :
  forall (current_code : json) (history : list ClaudeAgent.history_entry)
         (st : state World) (final : json) (h : list ClaudeAgent.history_entry),
    snd (loop max_attempts witness_data attempts current_code history st)
    = Ok (true, final, h) ->
    exists before content,
      trace (fst (loop max_attempts witness_data attempts current_code history st))
      = trace st ++ before ++ [EvCompile final witness_data (Ok content)]
      /\ ClaudeAgent.succeeded (first_text content) = true.
Proof.
  induction attempts as [|attempt rest IH]; intros current_code history st final h.
  - discriminate.
  - rewrite claude_loop_unfold.
    destruct (call_tool (world st) current_code witness_data)
      as [w1 [content|e]]; cbv zeta; [|discriminate].
    destruct (ClaudeAgent.succeeded (first_text content)) eqn:Esucc.
    + intro E; injection E as <- _. exists [], content. auto.
    + destruct (claude_diagnose json_loads (first_text content))
        as [[error_msg error_excerpt]|e]; [|discriminate].
      destruct (max_attempts <=? attempt)%Z; [discriminate|].
      match goal with
        |- context [analyze current_code error_msg attempt ?s1] =>
          destruct (analyze_trace current_code error_msg attempt s1)
            as (asks & Hasks & _);
          destruct (analyze current_code error_msg attempt s1) as [st2 fixed]
      end.
      cbn [fst trace] in Hasks.
      destruct (res_bind fixed claude_next_code) as [fixed_code|e]; [|discriminate].
      intro E. destruct (IH _ _ _ _ _ E) as (before & content' & Htrace & Hs).
      exists (EvCompile current_code witness_data (Ok content) :: asks ++ before),
             content'.
      split; [|exact Hs]. rewrite Htrace, Hasks.
      rewrite <- !app_assoc. cbn [app]. now rewrite <- app_assoc.
Qed.

Lemma claude_run_success_is_last_event (source_code witness_data : str)
      (max_attempts : Z) (st : state World) (final : json)
      (h : list ClaudeAgent.history_entry) :
  let run := ClaudeAgent.compile_with_retries unicode_alnum json_loads py_repr
               exn_str World call_tool messages_create agent source_code
               witness_data max_attempts st in
  snd run = Ok (true, final, h) ->
  exists before content,
    since st (fst run) = before ++ [EvCompile final witness_data (Ok content)].
Proof.
  cbv zeta; unfold ClaudeAgent.compile_with_retries; fold loop; intro E.
  destruct (claude_success_is_last_event _ _ _ _ _ _ _ _ E)
    as (before & content & Htrace & _).
  exists before, content. exact (since_app _ _ _ Htrace).
Qed.

End ClaudeRuns.

(* ================================================================== *)
(** ** Claims about the retry controllers *)
(* ================================================================== *)

(** C1.  In a retry run of either controller, if the compile submission
    number [k] (counted from 0, so attempt [k + 1]) is answered with the
    success marker, then it is the last submission of the run and the
    last thing the run asks of any collaborator (there is no attempt
    after it and no further repair), the run reports [succeeded = true],
    and the final source it reports is the source of that submission. *)
Theorem C1_success_ends_the_run
        (unicode_alnum : char -> bool) (json_loads : str -> res json)
        (py_repr : json -> str) (exn_str : exn -> str) (World : Type)
        (call_tool : World -> json -> str -> World * res (list str))
        (messages_create : World -> str -> str -> World * res (list str))
        (agent : ClaudeAgent.SimplicityFixAgent)
        (source_code witness_data : str) (max_attempts : Z) (use_llm : bool)
        (st : state World) :
  (let run := Autofix.compile_and_fix unicode_alnum json_loads World call_tool
                source_code witness_data max_attempts use_llm st in
   let subs := submissions (since st (fst run)) in
   forall k sub,
     nth_error subs k = Some sub ->
     answered_by Autofix.succeeded ascii_ignore sub = true ->
     length subs = S k
     /\ (exists final history,
           fst (fst sub) = JStr final /\ snd run = Ok (true, final, history))
     /\ exists before,
          since st (fst run)
          = before ++ [EvCompile (fst (fst sub)) (snd (fst sub)) (snd sub)])
  /\
  (let run := ClaudeAgent.compile_with_retries unicode_alnum json_loads py_repr
                exn_str World call_tool messages_create agent source_code
                witness_data max_attempts st in
   let subs := submissions (since st (fst run)) in
   forall k sub,
     nth_error subs k = Some sub ->
     answered_by ClaudeAgent.succeeded (fun text => text) sub = true ->
     length subs = S k
     /\ (exists history, snd run = Ok (true, fst (fst sub), history))
     /\ exists before,
          since st (fst run)
          = before ++ [EvCompile (fst (fst sub)) (snd (fst sub)) (snd sub)]).
Proof.
  split; cbv zeta.
  - destruct (autofix_run_spec unicode_alnum json_loads World call_tool
                source_code witness_data max_attempts use_llm st)
      as (_ & _ & _ & _ & H & _).
    intros k sub Hk Ha. destruct (H k sub Hk Ha) as (Hlen & final & h & Hf & Hr).
    split; [exact Hlen|]. split; [eauto|].
    destruct (autofix_run_success_is_last_event unicode_alnum json_loads World
                call_tool source_code witness_data max_attempts use_llm st
                final h Hr) as (before & content & Hsince).
    exists before. rewrite Hsince. do 2 f_equal.
    rewrite Hsince, submissions_app in Hk, Hlen.
    apply (last_submission_is _ _ _ _ _ _ Hk Hlen).
  - destruct (claude_run_spec unicode_alnum json_loads py_repr exn_str World
                call_tool messages_create agent source_code witness_data
                max_attempts st)
      as (_ & _ & _ & _ & H & _).
    intros k sub Hk Ha. destruct (H k sub Hk Ha) as (Hlen & h & Hr).
    split; [exact Hlen|]. split; [eauto|].
    destruct (claude_run_success_is_last_event unicode_alnum json_loads py_repr
                exn_str World call_tool messages_create agent source_code
                witness_data max_attempts st _ h Hr)
      as (before & content & Hsince).
    exists before. rewrite Hsince. do 2 f_equal.
    rewrite Hsince, submissions_app in Hk, Hlen.
    apply (last_submission_is _ _ _ _ _ _ Hk Hlen).
Qed.

(** Scenario D of the spec: the compiler fails once and then succeeds,
    with a budget of 5 attempts. *)
Lemma C1_success_on_second_attempt_witness :
  let script := [Ok [lit "error: expected program"]] in
  let run := Autofix.compile_and_fix Demo.no_unicode_words Demo.loads nat
               (Demo.scripted script) (lit "1 + 1") [] 5 false Demo.start in
  length (submissions (since Demo.start (fst run))) = 2
  /\ exists final history,
      final = wrapper_head ++ [nl] ++ lit "1 + 1" ++ [nl] ++ lit "()" ++ [nl]
                ++ lit "}" ++ [nl]
      /\ snd run = Ok (true, final, history).
Proof.
  cbv zeta.
  destruct (C1_success_ends_the_run Demo.no_unicode_words Demo.loads Demo.repr
              Demo.exn_text nat (Demo.scripted [Ok [lit "error: expected program"]])
              Demo.service_down Demo.no_client (lit "1 + 1") [] 5 false Demo.start)
    as [H _].
  cbv zeta in H.
  destruct (H 1 _ eq_refl eq_refl) as (Hlen & (final & history & Hfinal & Hrun) & _).
  split; [exact Hlen|].
  exists final, history. split; [|exact Hrun].
  injection Hfinal as <-. reflexivity.
Defined.

(** C3, as the claim states it, fails: with [max_attempts = 0] the loop
    body never runs, so a run makes no attempt at all. *)
Lemma C3_no_attempt_with_zero_budget :
  let run := Autofix.compile_and_fix Demo.no_unicode_words Demo.loads nat
               (Demo.scripted []) (lit "1 + 1") [] 0 false Demo.start in
  snd run = Ok (false, lit "1 + 1", [])
  /\ length (submissions (since Demo.start (fst run))) = 0
  /\ ~ (1 <= length (submissions (since Demo.start (fst run)))).
Proof. cbv zeta. split; [reflexivity|]. split; [reflexivity|]. vm_compute. lia. Qed.

(** C3, amended.  For every retry run of either controller with
    [maxAttempts >= 1], the number of compile submissions made is at
    least 1 and at most [maxAttempts], and the attempt history a run
    returns has exactly one record per submission.  With
    [maxAttempts <= 0] the loop body never runs in either controller: the
    run makes no submission, calls no collaborator, and returns [false],
    the initial source and an empty history. *)
Theorem C3_attempts_bounded_and_recorded
        (unicode_alnum : char -> bool) (json_loads : str -> res json)
        (py_repr : json -> str) (exn_str : exn -> str) (World : Type)
        (call_tool : World -> json -> str -> World * res (list str))
        (messages_create : World -> str -> str -> World * res (list str))
        (agent : ClaudeAgent.SimplicityFixAgent)
        (source_code witness_data : str) (max_attempts : Z) (use_llm : bool)
        (st : state World) :
  ((1 <= max_attempts)%Z ->
   (let run := Autofix.compile_and_fix unicode_alnum json_loads World call_tool
                 source_code witness_data max_attempts use_llm st in
    let attempts_made := length (submissions (since st (fst run))) in
    1 <= attempts_made
    /\ (Z.of_nat attempts_made <= max_attempts)%Z
    /\ forall ok final history,
        snd run = Ok (ok, final, history) -> length history = attempts_made)
   /\
   (let run := ClaudeAgent.compile_with_retries unicode_alnum json_loads py_repr
                 exn_str World call_tool messages_create agent source_code
                 witness_data max_attempts st in
    let attempts_made := length (submissions (since st (fst run))) in
    1 <= attempts_made
    /\ (Z.of_nat attempts_made <= max_attempts)%Z
    /\ forall ok final history,
        snd run = Ok (ok, final, history) -> length history = attempts_made))
  /\
  ((max_attempts <= 0)%Z ->
   (let run := Autofix.compile_and_fix unicode_alnum json_loads World call_tool
                 source_code witness_data max_attempts use_llm st in
    run = (st, Ok (false, source_code, []))
    /\ since st (fst run) = []
    /\ length (submissions (since st (fst run))) = 0)
   /\
   (let run := ClaudeAgent.compile_with_retries unicode_alnum json_loads py_repr
                 exn_str World call_tool messages_create agent source_code
                 witness_data max_attempts st in
    run = (st, Ok (false, JStr source_code, []))
    /\ since st (fst run) = []
    /\ length (submissions (since st (fst run))) = 0)).
Proof.
  split.
  - intro Hmax.
    assert (Hlen : length (py_range 1 (max_attempts + 1)) = Z.to_nat max_attempts).
    { rewrite py_range_length. f_equal; lia. }
    assert (Hne : py_range 1 (max_attempts + 1) <> []).
    { rewrite py_range_cons by lia. discriminate. }
    split; cbv zeta.
    + destruct (autofix_run_spec unicode_alnum json_loads World call_tool
                  source_code witness_data max_attempts use_llm st)
        as (_ & Hle & Hge & Hh & _).
      rewrite Hlen in Hle. specialize (Hge Hne).
      split; [exact Hge|]. split; [lia|].
      intros ok final history E. now rewrite (Hh _ _ _ E).
    + destruct (claude_run_spec unicode_alnum json_loads py_repr exn_str World
                  call_tool messages_create agent source_code witness_data
                  max_attempts st)
        as (_ & Hle & Hge & Hh & _).
      rewrite Hlen in Hle. specialize (Hge Hne).
      split; [exact Hge|]. split; [lia|].
      intros ok final history E. now rewrite (Hh _ _ _ E).
  - intro Hmax. cbv zeta.
    assert (Hsince : since st st = []).
    { apply since_app. now rewrite app_nil_r. }
    unfold Autofix.compile_and_fix, ClaudeAgent.compile_with_retries.
    rewrite py_range_empty by lia.
    cbn [Autofix.attempts_loop ClaudeAgent.attempts_loop ret fst].
    rewrite Hsince. repeat split.
Qed.

(** Scenario C of the spec: the compiler always fails, with a budget of
    3 attempts. *)
Lemma C3_three_failures_witness :
  let script := [Ok [lit "error"]; Ok [lit "error"]; Ok [lit "error"]] in
  let run := Autofix.compile_and_fix Demo.no_unicode_words Demo.loads nat
               (Demo.scripted script) (lit "1 + 1") [] 3 false Demo.start in
  (1 <= 3)%Z
  /\ length (submissions (since Demo.start (fst run))) = 3
  /\ 1 <= length (submissions (since Demo.start (fst run)))
  /\ (Z.of_nat (length (submissions (since Demo.start (fst run)))) <= 3)%Z
  /\ exists history, snd run = Ok (false, lit "1 + 1" ++ [nl], history)
                     /\ length history = 3.
Proof.
  cbv zeta. split; [lia|]. split; [reflexivity|].
  destruct (C3_attempts_bounded_and_recorded Demo.no_unicode_words Demo.loads
              Demo.repr Demo.exn_text nat
              (Demo.scripted [Ok [lit "error"]; Ok [lit "error"]; Ok [lit "error"]])
              Demo.service_down Demo.no_client (lit "1 + 1") [] 3 false Demo.start)
    as [[(H1 & H2 & H3) _] _]; [lia|].
  cbv zeta in H3.
  split; [exact H1|]. split; [exact H2|].
  eexists; split; [reflexivity|].
  apply (H3 false (lit "1 + 1" ++ [nl])). reflexivity.
Defined.

(** C4.  The diagnostic extraction of both controllers never raises: for
    every response text it returns a canonical error, and whenever the
    attempt to parse a structured payload raises, that error is the raw
    text itself.  A text that contains the controller's success marker is
    reported as succeeded whatever precedes or follows the marker. *)
Theorem C4_extractor_never_raises (json_loads : str -> res json) (content : str) :
  (exists error_msg, Autofix.extract_error json_loads content = Ok error_msg)
  /\ (forall e,
        Autofix.parse_result_message json_loads content (JStr content) = Raise e ->
        Autofix.extract_error json_loads content = Ok (JStr content))
  /\ (exists error_msg, ClaudeAgent.extract_error json_loads content = Ok error_msg)
  /\ (forall e,
        ClaudeAgent.parse_result_message json_loads content (JStr content) = Raise e ->
        ClaudeAgent.extract_error json_loads content = Ok (JStr content))
  /\ (forall before after,
        Autofix.succeeded
          (ascii_ignore (before ++ Autofix.success_marker ++ after)) = true)
  /\ (forall before after,
        ClaudeAgent.succeeded (before ++ ClaudeAgent.success_marker ++ after) = true).
Proof.
  split; [apply autofix_extract_error_total|].
  split.
  { intros e H. unfold Autofix.extract_error. rewrite H. cbn [res_catch].
    now destruct (contains (lit "message") content). }
  split; [apply claude_extract_error_total|].
  split.
  { intros e H. unfold ClaudeAgent.extract_error. rewrite H. cbn [res_catch].
    now destruct (contains (lit "message" ++ [dquote; 58%N]) content). }
  split.
  - intros before after. unfold Autofix.succeeded.
    rewrite !ascii_ignore_app.
    change (ascii_ignore Autofix.success_marker) with Autofix.success_marker.
    apply contains_app.
  - intros before after. apply contains_app.
Qed.

(** A payload that does not decode, after the success marker and alone. *)
Lemma C4_malformed_payload_witness :
  let broken := lit "{" ++ [dquote] ++ lit "message" ++ [dquote] ++ lit ": oops" in
  Autofix.parse_result_message Demo.loads broken (JStr broken) = Raise JSONDecodeError
  /\ Autofix.extract_error Demo.loads broken = Ok (JStr broken)
  /\ ClaudeAgent.extract_error Demo.loads broken = Ok (JStr broken)
  /\ ClaudeAgent.succeeded (ClaudeAgent.success_marker ++ broken) = true.
Proof.
  cbv zeta.
  destruct (C4_extractor_never_raises Demo.loads
              (lit "{" ++ [dquote] ++ lit "message" ++ [dquote] ++ lit ": oops"))
    as (_ & Ha & _ & Hc & _ & Hs).
  split; [reflexivity|].
  split; [apply (Ha JSONDecodeError); reflexivity|].
  split; [apply (Hc JSONDecodeError); reflexivity|].
  apply (Hs []).
Defined.

(* ================================================================== *)
(** ** Claims about the Delegated Fix Engine *)
(* ================================================================== *)

Section DelegatedFacts.

Variable unicode_alnum : char -> bool.
Variable json_loads : str -> res json.
Variable py_repr : json -> str.
Variable exn_str : exn -> str.
Variable World : Type.
Variable messages_create : World -> str -> str -> World * res (list str).
Variable agent : ClaudeAgent.SimplicityFixAgent.

Let analyze :=
  ClaudeAgent.analyze_and_fix unicode_alnum json_loads py_repr exn_str World
    messages_create agent.
Let ask :=
  ClaudeAgent.ask_service json_loads World messages_create agent.

Lemma analyze_without_client (source_code : str) (error_message : json)
      (attempt : Z) (st : state World) :
  ClaudeAgent.client agent = false ->
  analyze (JStr source_code) error_message attempt st
  = (st, Ok (ClaudeAgent.fix_result
               (ClaudeAgent.apply_rule_based_fixes unicode_alnum source_code
                  error_message)
               (lit "Rule-based fix applied (no LLM available)")
               ClaudeAgent.confidence_without_client)).
Proof.
  intro H. unfold analyze, ClaudeAgent.analyze_and_fix. rewrite H. reflexivity.
Qed.

Lemma analyze_on_exception (source_code : str) (error_message : json)
      (attempt : Z) (st st1 : state World) (e : exn) :
  ClaudeAgent.client agent = true ->
  ask (ClaudeAgent.prompt_for py_repr (JStr source_code) error_message) st
  = (st1, Raise e) ->
  analyze (JStr source_code) error_message attempt st
  = (st1, Ok (ClaudeAgent.fix_result
                (ClaudeAgent.apply_rule_based_fixes unicode_alnum source_code
                   error_message)
                (lit "API error, used rule-based fix: " ++ exn_str e)
                ClaudeAgent.confidence_after_error)).
Proof.
  intros H E. unfold analyze, ClaudeAgent.analyze_and_fix. rewrite H.
  cbn [negb]. unfold try_except. fold ask. rewrite E. reflexivity.
Qed.

Lemma analyze_returns (source_code : str) (error_message : json)
      (attempt : Z) (st : state World) :
  exists result, snd (analyze (JStr source_code) error_message attempt st) = Ok result.
Proof.
  destruct (ClaudeAgent.client agent) eqn:H.
  - destruct (ask (ClaudeAgent.prompt_for py_repr (JStr source_code) error_message) st)
      as [st1 [v|e]] eqn:E.
    + exists v. unfold analyze, ClaudeAgent.analyze_and_fix. rewrite H.
      cbn [negb]. unfold try_except. fold ask. now rewrite E.
    + rewrite (analyze_on_exception _ _ _ _ _ _ H E). eexists; reflexivity.
  - rewrite (analyze_without_client _ _ _ _ H). eexists; reflexivity.
Qed.

End DelegatedFacts.

(** C5, as the claim states it, fails: the fixed source of a fallback can
    be empty.  On source [fn main() {}] the agent's rule-based fixer
    leaves nothing, both when there is no client and when the service
    call raises. *)
Lemma C5_fallback_can_return_empty_source :
  snd (ClaudeAgent.analyze_and_fix Demo.no_unicode_words Demo.loads Demo.repr
         Demo.exn_text nat Demo.service_down Demo.no_client
         (JStr (lit "fn main() {}")) (JStr (lit "expected item")) 1 Demo.start)
  = Ok (ClaudeAgent.fix_result []
          (lit "Rule-based fix applied (no LLM available)")
               ClaudeAgent.confidence_without_client)
  /\ snd (ClaudeAgent.analyze_and_fix Demo.no_unicode_words Demo.loads Demo.repr
            Demo.exn_text nat Demo.service_down Demo.with_client
            (JStr (lit "fn main() {}")) (JStr (lit "expected item")) 1 Demo.start)
     = Ok (ClaudeAgent.fix_result []
             (lit "API error, used rule-based fix: connection refused")
             ClaudeAgent.confidence_after_error).
Proof. split; reflexivity. Qed.

(** C5, amended.  For every source text, error and state, the Delegated
    Fix Engine returns a result and raises nothing; when it suffers an
    internal fault (no client is available, or the service call, the
    decoding or the reading of its response raises), the result is a
    FixResult whose fixed source is the output of the agent's own
    rule-based fixer on the source, with confidence 0.5 without a client
    and 0.3 after an exception, so at most 0.5.  (That fixed source may be
    empty.) *)
Theorem C5_faults_fall_back_to_rules
        (unicode_alnum : char -> bool) (json_loads : str -> res json)
        (py_repr : json -> str) (exn_str : exn -> str) (World : Type)
        (messages_create : World -> str -> str -> World * res (list str))
        (agent : ClaudeAgent.SimplicityFixAgent)
        (source_code : str) (error_message : json) (attempt : Z)
        (st : state World) :
  let run := ClaudeAgent.analyze_and_fix unicode_alnum json_loads py_repr exn_str
               World messages_create agent (JStr source_code) error_message
               attempt st in
  (exists result, snd run = Ok result)
  /\ (ClaudeAgent.client agent = false
      \/ (exists e,
            snd (ClaudeAgent.ask_service json_loads World messages_create agent
                   (ClaudeAgent.prompt_for py_repr (JStr source_code) error_message)
                   st) = Raise e) ->
      exists explanation confidence,
        snd run
        = Ok (ClaudeAgent.fix_result
                (ClaudeAgent.apply_rule_based_fixes unicode_alnum source_code
                   error_message)
                explanation confidence)
        /\ (confidence <= 1 # 2)%Q).
Proof.
  cbv zeta. split; [apply analyze_returns|].
  destruct (ClaudeAgent.client agent) eqn:Hc.
  - intros [H|[e H]]; [discriminate|].
    destruct (ClaudeAgent.ask_service json_loads World messages_create agent
                (ClaudeAgent.prompt_for py_repr (JStr source_code) error_message) st)
      as [st1 r] eqn:E.
    simpl in H; subst r.
    rewrite (analyze_on_exception unicode_alnum json_loads py_repr exn_str World
               messages_create agent _ _ attempt _ _ _ Hc E).
    do 2 eexists; split; [reflexivity|]. vm_compute; discriminate.
  - intros _.
    rewrite (analyze_without_client unicode_alnum json_loads py_repr exn_str World
               messages_create agent _ _ attempt st Hc).
    do 2 eexists; split; [reflexivity|]. vm_compute; discriminate.
Qed.

Lemma C5_service_down_witness :
  let run := ClaudeAgent.analyze_and_fix Demo.no_unicode_words Demo.loads Demo.repr
               Demo.exn_text nat Demo.service_down Demo.with_client
               (JStr (lit "assert!(a);")) (JStr (lit "unknown macro")) 1
               Demo.start in
  ClaudeAgent.client Demo.with_client = true
  /\ snd (ClaudeAgent.ask_service Demo.loads nat Demo.service_down Demo.with_client
            (ClaudeAgent.prompt_for Demo.repr (JStr (lit "assert!(a);"))
               (JStr (lit "unknown macro"))) Demo.start)
     = Raise (ExternalError (lit "connection refused"))
  /\ exists explanation confidence,
       snd run = Ok (ClaudeAgent.fix_result (lit "jet::verify(a);") explanation
                       confidence)
       /\ (confidence <= 1 # 2)%Q.
Proof.
  cbv zeta. split; [reflexivity|]. split; [reflexivity|].
  destruct (C5_faults_fall_back_to_rules Demo.no_unicode_words Demo.loads Demo.repr
              Demo.exn_text nat Demo.service_down Demo.with_client
              (lit "assert!(a);") (JStr (lit "unknown macro")) 1 Demo.start)
    as [_ H].
  apply H. right. eexists; reflexivity.
Defined.

(* ================================================================== *)
(** ** Where the controllers and the batch loops raise *)
(* ================================================================== *)

(* ================================================================== *)
(** ** When a retry run raises instead of reporting *)
(* ================================================================== *)

Section RaisingRuns.

Variable unicode_alnum : char -> bool.
Variable json_loads : str -> res json.
Variable py_repr : json -> str.
Variable exn_str : exn -> str.
Variable World : Type.
Variable call_tool : World -> json -> str -> World * res (list str).
Variable messages_create : World -> str -> str -> World * res (list str).
Variable agent : ClaudeAgent.SimplicityFixAgent.

(** A run of the [agent_autofix] loop that raises does so at its last
    submission: either the compile tool raised on it, or it failed and its
    canonical error is not text. *)
Lemma autofix_raise_is_at_last_submission (max_attempts : Z) (use_llm : bool)
      (witness_data : str) (attempts : list Z) :
  forall (current_code : str) (history : list Autofix.attempt_entry)
         (st : state World),
  exists new,
    trace (fst (Autofix.attempts_loop unicode_alnum json_loads World call_tool
                  max_attempts use_llm witness_data attempts current_code
                  history st)) = trace st ++ new
    /\ forall e,
         snd (Autofix.attempts_loop unicode_alnum json_loads World call_tool
                max_attempts use_llm witness_data attempts current_code
                history st) = Raise e ->
         exists before sub,
           submissions new = before ++ [sub]
           /\ (snd sub = Raise e
               \/ exists content,
                    snd sub = Ok content
                    /\ Autofix.succeeded (ascii_ignore (first_text content)) = false
                    /\ forall error_text,
                         Autofix.extract_error json_loads
                           (ascii_ignore (first_text content))
                         <> Ok (JStr error_text)).
Proof.
  induction attempts as [|attempt rest IH]; intros current_code history st.
  - exists []. split; [now rewrite app_nil_r|]. discriminate.
  - rewrite autofix_loop_unfold.
    destruct (call_tool (world st) (JStr current_code) witness_data)
      as [w1 reply] eqn:Ecall.
    set (ev := EvCompile (JStr current_code) witness_data reply).
    destruct reply as [content|e0]; cbv zeta.
    2:{ exists [ev]. split; [reflexivity|]. intros e E. injection E as <-.
        exists [], (JStr current_code, witness_data, Raise e0).
        split; [reflexivity|]. now left. }
    destruct (Autofix.succeeded (ascii_ignore (first_text content))) eqn:Esucc;
      [exists [ev]; split; [reflexivity|discriminate]|].
    assert (Hbad : forall e,
      (forall error_text,
         Autofix.extract_error json_loads (ascii_ignore (first_text content))
         <> Ok (JStr error_text)) ->
      exists before sub,
        submissions [ev] = before ++ [sub]
        /\ (snd sub = Raise e
            \/ exists content0,
                 snd sub = Ok content0
                 /\ Autofix.succeeded (ascii_ignore (first_text content0)) = false
                 /\ forall error_text,
                      Autofix.extract_error json_loads
                        (ascii_ignore (first_text content0))
                      <> Ok (JStr error_text))).
    { intros e Hne. exists [], (JStr current_code, witness_data, Ok content).
      split; [reflexivity|]. right. exists content. auto. }
    destruct (Autofix.extract_error json_loads (ascii_ignore (first_text content)))
      as [[| | | |error_text| |]|e0] eqn:Eerr;
      try (exists [ev]; split; [reflexivity|]; intros e _; apply Hbad;
           intros t; discriminate).
    destruct (max_attempts <=? attempt)%Z;
      [exists [ev]; split; [reflexivity|discriminate]|].
    match goal with
      |- context [Autofix.attempts_loop _ _ _ _ _ _ _ rest ?c ?h ?s] =>
        destruct (IH c h s) as (new & Htrace & Hraise)
    end.
    exists (ev :: new). split.
    + rewrite Htrace. cbn [trace]. now rewrite <- app_assoc.
    + intros e E. destruct (Hraise e E) as (before & sub & Hs & Hc).
      exists ((JStr current_code, witness_data, Ok content) :: before), sub.
      split; [|exact Hc].
      change (submissions (ev :: new))
        with ((JStr current_code, witness_data, Ok content) :: submissions new).
      now rewrite Hs.
Qed.

(** A run of the [agent_claude] loop that raises has either stopped
    before its budget was used, or raised at its last submission: the
    compile tool raised on it, or it failed and its canonical error has no
    excerpt. *)
Lemma claude_raise_is_early_or_at_last_submission (max_attempts : Z)
      (witness_data : str) (attempts : list Z) :
  forall (lo : Z) (current_code : json)
         (history : list ClaudeAgent.history_entry) (st : state World),
  attempts = py_range lo (max_attempts + 1) ->
  exists new,
    trace (fst (ClaudeAgent.attempts_loop unicode_alnum json_loads py_repr exn_str
                  World call_tool messages_create agent max_attempts
                  witness_data attempts current_code history st))
    = trace st ++ new
    /\ forall e,
         snd (ClaudeAgent.attempts_loop unicode_alnum json_loads py_repr exn_str
                World call_tool messages_create agent max_attempts witness_data
                attempts current_code history st) = Raise e ->
         length (submissions new) < length attempts
         \/ exists before sub,
              submissions new = before ++ [sub]
              /\ (snd sub = Raise e
                  \/ exists content,
                       snd sub = Ok content
                       /\ ClaudeAgent.succeeded (first_text content) = false
                       /\ forall error_msg error_excerpt,
                            claude_diagnose json_loads (first_text content)
                            <> Ok (error_msg, error_excerpt)).
Proof.
  induction attempts as [|attempt rest IH]; intros lo current_code history st Hrange.
  - exists []. split; [now rewrite app_nil_r|]. discriminate.
  - destruct (py_range_step _ _ _ _ (eq_sym Hrange)) as (Ha & Hlt & Hrest).
    rewrite claude_loop_unfold.
    destruct (call_tool (world st) current_code witness_data)
      as [w1 reply] eqn:Ecall.
    set (ev := EvCompile current_code witness_data reply).
    destruct reply as [content|e0]; cbv zeta.
    2:{ exists [ev]. split; [reflexivity|]. intros e E. injection E as <-.
        right. exists [], (current_code, witness_data, Raise e0).
        split; [reflexivity|]. now left. }
    destruct (ClaudeAgent.succeeded (first_text content)) eqn:Esucc;
      [exists [ev]; split; [reflexivity|discriminate]|].
    destruct (claude_diagnose json_loads (first_text content))
      as [[error_msg error_excerpt]|e0] eqn:Ediag.
    2:{ exists [ev]. split; [reflexivity|]. intros e _.
        right. exists [], (current_code, witness_data, Ok content).
        split; [reflexivity|]. right. exists content.
        split; [reflexivity|]. split; [exact Esucc|].
        intros m x. rewrite Ediag. discriminate. }
    destruct (max_attempts <=? attempt)%Z eqn:Elast;
      [exists [ev]; split; [reflexivity|discriminate]|].
    apply Z.leb_gt in Elast.
    assert (Hne : rest <> []).
    { rewrite Hrest, py_range_cons by lia. discriminate. }
    match goal with
      |- context [ClaudeAgent.analyze_and_fix ?a ?b ?c ?d ?e ?f ?g ?h ?i ?j ?s] =>
        destruct (analyze_trace a b c d e f g h i j s) as (asks & Hasks & Hnone);
        destruct (ClaudeAgent.analyze_and_fix a b c d e f g h i j s)
          as [st2 fixed]
    end.
    cbn [fst trace] in Hasks.
    destruct (res_bind fixed claude_next_code) as [fixed_code|e0].
    2:{ exists (ev :: asks). split.
        - cbn [fst]. rewrite Hasks. now rewrite <- app_assoc.
        - intros e _. left.
          change (ev :: asks) with ([ev] ++ asks).
          rewrite submissions_app, Hnone. cbn [submissions flat_map ev app length].
          destruct rest; [contradiction|simpl; lia]. }
    destruct (IH (lo + 1)%Z fixed_code
                (history ++ [ClaudeAgent.mkEntry attempt false (Some error_excerpt)
                               current_code]) st2 Hrest)
      as (new & Htrace & Hraise).
    exists (ev :: asks ++ new). split.
    + rewrite Htrace, Hasks. now rewrite <- !app_assoc.
    + assert (Es : submissions (ev :: asks ++ new)
                   = (current_code, witness_data, Ok content) :: submissions new).
      { change (ev :: asks ++ new) with ([ev] ++ asks ++ new).
        rewrite !submissions_app, Hnone. reflexivity. }
      rewrite Es. intros e E.
      destruct (Hraise e E) as [Hshort|(before & sub & Hs & Hc)].
      * left. cbn [length]. lia.
      * right. exists ((current_code, witness_data, Ok content) :: before), sub.
        split; [now rewrite Hs|exact Hc].
Qed.

Lemma last_snoc {A : Type} (before : list A) (x d : A) :
  last (before ++ [x]) d = x.
Proof. apply last_last. Qed.

Lemma nth_error_snoc {A : Type} (before : list A) (x : A) :
  nth_error (before ++ [x]) (length before) = Some x.
Proof. rewrite nth_error_app2 by lia. now rewrite Nat.sub_diag. Qed.

End RaisingRuns.

(** C2.  For every retry run of either controller with [maxAttempts >= 1]
    in which all [maxAttempts] compile submissions were made and each was
    answered with a failure whose canonical error is text, as the spec
    types it, the controller reports [succeeded = false], and the final
    source it reports is the source of the last submission: no repair is
    applied after the last attempt.  The history has one record for each
    of the [maxAttempts] submissions. *)
Theorem C2_exhausted_run_reports_last_submission
        (unicode_alnum : char -> bool) (json_loads : str -> res json)
        (py_repr : json -> str) (exn_str : exn -> str) (World : Type)
        (call_tool : World -> json -> str -> World * res (list str))
        (messages_create : World -> str -> str -> World * res (list str))
        (agent : ClaudeAgent.SimplicityFixAgent)
        (source_code witness_data : str) (max_attempts : Z) (use_llm : bool)
        (st : state World) :
  (1 <= max_attempts)%Z ->
  (let run := Autofix.compile_and_fix unicode_alnum json_loads World call_tool
                source_code witness_data max_attempts use_llm st in
   let subs := submissions (since st (fst run)) in
   length subs = Z.to_nat max_attempts ->
   (forall k sub, nth_error subs k = Some sub ->
      exists content error_text,
        snd sub = Ok content
        /\ Autofix.succeeded (ascii_ignore (first_text content)) = false
        /\ Autofix.extract_error json_loads (ascii_ignore (first_text content))
           = Ok (JStr error_text)) ->
   exists final history,
     snd run = Ok (false, final, history)
     /\ fst (fst (last subs (JNull, [], Raise KeyError))) = JStr final
     /\ length history = Z.to_nat max_attempts)
  /\
  (let run := ClaudeAgent.compile_with_retries unicode_alnum json_loads py_repr
                exn_str World call_tool messages_create agent source_code
                witness_data max_attempts st in
   let subs := submissions (since st (fst run)) in
   length subs = Z.to_nat max_attempts ->
   (forall k sub, nth_error subs k = Some sub ->
      exists content error_text,
        snd sub = Ok content
        /\ ClaudeAgent.succeeded (first_text content) = false
        /\ ClaudeAgent.extract_error json_loads (first_text content)
           = Ok (JStr error_text)) ->
   exists final history,
     snd run = Ok (false, final, history)
     /\ fst (fst (last subs (JNull, [], Raise KeyError))) = final
     /\ length history = Z.to_nat max_attempts).
Proof.
  intro Hmax.
  assert (Hlen : length (py_range 1 (max_attempts + 1)) = Z.to_nat max_attempts).
  { rewrite py_range_length. f_equal; lia. }
  assert (Hne : py_range 1 (max_attempts + 1) <> []).
  { rewrite py_range_cons by lia. discriminate. }
  split; cbv zeta.
  - pose proof (autofix_run_spec unicode_alnum json_loads World call_tool
                  source_code witness_data max_attempts use_llm st) as Hspec.
    cbv zeta in Hspec.
    destruct Hspec as (Htr & _ & _ & Hh & _ & Hok & Hfail).
    destruct (autofix_raise_is_at_last_submission unicode_alnum json_loads World
                call_tool max_attempts use_llm witness_data
                (py_range 1 (max_attempts + 1)) source_code [] st)
      as (new & Htrace & Hraise).
    fold (Autofix.compile_and_fix unicode_alnum json_loads World call_tool
            source_code witness_data max_attempts use_llm) in Htrace, Hraise.
    rewrite (since_app _ _ _ Htrace) in *.
    intros Hall Hfailed.
    destruct (snd (Autofix.compile_and_fix unicode_alnum json_loads World call_tool
                     source_code witness_data max_attempts use_llm st))
      as [[[ok final] history]|e] eqn:Erun.
    + destruct ok.
      * destruct (Hok final history eq_refl) as (sub & Hl & Hn & Hs & _).
        destruct (exists_last Hn) as (before & sub' & Eb).
        rewrite Eb, last_snoc in Hl. subst sub'.
        destruct (Hfailed (length before) sub) as (content & t & Hc & Hm & _).
        { rewrite Eb. apply nth_error_snoc. }
        destruct sub as [[s w] r]. simpl in Hc; subst r. simpl in Hs. congruence.
      * exists final, history. split; [reflexivity|].
        destruct (Hfail 1%Z final history eq_refl Hne eq_refl) as (_ & Hlast).
        split; [exact Hlast|].
        rewrite (Hh _ _ _ eq_refl). simpl. exact Hall.
    + exfalso. destruct (Hraise e eq_refl) as (before & sub & Eb & Hc).
      destruct (Hfailed (length before) sub) as (content & t & Hr & Hm & He).
      { rewrite Eb. apply nth_error_snoc. }
      destruct Hc as [Hc|(content' & Hr' & _ & Hno)]; [congruence|].
      rewrite Hr in Hr'. injection Hr' as <-. exact (Hno t He).
  - pose proof (claude_run_spec unicode_alnum json_loads py_repr exn_str World
                  call_tool messages_create agent source_code witness_data
                  max_attempts st) as Hspec.
    cbv zeta in Hspec.
    destruct Hspec as (Htr & _ & _ & Hh & _ & Hok & Hfail).
    destruct (claude_raise_is_early_or_at_last_submission unicode_alnum json_loads
                py_repr exn_str World call_tool messages_create agent
                max_attempts witness_data (py_range 1 (max_attempts + 1)) 1%Z
                (JStr source_code) [] st eq_refl)
      as (new & Htrace & Hraise).
    fold (ClaudeAgent.compile_with_retries unicode_alnum json_loads py_repr exn_str
            World call_tool messages_create agent source_code witness_data
            max_attempts) in Htrace, Hraise.
    rewrite (since_app _ _ _ Htrace) in *.
    intros Hall Hfailed.
    destruct (snd (ClaudeAgent.compile_with_retries unicode_alnum json_loads py_repr
                     exn_str World call_tool messages_create agent source_code
                     witness_data max_attempts st))
      as [[[ok final] history]|e] eqn:Erun.
    + destruct ok.
      * destruct (Hok final history eq_refl) as (sub & Hl & Hn & Hs & _).
        destruct (exists_last Hn) as (before & sub' & Eb).
        rewrite Eb, last_snoc in Hl. subst sub'.
        destruct (Hfailed (length before) sub) as (content & t & Hc & Hm & _).
        { rewrite Eb. apply nth_error_snoc. }
        destruct sub as [[s w] r]. simpl in Hc; subst r. simpl in Hs. congruence.
      * exists final, history. split; [reflexivity|].
        destruct (Hfail 1%Z final history eq_refl Hne eq_refl) as (_ & Hlast).
        split; [exact Hlast|].
        rewrite (Hh _ _ _ eq_refl). simpl. exact Hall.
    + exfalso. destruct (Hraise e eq_refl) as [Hshort|(before & sub & Eb & Hc)];
        [rewrite Hlen in Hshort; lia|].
      destruct (Hfailed (length before) sub) as (content & t & Hr & Hm & He).
      { rewrite Eb. apply nth_error_snoc. }
      destruct Hc as [Hc|(content' & Hr' & _ & Hno)]; [congruence|].
      rewrite Hr in Hr'. injection Hr' as <-.
      apply (Hno (JStr t) (JStr (firstn 200 t))).
      unfold claude_diagnose. rewrite He. reflexivity.
Qed.

(** Scenario C of the spec for both controllers: the compiler rejects
    every submission, with a budget of 2 attempts. *)
Lemma C2_exhausted_run_witness :
  let run := ClaudeAgent.compile_with_retries Demo.no_unicode_words Demo.loads
               Demo.repr Demo.exn_text nat Demo.always_fails Demo.service_down
               Demo.no_client (lit "assert!(a);") [] 2 Demo.start in
  let subs := submissions (since Demo.start (fst run)) in
  (1 <= 2)%Z
  /\ length subs = Z.to_nat 2
  /\ exists final history,
       snd run = Ok (false, final, history)
       /\ fst (fst (last subs (JNull, [], Raise KeyError))) = final
       /\ length history = Z.to_nat 2.
Proof.
  cbv zeta. split; [lia|]. split; [reflexivity|].
  apply (C2_exhausted_run_reports_last_submission Demo.no_unicode_words Demo.loads
           Demo.repr Demo.exn_text nat Demo.always_fails Demo.service_down
           Demo.no_client (lit "assert!(a);") [] 2 false Demo.start);
    [lia|reflexivity|].
  intros [|[|k]] sub Hk.
  - injection Hk as <-. exists [lit "error: expected item"], (lit "error: expected item").
    repeat split.
  - injection Hk as <-. exists [lit "error: expected item"], (lit "error: expected item").
    repeat split.
  - destruct k; discriminate.
Defined.

(** Why the canonical errors are required to be text.  With a budget of
    one attempt, let the tool answer [{"result_json": {"message": null}}]
    and the decoder decode it.  The single submission fails and the
    extraction takes [None] out of the payload as the canonical error.  [agent_autofix] then evaluates
    [error_msg.encode(..)] (line 144) and [agent_claude] evaluates
    [error_msg[:250]] (line 211), both before the test for the last
    attempt: the run raises and reports neither [succeeded = false] nor a
    final source. *)
Remark null_message_aborts_the_last_attempt :
  let reply := [Ok [Demo.null_message_text]] in
  let run1 := Autofix.compile_and_fix Demo.no_unicode_words Demo.loads nat
                (Demo.scripted reply) (lit "1 + 1") [] 1 false Demo.start in
  let run2 := ClaudeAgent.compile_with_retries Demo.no_unicode_words Demo.loads
                Demo.repr Demo.exn_text nat (Demo.scripted reply)
                Demo.service_down Demo.no_client (lit "1 + 1") [] 1 Demo.start in
  submissions (since Demo.start (fst run1))
  = [(JStr (lit "1 + 1"), [], Ok [Demo.null_message_text])]
  /\ Autofix.succeeded (ascii_ignore Demo.null_message_text) = false
  /\ Autofix.extract_error Demo.loads (ascii_ignore Demo.null_message_text) = Ok JNull
  /\ snd run1 = Raise AttributeError
  /\ submissions (since Demo.start (fst run2))
     = [(JStr (lit "1 + 1"), [], Ok [Demo.null_message_text])]
  /\ ClaudeAgent.succeeded Demo.null_message_text = false
  /\ ClaudeAgent.extract_error Demo.loads Demo.null_message_text = Ok JNull
  /\ snd run2 = Raise TypeError.
Proof. cbv zeta. repeat split; reflexivity. Qed.

(** C6 at a failing input.  Let the first compile call of the batch raise
    (the connection to the server breaks) and every later call succeed.
    Both [main] loops let the exception through: the batch ends with it
    after the first case, no result is recorded and the other three
    files are never read.  The loop of [test_examples.py], whose compile
    call sits in a [try], records the first case as failed and goes on
    through all four. *)
Theorem C6_exception_in_a_case_aborts_the_batch :
  let broken := Demo.scripted [Raise (ExternalError (lit "connection closed"))] in
  let run1 := Autofix.main Demo.no_unicode_words Demo.loads nat broken
                Demo.read_text Demo.path_exists Demo.write_text Demo.fixed_path
                5 false Demo.start in
  let run2 := ClaudeAgent.main Demo.no_unicode_words Demo.loads Demo.repr
                Demo.exn_text nat broken Demo.service_down Demo.read_text
                Demo.write_text Demo.fixed_path Demo.no_client 5 Demo.start in
  let run3 := TestExamples.main nat broken Demo.read_text Demo.path_exists
                Demo.start in
  let first_case :=
    [ EvRead (lit "examples/arithmetic.simf") (Ok (lit "1 + 1"));
      EvRead (lit "examples/arithmetic.wit") (Ok (lit "1 + 1"));
      EvCompile (JStr (lit "1 + 1")) (lit "1 + 1")
        (Raise (ExternalError (lit "connection closed"))) ] in
  snd run1 = Raise (ExternalError (lit "connection closed"))
  /\ trace (fst run1) = first_case
  /\ snd run2 = Raise (ExternalError (lit "connection closed"))
  /\ trace (fst run2) = first_case
  /\ snd run3 = Ok 1%Z
  /\ length (submissions (trace (fst run3))) = 4
  /\ snd (TestExamples.run_examples nat broken Demo.read_text Demo.path_exists
            Autofix.test_files [] Demo.start)
     = Ok [ (lit "Arithmetic", false); (lit "Scoping", true);
            (lit "Witness Equality", true); (lit "Witness Computation", true) ].
Proof. cbv zeta. repeat split; vm_compute; reflexivity. Qed.

(* ================================================================== *)
(** ** Further properties of the retry controllers *)
(* ================================================================== *)

(** X1.  Whenever a retry run of either controller, with
    [maxAttempts >= 1], reports failure, it has made exactly [maxAttempts] submissions, none
    of them was answered with the success marker, and the final source it
    reports is the source of the last submission: no repair follows the
    last attempt. *)
Theorem reported_failure_returns_last_submission
        (unicode_alnum : char -> bool) (json_loads : str -> res json)
        (py_repr : json -> str) (exn_str : exn -> str) (World : Type)
        (call_tool : World -> json -> str -> World * res (list str))
        (messages_create : World -> str -> str -> World * res (list str))
        (agent : ClaudeAgent.SimplicityFixAgent)
        (source_code witness_data : str) (max_attempts : Z) (use_llm : bool)
        (st : state World) :
  (1 <= max_attempts)%Z ->
  (let run := Autofix.compile_and_fix unicode_alnum json_loads World call_tool
                source_code witness_data max_attempts use_llm st in
   let subs := submissions (since st (fst run)) in
   forall final history,
     snd run = Ok (false, final, history) ->
     length subs = Z.to_nat max_attempts
     /\ fst (fst (last subs (JNull, [], Raise KeyError))) = JStr final
     /\ forallb (answered_by Autofix.succeeded ascii_ignore) subs = false
     /\ (forall k sub, nth_error subs k = Some sub ->
                       answered_by Autofix.succeeded ascii_ignore sub = false))
  /\
  (let run := ClaudeAgent.compile_with_retries unicode_alnum json_loads py_repr
                exn_str World call_tool messages_create agent source_code
                witness_data max_attempts st in
   let subs := submissions (since st (fst run)) in
   forall final history,
     snd run = Ok (false, final, history) ->
     length subs = Z.to_nat max_attempts
     /\ fst (fst (last subs (JNull, [], Raise KeyError))) = final
     /\ (forall k sub, nth_error subs k = Some sub ->
                       answered_by ClaudeAgent.succeeded (fun text => text) sub
                       = false)).
Proof.
  intro Hmax.
  assert (Hlen : length (py_range 1 (max_attempts + 1)) = Z.to_nat max_attempts).
  { rewrite py_range_length. f_equal; lia. }
  assert (Hne : py_range 1 (max_attempts + 1) <> []).
  { rewrite py_range_cons by lia. discriminate. }
  split; cbv zeta.
  - destruct (autofix_run_spec unicode_alnum json_loads World call_tool
                source_code witness_data max_attempts use_llm st)
      as (_ & _ & Hge & _ & Hok & _ & Hfail).
    intros final history E.
    destruct (Hfail 1%Z final history eq_refl Hne E) as (Hn & Hlast).
    assert (Hnone : forall k sub,
      nth_error (submissions
                   (since st (fst (Autofix.compile_and_fix unicode_alnum json_loads
                                     World call_tool source_code witness_data
                                     max_attempts use_llm st)))) k = Some sub ->
      answered_by Autofix.succeeded ascii_ignore sub = false).
    { intros k sub Hk.
      destruct (answered_by Autofix.succeeded ascii_ignore sub) eqn:Ha;
        [|reflexivity].
      destruct (Hok k sub Hk Ha) as (_ & f & h & _ & E'). congruence. }
    split; [now rewrite Hn|]. split; [exact Hlast|]. split; [|exact Hnone].
    specialize (Hge Hne).
    destruct (submissions _) as [|sub subs] eqn:Es; [simpl in Hge; lia|].
    cbn [forallb]. now rewrite (Hnone 0 sub eq_refl).
  - destruct (claude_run_spec unicode_alnum json_loads py_repr exn_str World
                call_tool messages_create agent source_code witness_data
                max_attempts st)
      as (_ & _ & _ & _ & Hok & _ & Hfail).
    intros final history E.
    destruct (Hfail 1%Z final history eq_refl Hne E) as (Hn & Hlast).
    split; [now rewrite Hn|]. split; [exact Hlast|].
    intros k sub Hk.
    destruct (answered_by ClaudeAgent.succeeded (fun text => text) sub) eqn:Ha;
      [|reflexivity].
    destruct (Hok k sub Hk Ha) as (_ & h & E'). congruence.
Qed.

Lemma reported_failure_witness :
  let run := ClaudeAgent.compile_with_retries Demo.no_unicode_words
               Demo.loads_nothing Demo.repr Demo.exn_text nat Demo.always_fails
               Demo.service_down Demo.no_client (lit "assert!(a);") [] 2
               Demo.start in
  (1 <= 2)%Z
  /\ (exists history, snd run = Ok (false, JStr (lit "jet::verify(a);"), history))
  /\ length (submissions (since Demo.start (fst run))) = 2
  /\ fst (fst (last (submissions (since Demo.start (fst run)))
                 (JNull, [], Raise KeyError)))
     = JStr (lit "jet::verify(a);").
Proof.
  cbv zeta. split; [lia|]. split; [eexists; reflexivity|].
  destruct (reported_failure_returns_last_submission Demo.no_unicode_words
              Demo.loads_nothing Demo.repr Demo.exn_text nat Demo.always_fails
              Demo.service_down Demo.no_client (lit "assert!(a);") [] 2 false
              Demo.start) as [_ H]; [lia|].
  cbv zeta in H.
  destruct (H (JStr (lit "jet::verify(a);")) _ eq_refl) as (H1 & H2 & _).
  split; [exact H1|exact H2].
Defined.

(** X2.  A run of [compile_and_fix] returns a report, and raises nothing,
    when the compile tool answered each submission the run made and each
    of these answers either carries the success marker or has a canonical
    error that is text. *)
Theorem autofix_run_reports_when_diagnostics_are_text
        (unicode_alnum : char -> bool) (json_loads : str -> res json)
        (World : Type)
        (call_tool : World -> json -> str -> World * res (list str))
        (source_code witness_data : str) (max_attempts : Z) (use_llm : bool)
        (st : state World) :
  let run := Autofix.compile_and_fix unicode_alnum json_loads World call_tool
               source_code witness_data max_attempts use_llm st in
  (forall k sub, nth_error (submissions (since st (fst run))) k = Some sub ->
     exists content,
       snd sub = Ok content
       /\ (Autofix.succeeded (ascii_ignore (first_text content)) = true
           \/ exists error_text,
                Autofix.extract_error json_loads (ascii_ignore (first_text content))
                = Ok (JStr error_text))) ->
  exists ok final history, snd run = Ok (ok, final, history).
Proof.
  cbv zeta.
  destruct (autofix_raise_is_at_last_submission unicode_alnum json_loads World
              call_tool max_attempts use_llm witness_data
              (py_range 1 (max_attempts + 1)) source_code [] st)
    as (new & Htrace & Hraise).
  fold (Autofix.compile_and_fix unicode_alnum json_loads World call_tool
          source_code witness_data max_attempts use_llm) in Htrace, Hraise.
  rewrite (since_app _ _ _ Htrace). intro Hgood.
  destruct (snd (Autofix.compile_and_fix unicode_alnum json_loads World call_tool
                   source_code witness_data max_attempts use_llm st))
    as [[[ok final] history]|e] eqn:Erun; [eauto|].
  exfalso. destruct (Hraise e eq_refl) as (before & sub & Eb & Hc).
  destruct (Hgood (length before) sub) as (content & Hr & Hgood').
  { rewrite Eb. apply nth_error_snoc. }
  destruct Hc as [Hc|(content' & Hr' & Hm & Hno)]; [congruence|].
  rewrite Hr in Hr'. injection Hr' as <-.
  destruct Hgood' as [Hs|[t Ht]]; [congruence|exact (Hno t Ht)].
Qed.

Lemma autofix_run_reports_witness :
  exists ok final history,
    snd (Autofix.compile_and_fix Demo.no_unicode_words Demo.loads nat
           Demo.always_fails (lit "1 + 1") [] 3 false Demo.start)
    = Ok (ok, final, history).
Proof.
  apply (autofix_run_reports_when_diagnostics_are_text Demo.no_unicode_words
           Demo.loads nat Demo.always_fails (lit "1 + 1") [] 3 false Demo.start).
  intros [|[|[|k]]] sub Hk; try (destruct k; discriminate);
    injection Hk as <-; exists [lit "error: expected item"];
    (split; [reflexivity|]); right; exists (lit "error: expected item");
    reflexivity.
Defined.

(* ================================================================== *)
(** ** More facts about strings, lines and the matcher *)
(* ================================================================== *)

Section MoreStringFacts.

Lemma startswith_app_l (p a w : str) :
  startswith p a = true -> startswith p (a ++ w) = true.
Proof.
  revert a; induction p as [|c p IH]; intros [|d a]; simpl; try easy.
  intro H; apply andb_true_iff in H as [-> H]; simpl; auto.
Qed.

Lemma contains_nil (s : str) : contains [] s = true.
Proof. destruct s; reflexivity. Qed.

Lemma contains_app_l (p a w : str) :
  contains p a = true -> contains p (a ++ w) = true.
Proof.
  induction a as [|d a IH]; simpl; intro H.
  - destruct p; [apply contains_nil|discriminate].
  - apply orb_true_iff in H as [H|H].
    + apply (startswith_app_l _ _ w) in H. simpl in H. now rewrite H.
    + rewrite (IH H); apply orb_true_r.
Qed.

Lemma contains_app_r (p a w : str) :
  contains p w = true -> contains p (a ++ w) = true.
Proof.
  intro H; induction a as [|d a IH]; simpl; [exact H|].
  rewrite IH; apply orb_true_r.
Qed.

(** A pattern that does not end in [c] has the same occurrences in [u]
    and in [u] followed by [c]. *)
Lemma startswith_snoc (p' : str) (d c : char) (u : str) :
  N.eqb d c = false ->
  startswith (p' ++ [d]) (u ++ [c]) = startswith (p' ++ [d]) u.
Proof.
  intro Hd; revert u; induction p' as [|x p' IH]; intros [|y u]; simpl.
  - now rewrite Hd.
  - reflexivity.
  - destruct (N.eqb x c); [|reflexivity]. destruct p'; reflexivity.
  - now rewrite IH.
Qed.

Lemma contains_snoc (p' : str) (d c : char) (u : str) :
  N.eqb d c = false ->
  contains (p' ++ [d]) (u ++ [c]) = contains (p' ++ [d]) u.
Proof.
  intro Hd; induction u as [|y u IH].
  - pose proof (startswith_snoc p' d c [] Hd) as H. simpl in *. rewrite H.
    now destruct (startswith (p' ++ [d]) []).
  - pose proof (startswith_snoc p' d c (y :: u) Hd) as H. simpl in *.
    now rewrite H, IH.
Qed.

Lemma lstrip_suffix (s : str) : exists a, s = a ++ lstrip s.
Proof.
  induction s as [|c s [a IH]]; simpl.
  - exists []; reflexivity.
  - destruct (is_space c).
    + exists (c :: a); simpl; now rewrite <- IH.
    + exists []; reflexivity.
Qed.

Lemma rstrip_prefix_of (s : str) : exists w, s = rstrip s ++ w.
Proof.
  induction s as [|c s [w IH]]; simpl.
  - exists []; reflexivity.
  - destruct (rstrip s) as [|e r] eqn:E.
    + destruct (is_space c).
      * exists (c :: s); reflexivity.
      * exists s; reflexivity.
    + exists w. simpl. f_equal. exact IH.
Qed.

(** [strip] keeps a contiguous part of the text. *)
Lemma strip_substring (s : str) : exists a w, s = a ++ strip s ++ w.
Proof.
  destruct (lstrip_suffix s) as [a Ha].
  destruct (rstrip_prefix_of (lstrip s)) as [w Hw].
  exists a, w. unfold strip. now rewrite <- Hw.
Qed.

Lemma contains_strip (p s : str) :
  contains p (strip s) = true -> contains p s = true.
Proof.
  intro H. destruct (strip_substring s) as (a & w & E). rewrite E.
  apply contains_app_r, contains_app_l, H.
Qed.

Lemma rstrip_snoc_space (u : str) (c : char) :
  is_space c = true -> rstrip (u ++ [c]) = rstrip u.
Proof.
  intro Hc; induction u as [|d u IH]; simpl.
  - now rewrite Hc.
  - now rewrite IH.
Qed.

Lemma rstrip_idem (u : str) : rstrip (rstrip u) = rstrip u.
Proof.
  induction u as [|d u IH]; [reflexivity|]. simpl.
  destruct (rstrip u) as [|e r] eqn:E.
  - destruct (is_space d) eqn:Ed; simpl; [reflexivity|now rewrite Ed].
  - change (rstrip (d :: e :: r)) with
      (match rstrip (e :: r) with
       | [] => if is_space d then [] else [d]
       | x :: t => d :: x :: t
       end).
    now rewrite IH.
Qed.

(** Stripping a stripped text followed by a newline gives the stripped
    text back. *)
Lemma strip_strip_nl (s : str) : strip (strip s ++ [nl]) = strip s.
Proof.
  destruct (strip s) as [|c u] eqn:E; [reflexivity|].
  pose proof (strip_head _ _ _ E) as Hc.
  unfold strip at 1.
  change ((c :: u) ++ [nl]) with (c :: (u ++ [nl])).
  rewrite lstrip_nonspace by exact Hc.
  change (c :: (u ++ [nl])) with ((c :: u) ++ [nl]).
  rewrite rstrip_snoc_space by reflexivity.
  rewrite <- E. unfold strip. apply rstrip_idem.
Qed.

(** *** Lines: [split] and [join] are inverse to each other *)


Lemma split_on_lines (s : str) : Forall (fun l => no_newline l = true) (split_on nl s).
Proof.
  induction s as [|c s IH]; simpl.
  - repeat constructor.
  - destruct (N.eqb c nl) eqn:E.
    + constructor; [reflexivity|exact IH].
    + destruct (split_on nl s) as [|l ls]; [repeat constructor; simpl; now rewrite E|].
      inversion IH as [|? ? Hl Hls]; subst.
      constructor; [simpl; now rewrite E, Hl|exact Hls].
Qed.

Lemma join_split (s : str) : join [nl] (split_on nl s) = s.
Proof.
  induction s as [|c s IH]; [reflexivity|]. simpl.
  destruct (N.eqb c nl) eqn:E.
  - apply N.eqb_eq in E; subst c.
    destruct (split_on nl s) as [|l ls] eqn:Es.
    + now destruct (split_on_nonempty nl s).
    + cbn [join app]. now rewrite <- IH.
  - destruct (split_on nl s) as [|l ls] eqn:Es.
    + now destruct (split_on_nonempty nl s).
    + rewrite <- IH. cbn [join]. destruct ls; reflexivity.
Qed.

Lemma split_one_line (l : str) : no_newline l = true -> split_on nl l = [l].
Proof.
  induction l as [|c l IH]; [reflexivity|]. simpl.
  intro H; apply andb_true_iff in H as [Hc Hl].
  apply negb_true_iff in Hc. now rewrite Hc, (IH Hl).
Qed.

Lemma split_join (ls : list str) :
  ls <> [] -> Forall (fun l => no_newline l = true) ls ->
  split_on nl (join [nl] ls) = ls.
Proof.
  induction ls as [|l ls IH]; [contradiction|]. intros _ H.
  inversion H as [|? ? Hl Hls]; subst.
  destruct ls as [|l' ls].
  - simpl. apply split_one_line, Hl.
  - change (join [nl] (l :: l' :: ls)) with (l ++ [nl] ++ join [nl] (l' :: ls)).
    assert (E : split_on nl ([nl] ++ join [nl] (l' :: ls))
                = [] :: split_on nl (join [nl] (l' :: ls))) by reflexivity.
    rewrite (split_on_prefix l _ _ _ Hl E), app_nil_r.
    f_equal. apply IH; [discriminate|exact Hls].
Qed.

End MoreStringFacts.

Section MatcherFacts.

Context {R : Type}.

Lemma drop_prefix_app (l x : str) : drop_prefix l (l ++ x) = Some x.
Proof. induction l as [|c l IH]; simpl; [reflexivity|]. now rewrite N.eqb_refl. Qed.

Lemma drop_prefix_some (l s s' : str) : drop_prefix l s = Some s' -> s = l ++ s'.
Proof.
  revert s; induction l as [|c l IH]; intros [|d s]; simpl; try congruence.
  destruct (N.eqb c d) eqn:E; [|discriminate].
  apply N.eqb_eq in E; subst d. intro H. now rewrite (IH _ H).
Qed.

Lemma cat_match (r1 r2 : regex) (caps : captures) (s : str)
      (k : captures -> str -> option R) :
  rmatch (Cat r1 r2) caps s k
  = rmatch r1 caps s (fun caps' s' => rmatch r2 caps' s' k).
Proof. reflexivity. Qed.

Lemma eps_match (caps : captures) (s : str) (k : captures -> str -> option R) :
  rmatch Eps caps s k = k caps s.
Proof. reflexivity. Qed.

Lemma grp_match (n : nat) (r1 : regex) (caps : captures) (s : str)
      (k : captures -> str -> option R) :
  rmatch (Grp n r1) caps s k
  = rmatch r1 caps s
      (fun caps' s' => k ((n, firstn (length s - length s') s) :: caps') s').
Proof. reflexivity. Qed.

Lemma lit_match (l : str) (caps : captures) (rest : str)
      (k : captures -> str -> option R) :
  rmatch (Lit l) caps (l ++ rest) k = k caps rest.
Proof. simpl. now rewrite drop_prefix_app. Qed.

(** A greedy run takes all of [x] when the run must stop after it and
    the rest of the pattern matches there. *)
Lemma star_greedy (p : char -> bool) (k : str -> option R) (x rest : str) (r : R) :
  forallb p x = true -> stops p rest -> k rest = Some r ->
  star p k (x ++ rest) = Some r.
Proof.
  intros Hx Hstop Hk; induction x as [|c x IH]; simpl.
  - destruct rest as [|d rest]; simpl; [exact Hk|]. simpl in Hstop. now rewrite Hstop.
  - simpl in Hx. apply andb_true_iff in Hx as [Hc Hx]. now rewrite Hc, (IH Hx).
Qed.

Lemma star_match (p : char -> bool) (caps : captures) (x rest : str)
      (k : captures -> str -> option R) (r : R) :
  forallb p x = true -> stops p rest -> k caps rest = Some r ->
  rmatch (Star p) caps (x ++ rest) k = Some r.
Proof. intros; simpl; now apply star_greedy. Qed.

Lemma plus_match (p : char -> bool) (caps : captures) (x rest : str)
      (k : captures -> str -> option R) (r : R) :
  x <> [] -> forallb p x = true -> stops p rest -> k caps rest = Some r ->
  rmatch (Plus p) caps (x ++ rest) k = Some r.
Proof.
  intros Hne Hx Hstop Hk. destruct x as [|c x]; [contradiction|].
  simpl in Hx. apply andb_true_iff in Hx as [Hc Hx].
  simpl. rewrite Hc. now apply star_greedy.
Qed.

(** The greedy [.*] gives back as little as it can: what follows it
    matches at the last place where it can. *)
Lemma star_any_extend (k : str -> option R) (a s : str) (r : R) :
  star any_char k s = Some r -> star any_char k (a ++ s) = Some r.
Proof. intro H; induction a as [|c a IH]; simpl; [exact H|now rewrite IH]. Qed.

Lemma star_any_last (caps : captures) (k : captures -> str -> option R)
      (a s : str) (r : R) :
  s <> [] -> star any_char (k caps) (tl s) = None -> k caps s = Some r ->
  rmatch (Star any_char) caps (a ++ s) k = Some r.
Proof.
  intros Hne Hnone Hk. simpl. apply star_any_extend.
  destruct s as [|c s]; [contradiction|]. simpl in *. now rewrite Hnone.
Qed.

(** *** A pattern with a literal matches only where the literal occurs *)

Variable P : str -> Prop.
Hypothesis P_tail : forall c s, P (c :: s) -> P s.

Lemma P_suffix (a s : str) : P (a ++ s) -> P s.
Proof. induction a as [|c a IH]; simpl; eauto. Qed.

Lemma star_none (p : char -> bool) (k : str -> option R) (s : str) :
  P s -> (forall s', P s' -> k s' = None) -> star p k s = None.
Proof.
  intros Hs Hk; induction s as [|c s IH]; simpl; [auto|].
  destruct (p c); [|auto]. rewrite (IH (P_tail _ _ Hs)). auto.
Qed.

Lemma rmatch_none (r : regex) :
  forall (caps : captures) (s : str) (k : captures -> str -> option R),
    P s -> (forall caps' s', P s' -> k caps' s' = None) ->
    rmatch r caps s k = None.
Proof.
  induction r as [|l|p|p|r1 IH1 r2 IH2|n r1 IH1]; intros caps s k Hs Hk; simpl.
  - auto.
  - destruct (drop_prefix l s) as [s'|] eqn:E; [|reflexivity].
    apply drop_prefix_some in E; subst s. eauto using P_suffix.
  - apply star_none; auto.
  - destruct s as [|c s]; [reflexivity|].
    destruct (p c); [|reflexivity]. apply star_none; eauto.
  - apply IH1; [exact Hs|]. intros caps' s' Hs'. now apply IH2.
  - apply IH1; [exact Hs|]. intros caps' s' Hs'. now apply Hk.
Qed.

Lemma cat_all_none (l : str) (rs : list regex) :
  In (Lit l) rs -> (forall s, P s -> drop_prefix l s = None) ->
  forall (caps : captures) (s : str) (k : captures -> str -> option R),
    P s -> rmatch (cat_all rs) caps s k = None.
Proof.
  intros Hin Hl; induction rs as [|r rs IH]; [contradiction|].
  intros caps s k Hs. cbn [cat_all fold_right]. rewrite cat_match.
  destruct Hin as [->|Hin].
  - simpl. now rewrite (Hl s Hs).
  - apply rmatch_none; [exact Hs|]. intros caps' s' Hs'. now apply IH.
Qed.

End MatcherFacts.

Section SubstitutionFacts.

Lemma contains_startswith (l s : str) :
  contains l s = false -> startswith l s = false.
Proof. destruct s; simpl; [auto|]. intro H; now apply orb_false_iff in H. Qed.

Lemma match_here_needs_literal (l : str) (rs : list regex) (s : str) :
  In (Lit l) rs -> contains l s = false -> match_here (cat_all rs) s = None.
Proof.
  intros Hin Hs. unfold match_here.
  apply (cat_all_none (fun s => contains l s = false) (contains_tail l) l rs Hin);
    [|exact Hs].
  intros s' Hs'. apply drop_prefix_startswith, contains_startswith, Hs'.
Qed.

(** A substitution changes nothing in a text where a literal of the
    pattern does not occur. *)
Lemma sub_needs_literal (l : str) (rs : list regex) (repl : captures -> str)
      (s : str) :
  In (Lit l) rs -> contains l s = false -> Re.sub (cat_all rs) repl s = s.
Proof.
  intros Hin; unfold Re.sub. induction s as [|c s IH]; intro H.
  - cbn [sub_from]. now rewrite (match_here_needs_literal l rs [] Hin H).
  - cbn [sub_from]. rewrite (match_here_needs_literal l rs _ Hin H).
    now rewrite (IH (contains_tail _ _ _ H)).
Qed.

Lemma sub_from_skip (r : regex) (repl : captures -> str) (a t : str) :
  sub_from r repl (length a) (a ++ t) = sub_from r repl 0 t.
Proof.
  induction a as [|c a IH]; [reflexivity|].
  change (sub_from r repl (length (c :: a)) ((c :: a) ++ t))
    with (sub_from r repl (length a) (a ++ t)).
  exact IH.
Qed.

(** A match [m] at the head of the text is replaced, and the
    substitution goes on after it. *)
Lemma sub_match (r : regex) (repl : captures -> str) (m rest : str)
      (caps : captures) :
  m <> [] -> match_here r (m ++ rest) = Some (caps, rest) ->
  Re.sub r repl (m ++ rest) = repl caps ++ Re.sub r repl rest.
Proof.
  intros Hne Hm. destruct m as [|c m]; [contradiction|].
  unfold Re.sub.
  change ((c :: m) ++ rest) with (c :: (m ++ rest)) in *.
  cbn [sub_from]. rewrite Hm.
  replace (length (c :: m ++ rest) - length rest) with (S (length m))
    by (cbn [length]; rewrite length_app; lia).
  now rewrite sub_from_skip.
Qed.

Lemma startswith_app_cases (l a w : str) :
  startswith l (a ++ w) = true ->
  startswith l a = true
  \/ exists k, k < length l /\ a = firstn k l
               /\ startswith (skipn k l) w = true.
Proof.
  revert a; induction l as [|x l IH]; intros a H; [now left|].
  destruct a as [|y a].
  - right; exists 0; simpl; repeat split; [lia|exact H].
  - simpl in H. apply andb_true_iff in H as [Hxy H].
    apply N.eqb_eq in Hxy; subst y.
    destruct (IH a H) as [Hl|(k & Hk & Ha & Hs)].
    + left; simpl. now rewrite N.eqb_refl.
    + right; exists (S k); simpl; repeat split; [lia|now rewrite <- Ha|exact Hs].
Qed.

(** The text before the first occurrence of the pattern's leading
    literal is copied: no match starts in [pre] when the literal does not
    occur in it and no occurrence straddles its end. *)
Lemma sub_skips_prefix (l : str) (rs : list regex) (repl : captures -> str)
      (pre w : str) :
  contains l pre = false ->
  (forall k, 0 < k < length l -> startswith (skipn k l) w = false) ->
  Re.sub (cat_all (Lit l :: rs)) repl (pre ++ w)
  = pre ++ Re.sub (cat_all (Lit l :: rs)) repl w.
Proof.
  intros Hpre Hw; unfold Re.sub. induction pre as [|c pre IH]; [reflexivity|].
  change ((c :: pre) ++ w) with (c :: (pre ++ w)).
  cbn [sub_from]. rewrite match_here_lit_absent.
  - rewrite (IH (contains_tail _ _ _ Hpre)). reflexivity.
  - destruct (startswith l (c :: pre ++ w)) eqn:E; [|reflexivity].
    change (c :: pre ++ w) with ((c :: pre) ++ w) in E.
    apply startswith_app_cases in E as [E|(k & Hk & Ha & Hs)].
    + rewrite (contains_head _ _ _ Hpre) in E; discriminate.
    + destruct k as [|k]; [destruct l; discriminate|].
      rewrite Hw in Hs by lia. discriminate.
Qed.

Lemma firstn_matched {A : Type} (s a t : list A) :
  s = a ++ t -> firstn (length s - length t) s = a.
Proof.
  intros ->. rewrite length_app.
  replace (length a + length t - length t) with (length a) by lia.
  rewrite firstn_app, Nat.sub_diag, firstn_all. simpl. apply app_nil_r.
Qed.

End SubstitutionFacts.

Section ClassFacts.

Variable unicode_alnum : char -> bool.
Hypothesis alnum_not_space : forall c, unicode_alnum c = true -> is_space c = false.

Lemma word_not_space (c : char) :
  is_word unicode_alnum c = true -> is_space c = false.
Proof.
  unfold is_word. destruct (unicode_alnum c) eqn:E; [auto|].
  rewrite andb_false_r, orb_false_r. intro H.
  repeat rewrite ?orb_true_iff, ?andb_true_iff, ?N.eqb_eq, ?N.leb_le in H.
  unfold is_space.
  repeat rewrite ?orb_false_iff, ?andb_false_iff, ?N.eqb_neq, ?N.leb_gt.
  lia.
Qed.

Lemma space_not_word (c : char) :
  is_space c = true -> is_word unicode_alnum c = false.
Proof.
  intro H. destruct (is_word unicode_alnum c) eqn:E; [|reflexivity].
  apply word_not_space in E. congruence.
Qed.

Lemma stops_at_word (x rest : str) :
  x <> [] -> forallb (is_word unicode_alnum) x = true -> stops is_space (x ++ rest).
Proof.
  intros Hne Hx. destruct x as [|c x]; [contradiction|]. simpl in *.
  apply andb_true_iff in Hx as [Hc _]. now apply word_not_space.
Qed.

Lemma stops_after_spaces (p : char -> bool) (ws rest : str) :
  forallb is_space ws = true -> (forall c, is_space c = true -> p c = false) ->
  stops p rest -> stops p (ws ++ rest).
Proof.
  intros Hws Hp Hrest. destruct ws as [|c ws]; [exact Hrest|]. simpl in *.
  apply andb_true_iff in Hws as [Hc _]. now apply Hp.
Qed.

End ClassFacts.

Section AssertFacts.

Lemma forallb_skipn {A : Type} (p : A -> bool) (i : nat) (x : list A) :
  forallb p x = true -> forallb p (skipn i x) = true.
Proof.
  revert i; induction x as [|c x IH]; intros [|i] H; simpl in *; auto.
  apply andb_true_iff in H as [_ H]. auto.
Qed.

(** A greedy run fails when what follows it matches at none of the
    places it can stop. *)
Lemma star_fail {R : Type} (p : char -> bool) (k : str -> option R) (x rest : str) :
  forallb p x = true -> stops p rest ->
  (forall i, i <= length x -> k (skipn i x ++ rest) = None) ->
  star p k (x ++ rest) = None.
Proof.
  intros Hx Hstop Hk; induction x as [|c x IH]; simpl.
  - specialize (Hk 0 (le_n _)). simpl in Hk.
    destruct rest as [|d rest]; simpl; [exact Hk|]. simpl in Hstop. now rewrite Hstop.
  - simpl in Hx. apply andb_true_iff in Hx as [Hc Hx]. rewrite Hc, IH.
    + exact (Hk 0 (Nat.le_0_l _)).
    + exact Hx.
    + intros i Hi. apply (Hk (S i)). simpl; lia.
Qed.

Lemma assert_matches (condition post : str) :
  condition <> [] -> forallb not_rparen condition = true ->
  match_here ClaudeAgent.re_assert
    ((lit "assert!(" ++ condition ++ lit ");") ++ post)
  = Some ([(1, condition)], post).
Proof.
  intros Hne Hc. unfold match_here, ClaudeAgent.re_assert.
  cbn [cat_all fold_right]. rewrite <- !app_assoc.
  rewrite cat_match, lit_match, cat_match, grp_match.
  apply plus_match; [exact Hne|exact Hc|reflexivity|].
  rewrite cat_match, lit_match. cbn [rmatch].
  now rewrite (firstn_matched _ condition (lit ");" ++ post)).
Qed.

Lemma assert_call_does_not_match (condition : str) :
  forallb not_rparen condition = true ->
  match_here ClaudeAgent.re_assert (lit "assert!(" ++ condition ++ lit "));") = None.
Proof.
  intros Hc. unfold match_here, ClaudeAgent.re_assert.
  cbn [cat_all fold_right].
  rewrite cat_match, lit_match, cat_match, grp_match.
  assert (Hk : forall caps i,
    rmatch (Cat (Lit (lit ");")) Eps) caps (skipn i condition ++ lit "));")
      (fun caps' rest => Some (caps', rest)) = None).
  { intros caps i. pose proof (forallb_skipn _ i _ Hc) as Hi.
    destruct (skipn i condition) as [|c x]; [reflexivity|].
    simpl in Hi. apply andb_true_iff in Hi as [Hi _].
    unfold not_rparen in Hi. apply negb_true_iff in Hi.
    rewrite N.eqb_sym in Hi. rewrite cat_match. cbn [rmatch].
    rewrite drop_prefix_startswith; [reflexivity|].
    change (startswith (lit ");") ((c :: x) ++ lit "));"))
      with (N.eqb 41 c && startswith [59%N] (x ++ lit "));")).
    now rewrite Hi. }
  destruct condition as [|c x]; [reflexivity|].
  simpl in Hc. apply andb_true_iff in Hc as [Hc Hx].
  change ((c :: x) ++ lit "));") with (c :: (x ++ lit "));")).
  cbn [rmatch]. rewrite Hc.
  apply star_fail; [exact Hx|reflexivity|].
  intros i _. apply (Hk _ (S i)).
Qed.

End AssertFacts.

(** No occurrence of a literal straddles the end of the text before it:
    checked place by place on the literal's characters. *)
Ltac no_straddle :=
  let k := fresh "k" in
  let H := fresh "H" in
  intros k H;
  destruct k as [|k]; [exfalso; lia|];
  repeat (first [ exfalso; simpl in H; lia
                | destruct k as [|k]; [reflexivity|] ]).

Section LetFacts.

Variable unicode_alnum : char -> bool.
Hypothesis alnum_not_space : forall c, unicode_alnum c = true -> is_space c = false.

Lemma let_matches (ws1 x ws2 ws3 f args post : str) :
  ws1 <> [] -> forallb is_space ws1 = true ->
  x <> [] -> forallb (is_word unicode_alnum) x = true ->
  forallb is_space ws2 = true -> forallb is_space ws3 = true ->
  f <> [] -> forallb (is_word unicode_alnum) f = true ->
  args <> [] -> forallb not_rparen args = true ->
  match_here (ClaudeAgent.re_let_jet unicode_alnum)
    ((lit "let" ++ ws1 ++ x ++ ws2 ++ lit "=" ++ ws3
        ++ lit "jet::" ++ f ++ lit "(" ++ args ++ lit ");") ++ post)
  = Some ([(2, lit "jet::" ++ f ++ lit "(" ++ args ++ lit ")"); (1, x)], post).
Proof.
  intros Hws1 Sws1 Hx Wx Sws2 Sws3 Hf Wf Hargs Nargs.
  unfold match_here, ClaudeAgent.re_let_jet. cbn [cat_all fold_right].
  change (lit ");") with (lit ")" ++ lit ";"). rewrite <- !app_assoc.
  rewrite cat_match, lit_match, cat_match.
  apply plus_match;
    [exact Hws1|exact Sws1
    |now apply (stops_at_word unicode_alnum alnum_not_space)|].
  rewrite cat_match, grp_match.
  apply plus_match; [exact Hx|exact Wx| |].
  { apply stops_after_spaces; [exact Sws2| |reflexivity].
    now apply (space_not_word unicode_alnum alnum_not_space). }
  rewrite cat_match.
  apply star_match; [exact Sws2|reflexivity|].
  rewrite cat_match, lit_match, cat_match.
  apply star_match; [exact Sws3|reflexivity|].
  rewrite cat_match, grp_match, cat_match, lit_match, cat_match.
  apply plus_match; [exact Hf|exact Wf|reflexivity|].
  rewrite cat_match, lit_match, cat_match.
  apply plus_match; [exact Hargs|exact Nargs|reflexivity|].
  rewrite cat_match, lit_match, eps_match, cat_match, lit_match, eps_match.
  rewrite (firstn_matched _ x (ws2 ++ lit "=" ++ ws3 ++ lit "jet::" ++ f
                                ++ lit "(" ++ args ++ lit ")" ++ lit ";" ++ post))
    by reflexivity.
  rewrite (firstn_matched _ (lit "jet::" ++ f ++ lit "(" ++ args ++ lit ")")
             (lit ";" ++ post))
    by (now rewrite <- !app_assoc).
  reflexivity.
Qed.

Lemma tuple_let_matches (x rest : str) :
  x <> [] -> forallb (is_word unicode_alnum) x = true ->
  match_here (Autofix.re_tuple_let unicode_alnum)
    ((lit "let (" ++ x ++ lit ",) =") ++ rest)
  = Some ([(1, x)], rest).
Proof.
  intros Hx Wx.
  unfold match_here, Autofix.re_tuple_let. cbn [cat_all fold_right].
  change (lit "let (") with (lit "let" ++ [32%N] ++ lit "(").
  change (lit ",) =") with (lit ",)" ++ [32%N] ++ lit "=").
  rewrite <- !app_assoc.
  rewrite cat_match, lit_match, cat_match.
  apply plus_match; [discriminate|reflexivity|reflexivity|].
  rewrite cat_match, lit_match, cat_match, grp_match.
  apply plus_match; [exact Hx|exact Wx|reflexivity|].
  rewrite cat_match, lit_match, cat_match.
  apply star_match; [reflexivity|reflexivity|].
  rewrite cat_match, lit_match. cbn [rmatch].
  now rewrite (firstn_matched _ x (lit ",)" ++ [32%N] ++ lit "=" ++ rest)).
Qed.

End LetFacts.

Section WrapperFacts.

Lemma star_none_without (l : str) (caps : captures) (s : str)
      (k : captures -> str -> option (captures * str)) :
  contains l s = false ->
  (forall s', contains l s' = false -> k caps s' = None) ->
  star any_char (k caps) s = None.
Proof.
  intros Hs Hk.
  apply (star_none (fun s => contains l s = false) (contains_tail l));
    [exact Hs|exact Hk].
Qed.

(** After [.*] the closing brace is the last one of the text. *)
Lemma body_matches (caps : captures) (body post : str) :
  contains (lit "}") post = false ->
  rmatch (Cat (Grp 1 (Star any_char)) (Cat (Lit (lit "}")) Eps)) caps
    (body ++ lit "}" ++ post) (fun caps' rest => Some (caps', rest))
  = Some ((1, body) :: caps, post).
Proof.
  intro Hpost. rewrite cat_match, grp_match.
  apply star_any_last; [discriminate| |].
  - apply (star_none_without (lit "}")
             caps post
             (fun caps' s' =>
                rmatch (Cat (Lit (lit "}")) Eps)
                  ((1, firstn (length (body ++ lit "}" ++ post) - length s')
                         (body ++ lit "}" ++ post)) :: caps') s'
                  (fun caps'' rest => Some (caps'', rest))));
      [exact Hpost|].
    intros s' Hs'. rewrite cat_match. cbn [rmatch].
    now rewrite (drop_prefix_startswith _ _ (contains_startswith _ _ Hs')).
  - rewrite cat_match, lit_match. cbn [rmatch].
    now rewrite (firstn_matched _ body (lit "}" ++ post)).
Qed.

Lemma claude_wrapper_matches (ws body post : str) :
  forallb is_space ws = true -> contains (lit "}") post = false ->
  match_here ClaudeAgent.re_main_wrapper
    ((lit "fn main()" ++ ws ++ lit "{" ++ body ++ lit "}") ++ post)
  = Some ([(1, body)], post).
Proof.
  intros Sws Hpost. unfold match_here, ClaudeAgent.re_main_wrapper.
  cbn [cat_all fold_right].
  change (lit "fn main()") with (lit "fn" ++ [32%N] ++ lit "main()").
  rewrite <- !app_assoc.
  rewrite cat_match, lit_match, cat_match.
  apply plus_match; [discriminate|reflexivity|reflexivity|].
  rewrite cat_match, lit_match, cat_match.
  apply star_match; [exact Sws|reflexivity|].
  rewrite cat_match, lit_match.
  now apply body_matches.
Qed.

Lemma autofix_wrapper_matches (ws1 ws2 ws3 ws4 body post : str) :
  ws1 <> [] -> forallb is_space ws1 = true -> forallb is_space ws2 = true ->
  forallb is_space ws3 = true -> forallb is_space ws4 = true ->
  contains (lit "}") post = false ->
  match_here Autofix.re_main_wrapper
    ((lit "fn" ++ ws1 ++ lit "main" ++ ws2 ++ lit "(" ++ ws3 ++ lit ")" ++ ws4
        ++ lit "{" ++ body ++ lit "}") ++ post)
  = Some ([(1, body)], post).
Proof.
  intros Hws1 S1 S2 S3 S4 Hpost. unfold match_here, Autofix.re_main_wrapper.
  cbn [cat_all fold_right]. rewrite <- !app_assoc.
  rewrite cat_match, lit_match, cat_match.
  apply plus_match; [exact Hws1|exact S1|reflexivity|].
  rewrite cat_match, lit_match, cat_match.
  apply star_match; [exact S2|reflexivity|].
  rewrite cat_match, lit_match, cat_match.
  apply star_match; [exact S3|reflexivity|].
  rewrite cat_match, lit_match, cat_match.
  apply star_match; [exact S4|reflexivity|].
  rewrite cat_match, lit_match.
  now apply body_matches.
Qed.

End WrapperFacts.

Section CharFacts.

Lemma contains_char (c : char) (s : str) : contains [c] s = existsb (N.eqb c) s.
Proof.
  induction s as [|d s IH]; [reflexivity|].
  cbn [contains startswith existsb]. now rewrite andb_true_r, IH.
Qed.

Lemma contains_char_app (c : char) (a b : str) :
  contains [c] (a ++ b) = contains [c] a || contains [c] b.
Proof. rewrite !contains_char. apply existsb_app. Qed.

Lemma contains_char_outside (p : char -> bool) (c : char) (s : str) :
  forallb p s = true -> p c = false -> contains [c] s = false.
Proof.
  intros Hs Hc. rewrite contains_char.
  induction s as [|d s IH]; [reflexivity|]. simpl in *.
  apply andb_true_iff in Hs as [Hd Hs]. rewrite (IH Hs), orb_false_r.
  destruct (N.eqb_spec c d); [congruence|reflexivity].
Qed.

End CharFacts.

(* ================================================================== *)
(** ** What the rewriting rules do to the text they match *)
(* ================================================================== *)

(** X3.  The assertion rule of [SimplicityFixAgent.apply_rule_based_fixes]
    rewrites the first [assert!(c);] of a text to [jet::verify(c);] for
    every non-empty condition [c] without a closing parenthesis, copies
    the text before it and goes on in the text after it. *)
Theorem assert_becomes_verify (pre condition post : str) :
  contains (lit "assert!(") pre = false ->
  condition <> [] -> forallb not_rparen condition = true ->
  ClaudeAgent.fix_asserts (pre ++ lit "assert!(" ++ condition ++ lit ");" ++ post)
  = pre ++ lit "jet::verify(" ++ condition ++ lit ");"
      ++ ClaudeAgent.fix_asserts post.
Proof.
  intros Hpre Hne Hc. unfold ClaudeAgent.fix_asserts.
  pose proof (assert_matches condition post Hne Hc) as Hm.
  unfold ClaudeAgent.re_assert in *.
  rewrite sub_skips_prefix; [|exact Hpre|no_straddle].
  f_equal.
  replace (lit "assert!(" ++ condition ++ lit ");" ++ post)
    with ((lit "assert!(" ++ condition ++ lit ");") ++ post)
    by (now rewrite <- !app_assoc).
  erewrite sub_match; [|simpl; discriminate|exact Hm].
  cbn [group Nat.eqb]. now rewrite <- !app_assoc.
Qed.

Lemma assert_becomes_verify_witness :
  ClaudeAgent.fix_asserts (lit "let a = 1; assert!(a); assert!(b);")
  = lit "let a = 1; jet::verify(a); jet::verify(b);".
Proof.
  exact (assert_becomes_verify (lit "let a = 1; ") (lit "a") (lit " assert!(b);")
           eq_refl ltac:(discriminate) eq_refl).
Defined.

(** X4.  An assertion whose condition is itself a call, as in
    [assert!(jet::eq_32(a, b));], is not rewritten: the pattern of the
    rule stops at the first closing parenthesis and wants [;] after it. *)
Theorem assert_on_a_call_is_left_alone (condition : str) :
  forallb not_rparen condition = true ->
  contains (lit "assert!(") condition = false ->
  ClaudeAgent.fix_asserts (lit "assert!(" ++ condition ++ lit "));")
  = lit "assert!(" ++ condition ++ lit "));".
Proof.
  intros Hc Hno. unfold ClaudeAgent.fix_asserts, Re.sub.
  pose proof (assert_call_does_not_match condition Hc) as Hm.
  change (lit "assert!(" ++ condition ++ lit "));")
    with (97%N :: (lit "ssert!(" ++ condition ++ lit "));")) in *.
  cbn [sub_from]. rewrite Hm. f_equal.
  apply (sub_lit_absent (lit "assert!(")); [discriminate|].
  change (lit "assert!(") with (lit "assert!" ++ [40%N]) in *.
  assert (E : contains (lit "assert!" ++ [40%N]) (condition ++ lit "));") = false).
  { replace (condition ++ lit "));")
      with (((condition ++ [41%N]) ++ [41%N]) ++ [59%N])
      by (now rewrite <- !app_assoc).
    now rewrite !contains_snoc by reflexivity. }
  cbn. exact E.
Qed.

Lemma assert_on_a_call_witness :
  ClaudeAgent.fix_asserts (lit "assert!(jet::eq_32(a, b));")
  = lit "assert!(jet::eq_32(a, b));".
Proof.
  exact (assert_on_a_call_is_left_alone (lit "jet::eq_32(a, b") eq_refl eq_refl).
Defined.

(** X5.  The binding rule of [SimplicityFixAgent.apply_rule_based_fixes]
    rewrites the first [let x = jet::f(args);] of a text, whatever the
    spacing around [x] and [=], to [let (x,) = jet::f(args);], copies the
    text before it and goes on in the text after it.  [x] and [f] are
    non-empty words, [args] is non-empty and has no closing parenthesis;
    the Unicode table behind [\w] has no whitespace in it. *)
Theorem let_becomes_tuple_pattern (unicode_alnum : char -> bool)
        (pre ws1 x ws2 ws3 f args post : str) :
  (forall c, unicode_alnum c = true -> is_space c = false) ->
  contains (lit "let") pre = false ->
  ws1 <> [] -> forallb is_space ws1 = true ->
  x <> [] -> forallb (is_word unicode_alnum) x = true ->
  forallb is_space ws2 = true -> forallb is_space ws3 = true ->
  f <> [] -> forallb (is_word unicode_alnum) f = true ->
  args <> [] -> forallb not_rparen args = true ->
  ClaudeAgent.fix_let_patterns unicode_alnum
    (pre ++ lit "let" ++ ws1 ++ x ++ ws2 ++ lit "=" ++ ws3
       ++ lit "jet::" ++ f ++ lit "(" ++ args ++ lit ");" ++ post)
  = pre ++ lit "let (" ++ x ++ lit ",) = jet::" ++ f ++ lit "(" ++ args ++ lit ");"
      ++ ClaudeAgent.fix_let_patterns unicode_alnum post.
Proof.
  intros Hua Hpre Hws1 Sws1 Hx Wx Sws2 Sws3 Hf Wf Hargs Nargs.
  unfold ClaudeAgent.fix_let_patterns.
  pose proof (let_matches unicode_alnum Hua ws1 x ws2 ws3 f args post
                Hws1 Sws1 Hx Wx Sws2 Sws3 Hf Wf Hargs Nargs) as Hm.
  unfold ClaudeAgent.re_let_jet in *.
  rewrite sub_skips_prefix; [|exact Hpre|no_straddle].
  f_equal.
  replace (lit "let" ++ ws1 ++ x ++ ws2 ++ lit "=" ++ ws3
             ++ lit "jet::" ++ f ++ lit "(" ++ args ++ lit ");" ++ post)
    with ((lit "let" ++ ws1 ++ x ++ ws2 ++ lit "=" ++ ws3
             ++ lit "jet::" ++ f ++ lit "(" ++ args ++ lit ");") ++ post)
    by (now rewrite <- !app_assoc).
  erewrite sub_match; [|simpl; discriminate|exact Hm].
  cbn [group Nat.eqb]. now rewrite <- !app_assoc.
Qed.

Lemma let_becomes_tuple_pattern_witness :
  ClaudeAgent.fix_let_patterns Demo.no_unicode_words
    (lit "// sum" ++ [nl] ++ lit "let  s=jet::add_32(a, b);")
  = lit "// sum" ++ [nl] ++ lit "let (s,) = jet::add_32(a, b);".
Proof.
  exact (let_becomes_tuple_pattern Demo.no_unicode_words
           (lit "// sum" ++ [nl]) (lit "  ") (lit "s") [] [] (lit "add_32")
           (lit "a, b") []
           ltac:(discriminate) eq_refl ltac:(discriminate) eq_refl
           ltac:(discriminate) eq_refl eq_refl eq_refl
           ltac:(discriminate) eq_refl ltac:(discriminate) eq_refl).
Defined.

(** X6.  The two agents repair in opposite directions: on a binding
    [let x = jet::f(args);] the rule of [agent_claude] writes the tuple
    pattern [let (x,) = ..;], and the tuple rule of [agent_autofix]
    applied to that result writes the original statement back. *)
Theorem tuple_rule_undoes_let_rule (unicode_alnum : char -> bool)
        (x f args : str) :
  (forall c, unicode_alnum c = true -> is_space c = false) ->
  x <> [] -> forallb (is_word unicode_alnum) x = true ->
  f <> [] -> forallb (is_word unicode_alnum) f = true ->
  args <> [] -> forallb not_rparen args = true ->
  contains (lit "=") args = false ->
  let statement :=
    lit "let " ++ x ++ lit " = jet::" ++ f ++ lit "(" ++ args ++ lit ");" in
  ClaudeAgent.fix_let_patterns unicode_alnum statement
  = lit "let (" ++ x ++ lit ",) = jet::" ++ f ++ lit "(" ++ args ++ lit ");"
  /\ Autofix.fix_tuple_patterns unicode_alnum
       (ClaudeAgent.fix_let_patterns unicode_alnum statement)
     = statement.
Proof.
  intros Hua Hx Wx Hf Wf Hargs Nargs Heq statement.
  assert (E : ClaudeAgent.fix_let_patterns unicode_alnum statement
              = lit "let (" ++ x ++ lit ",) = jet::" ++ f ++ lit "(" ++ args
                  ++ lit ");").
  { unfold ClaudeAgent.fix_let_patterns.
    pose proof (let_matches unicode_alnum Hua [32%N] x [32%N] [32%N] f args []
                  ltac:(discriminate) eq_refl Hx Wx eq_refl eq_refl
                  Hf Wf Hargs Nargs) as Hm.
    unfold ClaudeAgent.re_let_jet in *.
    replace statement
      with ((lit "let" ++ [32%N] ++ x ++ [32%N] ++ lit "=" ++ [32%N]
               ++ lit "jet::" ++ f ++ lit "(" ++ args ++ lit ");") ++ [])
      by (unfold statement; rewrite app_nil_r; reflexivity).
    erewrite sub_match; [|simpl; discriminate|exact Hm].
    cbn [group Nat.eqb]. rewrite <- !app_assoc. reflexivity. }
  split; [exact E|]. rewrite E.
  unfold Autofix.fix_tuple_patterns.
  pose proof (tuple_let_matches unicode_alnum x
                (lit " jet::" ++ f ++ lit "(" ++ args ++ lit ");") Hx Wx) as Hm.
  unfold Autofix.re_tuple_let in *.
  replace (lit "let (" ++ x ++ lit ",) = jet::" ++ f ++ lit "(" ++ args ++ lit ");")
    with ((lit "let (" ++ x ++ lit ",) =")
            ++ lit " jet::" ++ f ++ lit "(" ++ args ++ lit ");")
    by (now rewrite <- !app_assoc).
  erewrite sub_match; [|simpl; discriminate|exact Hm].
  rewrite (sub_needs_literal (lit "=")).
  - cbn [group Nat.eqb]. unfold statement. now rewrite <- !app_assoc.
  - simpl; auto 10.
  - change (lit "=") with [61%N].
    rewrite !contains_char_app.
    repeat (apply orb_false_iff; split); try reflexivity; [|exact Heq].
    exact (contains_char_outside (is_word unicode_alnum) 61%N f Wf eq_refl).
Qed.

Lemma tuple_rule_undoes_let_rule_witness :
  ClaudeAgent.fix_let_patterns Demo.no_unicode_words (lit "let s = jet::add_32(a, b);")
  = lit "let (s,) = jet::add_32(a, b);"
  /\ Autofix.fix_tuple_patterns Demo.no_unicode_words
       (ClaudeAgent.fix_let_patterns Demo.no_unicode_words
          (lit "let s = jet::add_32(a, b);"))
     = lit "let s = jet::add_32(a, b);".
Proof.
  exact (tuple_rule_undoes_let_rule Demo.no_unicode_words (lit "s") (lit "add_32")
           (lit "a, b") ltac:(discriminate) ltac:(discriminate) eq_refl
           ltac:(discriminate) eq_refl ltac:(discriminate) eq_refl eq_refl).
Defined.

(** X7.  The wrapper rule of [SimplicityFixAgent.apply_rule_based_fixes]
    replaces the first [fn main() { .. }] by what stands between its
    opening brace and the last closing brace of the whole text, whatever
    that is (nested blocks and further functions included), and keeps the
    text before the wrapper and after that last brace. *)
Theorem claude_unwraps_to_the_last_brace (pre ws body post : str) :
  contains (lit "fn") pre = false ->
  forallb is_space ws = true ->
  contains (lit "}") post = false ->
  ClaudeAgent.remove_main_wrapper
    (pre ++ lit "fn main()" ++ ws ++ lit "{" ++ body ++ lit "}" ++ post)
  = pre ++ body ++ post.
Proof.
  intros Hpre Sws Hpost. unfold ClaudeAgent.remove_main_wrapper.
  rewrite contains_app.
  pose proof (claude_wrapper_matches ws body post Sws Hpost) as Hm.
  unfold ClaudeAgent.re_main_wrapper in *.
  rewrite sub_skips_prefix; [|exact Hpre|no_straddle].
  f_equal.
  replace (lit "fn main()" ++ ws ++ lit "{" ++ body ++ lit "}" ++ post)
    with ((lit "fn main()" ++ ws ++ lit "{" ++ body ++ lit "}") ++ post)
    by (now rewrite <- !app_assoc).
  erewrite sub_match; [|simpl; discriminate|exact Hm].
  rewrite (sub_needs_literal (lit "}")); [reflexivity|simpl; auto 10|exact Hpost].
Qed.

Lemma claude_unwraps_witness :
  ClaudeAgent.remove_main_wrapper
    (lit "fn main() { if c { a } }" ++ [nl] ++ lit "fn g() { b }" ++ [nl])
  = lit " if c { a } }" ++ [nl] ++ lit "fn g() { b " ++ [nl].
Proof.
  exact (claude_unwraps_to_the_last_brace [] (lit " ")
           (lit " if c { a } }" ++ [nl] ++ lit "fn g() { b ") [nl]
           eq_refl eq_refl eq_refl).
Defined.

(** The substitution and the dedenting of the wrapper removal, on a text
    whose first [fn] opens a wrapper. *)
Lemma autofix_wrapper_removed (pre ws1 ws2 ws3 ws4 body post : str) :
  contains (lit "fn") pre = false ->
  ws1 <> [] -> forallb is_space ws1 = true -> forallb is_space ws2 = true ->
  forallb is_space ws3 = true -> forallb is_space ws4 = true ->
  contains (lit "}") post = false ->
  Autofix.remove_main_wrapper
    (pre ++ lit "fn" ++ ws1 ++ lit "main" ++ ws2 ++ lit "(" ++ ws3 ++ lit ")"
       ++ ws4 ++ lit "{" ++ body ++ lit "}" ++ post)
  = join [nl] (map Autofix.dedent_line (split_on nl (pre ++ body ++ post))).
Proof.
  intros Hpre Hws1 S1 S2 S3 S4 Hpost. unfold Autofix.remove_main_wrapper.
  do 3 f_equal.
  pose proof (autofix_wrapper_matches ws1 ws2 ws3 ws4 body post
                Hws1 S1 S2 S3 S4 Hpost) as Hm.
  unfold Autofix.re_main_wrapper in *.
  rewrite sub_skips_prefix; [|exact Hpre|no_straddle].
  f_equal.
  replace (lit "fn" ++ ws1 ++ lit "main" ++ ws2 ++ lit "(" ++ ws3 ++ lit ")"
             ++ ws4 ++ lit "{" ++ body ++ lit "}" ++ post)
    with ((lit "fn" ++ ws1 ++ lit "main" ++ ws2 ++ lit "(" ++ ws3 ++ lit ")"
             ++ ws4 ++ lit "{" ++ body ++ lit "}") ++ post)
    by (now rewrite <- !app_assoc).
  erewrite sub_match; [|simpl; discriminate|exact Hm].
  rewrite (sub_needs_literal (lit "}")); [reflexivity|simpl; auto 15|exact Hpost].
Qed.

(** X8.  When the text holds the literal [fn main()] or [fn main (], which
    is the guard of the wrapper removal, and the error triggers neither
    rule 1 nor the comment rule, [agent_autofix.apply_rule_based_fixes]
    replaces the first [fn main ( ) {], whatever whitespace stands between
    its tokens, together with everything up to the last closing brace of
    the text, by what stands between the two braces, and removes four
    leading spaces from every line that starts with them; the returned
    source is that text after the tuple rule, stripped, with a line break. *)
Theorem autofix_unwraps_and_dedents (unicode_alnum : char -> bool)
        (pre ws1 ws2 ws3 ws4 body post error_message : str) :
  let text :=
    pre ++ lit "fn" ++ ws1 ++ lit "main" ++ ws2 ++ lit "(" ++ ws3 ++ lit ")"
      ++ ws4 ++ lit "{" ++ body ++ lit "}" ++ post in
  let unwrapped :=
    join [nl] (map Autofix.dedent_line (split_on nl (pre ++ body ++ post))) in
  Autofix.wants_wrapper error_message = false ->
  Autofix.wants_comment_removal error_message = false ->
  Autofix.has_main_wrapper text = true ->
  contains (lit "fn") pre = false ->
  ws1 <> [] -> forallb is_space ws1 = true -> forallb is_space ws2 = true ->
  forallb is_space ws3 = true -> forallb is_space ws4 = true ->
  contains (lit "}") post = false ->
  Autofix.after_unwrap text error_message = unwrapped
  /\ Autofix.apply_rule_based_fixes unicode_alnum text error_message
     = strip (if Autofix.has_tuple_pattern unwrapped
              then Autofix.fix_tuple_patterns unicode_alnum unwrapped
              else unwrapped) ++ [nl].
Proof.
  cbv zeta. intros Hw Hc Hguard Hpre Hws1 S1 S2 S3 S4 Hpost.
  assert (E : Autofix.after_unwrap
                (pre ++ lit "fn" ++ ws1 ++ lit "main" ++ ws2 ++ lit "(" ++ ws3
                   ++ lit ")" ++ ws4 ++ lit "{" ++ body ++ lit "}" ++ post)
                error_message
              = join [nl] (map Autofix.dedent_line
                             (split_on nl (pre ++ body ++ post)))).
  { unfold Autofix.after_unwrap, Autofix.after_comments, Autofix.after_wrap.
    rewrite Hw, Hc, Hguard.
    now apply autofix_wrapper_removed. }
  split; [exact E|].
  unfold Autofix.apply_rule_based_fixes, Autofix.after_tuples. now rewrite E.
Qed.

Lemma autofix_unwraps_witness :
  Autofix.apply_rule_based_fixes Demo.no_unicode_words
    (lit "fn main () {" ++ [nl] ++ lit "    let a = 1;" ++ [nl] ++ lit "}")
    (lit "error: expected item")
  = lit "let a = 1;" ++ [nl].
Proof.
  exact (proj2 (autofix_unwraps_and_dedents Demo.no_unicode_words
                  [] (lit " ") (lit " ") [] (lit " ")
                  ([nl] ++ lit "    let a = 1;" ++ [nl]) []
                  (lit "error: expected item")
                  eq_refl eq_refl eq_refl eq_refl ltac:(discriminate)
                  eq_refl eq_refl eq_refl eq_refl eq_refl)).
Defined.

(* ================================================================== *)
(** ** What the [agent_autofix] controller does around its loop *)
(* ================================================================== *)

Section AutofixController.

Variable unicode_alnum : char -> bool.
Variable json_loads : str -> res json.
Variable World : Type.
Variable call_tool : World -> json -> str -> World * res (list str).
Variable read_text : World -> str -> World * res str.
Variable path_exists : World -> str -> bool.
Variable write_text : World -> str -> json -> World * res unit.
Variable fixed_path : str -> str.

Lemma py_range_nth (lo hi : Z) (k : nat) (a : Z) :
  nth_error (py_range lo hi) k = Some a -> a = (lo + Z.of_nat k)%Z.
Proof.
  unfold py_range. rewrite nth_error_map.
  destruct (nth_error (seq 0 (Z.to_nat (hi - lo))) k) as [i|] eqn:E; [|discriminate].
  intro H; injection H as <-.
  assert (Hk : k < Z.to_nat (hi - lo)).
  { rewrite <- (length_seq (Z.to_nat (hi - lo)) 0). apply nth_error_Some.
    congruence. }
  apply nth_error_nth with (d := 0) in E.
  rewrite seq_nth in E by exact Hk. subst i. reflexivity.
Qed.

(** The loop does not read its [use_llm] flag in any way that matters:
    [fix_code_with_llm] is the rule-based repair under every provider. *)
Lemma autofix_loop_ignores_llm (max_attempts : Z) (witness_data : str)
      (attempts : list Z) :
  forall (current_code : str) (history : list Autofix.attempt_entry)
         (st : state World),
    Autofix.attempts_loop unicode_alnum json_loads World call_tool
      max_attempts true witness_data attempts current_code history st
    = Autofix.attempts_loop unicode_alnum json_loads World call_tool
        max_attempts false witness_data attempts current_code history st.
Proof.
  induction attempts as [|attempt rest IH]; intros current_code history st;
    [reflexivity|].
  rewrite !autofix_loop_unfold.
  destruct (call_tool (world st) (JStr current_code) witness_data)
    as [w1 [content|e]]; [|reflexivity].
  cbv zeta.
  destruct (Autofix.succeeded (ascii_ignore (first_text content))); [reflexivity|].
  destruct (Autofix.extract_error json_loads (ascii_ignore (first_text content)))
    as [[| | | |error_text| |]|e]; try reflexivity.
  destruct (max_attempts <=? attempt)%Z; [reflexivity|].
  apply IH.
Qed.

Lemma autofix_file_ignores_llm (name source_file witness_file : str)
      (max_attempts : Z) (st : state World) :
  Autofix.test_file_with_agent unicode_alnum json_loads World call_tool read_text
    path_exists write_text fixed_path name source_file witness_file max_attempts
    true st
  = Autofix.test_file_with_agent unicode_alnum json_loads World call_tool
      read_text path_exists write_text fixed_path name source_file witness_file
      max_attempts false st.
Proof.
  unfold Autofix.test_file_with_agent, Autofix.compile_and_fix.
  unfold bind at 1 5.
  destruct (external _ _ st) as [st1 [source_code|e]]; [|reflexivity].
  unfold bind at 1 4.
  destruct (if path_exists (world st1) witness_file then _ else _)
    as [st2 [witness_data|e]]; [|reflexivity].
  unfold bind at 1 3.
  now rewrite autofix_loop_ignores_llm.
Qed.

Lemma autofix_cases_ignore_llm (max_attempts : Z)
      (test_files : list (str * str * str)) :
  forall (results : list (str * bool))
         (all_history : list (str * list Autofix.attempt_entry))
         (st : state World),
    Autofix.run_cases unicode_alnum json_loads World call_tool read_text
      path_exists write_text fixed_path max_attempts true test_files results
      all_history st
    = Autofix.run_cases unicode_alnum json_loads World call_tool read_text
        path_exists write_text fixed_path max_attempts false test_files results
        all_history st.
Proof.
  induction test_files as [|[[name source] witness] rest IH];
    intros results all_history st; [reflexivity|].
  cbn [Autofix.run_cases]. unfold bind at 1 2.
  rewrite autofix_file_ignores_llm.
  destruct (Autofix.test_file_with_agent _ _ _ _ _ _ _ _ _ _ _ _ _ st)
    as [st1 [[success history]|e]]; [|reflexivity].
  apply IH.
Qed.

(** The events a run of the loop adds are compile submissions, and on a
    report the history has grown by one entry for each of them: the
    attempt number, the source submitted, the outcome and the excerpt of
    the reply. *)
Lemma autofix_loop_history (max_attempts : Z) (use_llm : bool) (witness_data : str)
      (attempts : list Z) :
  forall (current_code : str) (history : list Autofix.attempt_entry)
         (st : state World),
  exists new,
    trace (fst (Autofix.attempts_loop unicode_alnum json_loads World call_tool
                  max_attempts use_llm witness_data attempts current_code
                  history st)) = trace st ++ new
    /\ (forall ev, In ev new -> exists s w r, ev = EvCompile s w r)
    /\ forall ok final h,
         snd (Autofix.attempts_loop unicode_alnum json_loads World call_tool
                max_attempts use_llm witness_data attempts current_code
                history st) = Ok (ok, final, h) ->
         exists recs,
           h = history ++ recs
           /\ length recs = length (submissions new)
           /\ forall k sub, nth_error (submissions new) k = Some sub ->
                exists attempt code content,
                  nth_error attempts k = Some attempt
                  /\ sub = (JStr code, witness_data, Ok content)
                  /\ nth_error recs k
                     = Some (Autofix.mkEntry attempt code
                               (Autofix.succeeded (ascii_ignore (first_text content)))
                               (firstn 500 (ascii_ignore (first_text content)))).
Proof.
  induction attempts as [|attempt rest IH]; intros current_code history st.
  - exists []. split; [now rewrite app_nil_r|]. split; [intros ev []|].
    intros ok final h E. injection E as _ _ <-.
    exists []. split; [now rewrite app_nil_r|]. split; [reflexivity|].
    intros [|k] sub Hk; discriminate.
  - rewrite autofix_loop_unfold.
    destruct (call_tool (world st) (JStr current_code) witness_data)
      as [w1 reply] eqn:Ecall.
    set (ev := EvCompile (JStr current_code) witness_data reply).
    assert (Hev : forall ev', In ev' [ev] -> exists s w r, ev' = EvCompile s w r).
    { intros ev' [<-|[]]. unfold ev; eauto. }
    destruct reply as [content|e]; cbv zeta;
      [|exists [ev]; split; [reflexivity|]; split; [exact Hev|discriminate]].
    set (entry := Autofix.mkEntry attempt current_code
                    (Autofix.succeeded (ascii_ignore (first_text content)))
                    (firstn 500 (ascii_ignore (first_text content)))).
    assert (Hone : forall h,
      h = history ++ [entry] ->
      exists recs,
        h = history ++ recs
        /\ length recs = length (submissions [ev])
        /\ forall k sub, nth_error (submissions [ev]) k = Some sub ->
             exists attempt' code content',
               nth_error (attempt :: rest) k = Some attempt'
               /\ sub = (JStr code, witness_data, Ok content')
               /\ nth_error recs k
                  = Some (Autofix.mkEntry attempt' code
                            (Autofix.succeeded (ascii_ignore (first_text content')))
                            (firstn 500 (ascii_ignore (first_text content'))))).
    { intros h ->. exists [entry]. split; [reflexivity|]. split; [reflexivity|].
      intros k sub Hk. apply nth_error_singleton in Hk as [-> ->].
      exists attempt, current_code, content. repeat split. }
    destruct (Autofix.succeeded (ascii_ignore (first_text content))) eqn:Esucc.
    + exists [ev]. split; [reflexivity|]. split; [exact Hev|].
      intros ok final h E. injection E as _ _ <-. now apply Hone.
    + destruct (Autofix.extract_error json_loads (ascii_ignore (first_text content)))
        as [[| | | |error_text| |]|e];
        try (exists [ev]; split; [reflexivity|]; split; [exact Hev|discriminate]).
      destruct (max_attempts <=? attempt)%Z.
      * exists [ev]. split; [reflexivity|]. split; [exact Hev|].
        intros ok final h E. injection E as _ _ <-. now apply Hone.
      * match goal with
          |- context [Autofix.attempts_loop _ _ _ _ _ _ _ rest ?c ?h ?s] =>
            destruct (IH c h s) as (new & Htrace & Hnew & Hrec)
        end.
        exists (ev :: new). split; [|split].
        -- rewrite Htrace. cbn [trace]. now rewrite <- app_assoc.
        -- intros ev' [<-|Hin]; [unfold ev; eauto|now apply Hnew].
        -- intros ok final h E.
           destruct (Hrec _ _ _ E) as (recs & -> & Hlen & Hk).
           exists (entry :: recs). split; [now rewrite <- app_assoc|].
           change (submissions (ev :: new))
             with ((JStr current_code, witness_data, Ok content) :: submissions new).
           split; [cbn [length]; now rewrite Hlen|].
           intros [|k] sub Hsub.
           ++ injection Hsub as <-. exists attempt, current_code, content.
              repeat split. now rewrite Esucc.
           ++ destruct (Hk k sub Hsub) as (a & c & ct & Ha & Hs & Hr).
              exists a, c, ct. repeat split; assumption.
Qed.

(** What a test of one file adds to the trace: reads and compile
    submissions, and after a successful submission one write of the
    submitted text. *)
Lemma autofix_file_events (name source_file witness_file : str)
      (max_attempts : Z) (use_llm : bool) (st : state World) :
  exists evs,
    trace (fst (Autofix.test_file_with_agent unicode_alnum json_loads World
                  call_tool read_text path_exists write_text fixed_path name
                  source_file witness_file max_attempts use_llm st))
    = trace st ++ evs
    /\ ((forall p t r, ~ In (EvWrite p t r) evs)
        \/ exists before final witness_data content reply,
             evs = before ++ [EvCompile (JStr final) witness_data (Ok content);
                              EvWrite (fixed_path source_file) (JStr final) reply]
             /\ Autofix.succeeded (ascii_ignore (first_text content)) = true
             /\ forall p t r, ~ In (EvWrite p t r) before).
Proof.
  unfold Autofix.test_file_with_agent.
  unfold bind at 1. unfold external at 1.
  destruct (read_text (world st) source_file) as [w1 r1].
  set (e1 := EvRead source_file r1).
  set (st1 := mkState w1 (trace st ++ [e1])).
  destruct r1 as [source_code|e].
  2:{ exists [e1]. split; [reflexivity|]. left.
      intros p t r [H|[]]; discriminate. }
  unfold bind at 1.
  assert (Hwit : exists reads st2 rw,
    (if path_exists (world st1) witness_file
     then external (fun w => read_text w witness_file) (EvRead witness_file) st1
     else ret [] st1) = (st2, rw)
    /\ trace st2 = trace st ++ reads
    /\ forall p t r, ~ In (EvWrite p t r) reads).
  { destruct (path_exists (world st1) witness_file).
    - unfold external. cbn [world trace st1].
      destruct (read_text w1 witness_file) as [w2 r2].
      exists [e1; EvRead witness_file r2]. do 2 eexists.
      split; [reflexivity|]. split; [cbn [trace]; now rewrite <- app_assoc|].
      intros p t r [H|[H|[]]]; discriminate.
    - exists [e1], st1, (Ok []). split; [reflexivity|]. split; [reflexivity|].
      intros p t r [H|[]]; discriminate. }
  destruct Hwit as (reads & st2 & rw & -> & Ht2 & Hreads).
  destruct rw as [witness_data|e].
  2:{ exists reads. split; [exact Ht2|]. left. exact Hreads. }
  unfold bind at 1. unfold Autofix.compile_and_fix.
  destruct (autofix_loop_history max_attempts use_llm witness_data
              (py_range 1 (max_attempts + 1)) source_code [] st2)
    as (new & Htrace & Hnew & _).
  pose proof (autofix_success_is_last_event unicode_alnum json_loads World
                call_tool max_attempts use_llm witness_data
                (py_range 1 (max_attempts + 1)) source_code [] st2) as Hlast.
  destruct (Autofix.attempts_loop unicode_alnum json_loads World call_tool
              max_attempts use_llm witness_data (py_range 1 (max_attempts + 1))
              source_code [] st2) as [st3 r3].
  cbn [fst snd] in Htrace, Hlast.
  assert (Hno : forall p t r, ~ In (EvWrite p t r) (reads ++ new)).
  { intros p t r H. apply in_app_or in H as [H|H]; [now apply Hreads in H|].
    destruct (Hnew _ H) as (s & w & r' & E). discriminate. }
  assert (Ht3 : trace st3 = trace st ++ reads ++ new)
    by (now rewrite Htrace, Ht2, <- app_assoc).
  destruct r3 as [[[success final_code] history]|e].
  2:{ exists (reads ++ new). split; [exact Ht3|]. left. exact Hno. }
  destruct success.
  2:{ exists (reads ++ new). split; [exact Ht3|]. left. exact Hno. }
  destruct (Hlast final_code history eq_refl) as (before & content & Hb & Hs).
  unfold bind at 1. unfold external at 1.
  destruct (write_text (world st3) (fixed_path source_file) (JStr final_code))
    as [w4 r4].
  set (ew := EvWrite (fixed_path source_file) (JStr final_code) r4).
  assert (Hnew' : new = before ++ [EvCompile (JStr final_code) witness_data
                                     (Ok content)]).
  { rewrite Htrace in Hb. now apply app_inv_head in Hb. }
  exists ((reads ++ before)
            ++ [EvCompile (JStr final_code) witness_data (Ok content); ew]).
  split.
  - assert (E : trace (mkState w4 (trace st3 ++ [ew]))
                = trace st ++ (reads ++ before)
                    ++ [EvCompile (JStr final_code) witness_data (Ok content); ew]).
    { cbn [trace]. rewrite Ht3, Hnew'. now rewrite <- !app_assoc. }
    destruct r4 as [[]|e]; exact E.
  - right. exists (reads ++ before), final_code, witness_data, content, r4.
    split; [reflexivity|]. split; [exact Hs|].
    intros p t r H. apply (Hno p t r). rewrite Hnew', app_assoc.
    apply in_or_app; now left.
Qed.

End AutofixController.

(** X9.  The [--llm] flag of [agent_autofix] changes nothing: a repair run, a
    test of one file and the whole of [main] make the same calls, write the
    same files and return the same results with the flag as without it,
    since [fix_code_with_llm] ends in the rule-based repair for every
    provider. *)
Theorem llm_flag_changes_nothing
        (unicode_alnum : char -> bool) (json_loads : str -> res json)
        (World : Type)
        (call_tool : World -> json -> str -> World * res (list str))
        (read_text : World -> str -> World * res str)
        (path_exists : World -> str -> bool)
        (write_text : World -> str -> json -> World * res unit)
        (fixed_path : str -> str)
        (max_attempts : Z) (st : state World) :
  (forall source_code witness_data,
     Autofix.compile_and_fix unicode_alnum json_loads World call_tool
       source_code witness_data max_attempts true st
     = Autofix.compile_and_fix unicode_alnum json_loads World call_tool
         source_code witness_data max_attempts false st)
  /\ (forall name source_file witness_file,
        Autofix.test_file_with_agent unicode_alnum json_loads World call_tool
          read_text path_exists write_text fixed_path name source_file
          witness_file max_attempts true st
        = Autofix.test_file_with_agent unicode_alnum json_loads World call_tool
            read_text path_exists write_text fixed_path name source_file
            witness_file max_attempts false st)
  /\ Autofix.main unicode_alnum json_loads World call_tool read_text path_exists
       write_text fixed_path max_attempts true st
     = Autofix.main unicode_alnum json_loads World call_tool read_text
         path_exists write_text fixed_path max_attempts false st.
Proof.
  split; [|split].
  - intros source_code witness_data. apply autofix_loop_ignores_llm.
  - intros name source_file witness_file. apply autofix_file_ignores_llm.
  - unfold Autofix.main, bind. now rewrite autofix_cases_ignore_llm.
Qed.

(** X10.  When [compile_and_fix] returns, its history is the record of
    its compile submissions: one entry for each, in order, holding the
    attempt number counted from 1, the source that was submitted, whether
    the reply carried the success marker, and the first 500 characters of
    the ASCII part of the reply; every submission carries the witness data
    of the call. *)
Theorem autofix_history_records_the_submissions
        (unicode_alnum : char -> bool) (json_loads : str -> res json)
        (World : Type)
        (call_tool : World -> json -> str -> World * res (list str))
        (source_code witness_data : str) (max_attempts : Z) (use_llm : bool)
        (st : state World) (ok : bool) (final : str)
        (history : list Autofix.attempt_entry) :
  let run := Autofix.compile_and_fix unicode_alnum json_loads World call_tool
               source_code witness_data max_attempts use_llm st in
  let subs := submissions (since st (fst run)) in
  snd run = Ok (ok, final, history) ->
  length history = length subs
  /\ forall k sub, nth_error subs k = Some sub ->
       exists code content,
         sub = (JStr code, witness_data, Ok content)
         /\ nth_error history k
            = Some (Autofix.mkEntry (Z.of_nat k + 1) code
                      (Autofix.succeeded (ascii_ignore (first_text content)))
                      (firstn 500 (ascii_ignore (first_text content)))).
Proof.
  cbv zeta. unfold Autofix.compile_and_fix. intro E.
  destruct (autofix_loop_history unicode_alnum json_loads World call_tool
              max_attempts use_llm witness_data (py_range 1 (max_attempts + 1))
              source_code [] st) as (new & Htrace & _ & Hrec).
  rewrite (since_app _ _ _ Htrace).
  destruct (Hrec _ _ _ E) as (recs & Hh & Hlen & Hk).
  simpl in Hh; subst recs. split; [exact Hlen|].
  intros k sub Hsub.
  destruct (Hk k sub Hsub) as (a & code & content & Ha & Hs & Hr).
  apply py_range_nth in Ha. exists code, content. split; [exact Hs|].
  rewrite Hr. do 2 f_equal. lia.
Qed.

Lemma autofix_history_witness :
  let run := Autofix.compile_and_fix Demo.no_unicode_words Demo.loads_nothing nat
               Demo.always_fails (lit "1 + 1") [] 2 false Demo.start in
  length (submissions (since Demo.start (fst run))) = 2
  /\ exists history,
       snd run = Ok (false, lit "1 + 1" ++ [nl], history)
       /\ nth_error history 1
          = Some (Autofix.mkEntry 2 (lit "1 + 1" ++ [nl]) false
                    (lit "error: expected item")).
Proof.
  cbv zeta. split; [reflexivity|]. eexists. split; [reflexivity|].
  destruct (autofix_history_records_the_submissions Demo.no_unicode_words
              Demo.loads_nothing nat Demo.always_fails (lit "1 + 1") [] 2 false
              Demo.start false (lit "1 + 1" ++ [nl]) _ eq_refl) as [_ H].
  destruct (H 1 (JStr (lit "1 + 1" ++ [nl]), [], Ok [lit "error: expected item"])
              eq_refl) as (code & content & Hs & Hr).
  injection Hs as <- <-. exact Hr.
Defined.

(** X11.  [test_file_with_agent] writes at most one file, and only after
    success: a write is the last thing the call does, it goes to the
    [_fixed.simf] path beside the source file, and it writes exactly the
    text of the compile submission just before it, which the compiler
    answered with the success marker. *)
Theorem fixed_file_is_written_only_after_success
        (unicode_alnum : char -> bool) (json_loads : str -> res json)
        (World : Type)
        (call_tool : World -> json -> str -> World * res (list str))
        (read_text : World -> str -> World * res str)
        (path_exists : World -> str -> bool)
        (write_text : World -> str -> json -> World * res unit)
        (fixed_path : str -> str)
        (name source_file witness_file : str) (max_attempts : Z) (use_llm : bool)
        (st : state World) (path : str) (text : json) (reply : res unit) :
  let run := Autofix.test_file_with_agent unicode_alnum json_loads World
               call_tool read_text path_exists write_text fixed_path name
               source_file witness_file max_attempts use_llm st in
  In (EvWrite path text reply) (since st (fst run)) ->
  exists before final witness_data content,
    since st (fst run)
    = before ++ [EvCompile (JStr final) witness_data (Ok content);
                 EvWrite path text reply]
    /\ path = fixed_path source_file
    /\ text = JStr final
    /\ Autofix.succeeded (ascii_ignore (first_text content)) = true
    /\ forall p t r, ~ In (EvWrite p t r) before.
Proof.
  cbv zeta.
  destruct (autofix_file_events unicode_alnum json_loads World call_tool read_text
              path_exists write_text fixed_path name source_file witness_file
              max_attempts use_llm st) as (evs & Htrace & Hshape).
  rewrite (since_app _ _ _ Htrace). intro Hin.
  destruct Hshape as [Hno|(before & final & wd & content & r4 & -> & Hs & Hb)];
    [now apply Hno in Hin|].
  apply in_app_or in Hin as [Hin|[Hin|[Hin|[]]]];
    [now apply Hb in Hin|discriminate|].
  injection Hin as <- <- <-.
  exists before, final, wd, content. repeat split; auto.
Qed.

Lemma fixed_file_witness :
  let run := Autofix.test_file_with_agent Demo.no_unicode_words Demo.loads_nothing
               nat (Demo.scripted [Ok [lit "error: expected item"]])
               Demo.read_text Demo.path_exists Demo.write_text Demo.fixed_path
               (lit "Arithmetic") (lit "a.simf") (lit "a.wit") 5 false
               Demo.start in
  let written := EvWrite (lit "a.simf_fixed.simf") (JStr (lit "1 + 1" ++ [nl]))
                   (Ok tt) in
  In written (since Demo.start (fst run))
  /\ exists before final witness_data content,
       since Demo.start (fst run)
       = before ++ [EvCompile (JStr final) witness_data (Ok content); written]
       /\ lit "a.simf_fixed.simf" = Demo.fixed_path (lit "a.simf")
       /\ JStr (lit "1 + 1" ++ [nl]) = JStr final
       /\ Autofix.succeeded (ascii_ignore (first_text content)) = true
       /\ forall p t r, ~ In (EvWrite p t r) before.
Proof.
  cbv zeta.
  assert (Hin : In (EvWrite (lit "a.simf_fixed.simf") (JStr (lit "1 + 1" ++ [nl]))
                      (Ok tt))
                   (since Demo.start
                      (fst (Autofix.test_file_with_agent Demo.no_unicode_words
                              Demo.loads_nothing nat
                              (Demo.scripted [Ok [lit "error: expected item"]])
                              Demo.read_text Demo.path_exists Demo.write_text
                              Demo.fixed_path (lit "Arithmetic") (lit "a.simf")
                              (lit "a.wit") 5 false Demo.start)))).
  { vm_compute. do 4 right. left. reflexivity. }
  split; [exact Hin|].
  exact (fixed_file_is_written_only_after_success Demo.no_unicode_words
           Demo.loads_nothing nat
           (Demo.scripted [Ok [lit "error: expected item"]])
           Demo.read_text Demo.path_exists Demo.write_text Demo.fixed_path
           (lit "Arithmetic") (lit "a.simf") (lit "a.wit") 5 false Demo.start
           (lit "a.simf_fixed.simf") (JStr (lit "1 + 1" ++ [nl])) (Ok tt) Hin).
Defined.

(* ================================================================== *)
(** ** The history of [agent_claude] and the batch of [test_examples] *)
(* ================================================================== *)

Section ClaudeHistory.

Variable unicode_alnum : char -> bool.
Variable json_loads : str -> res json.
Variable py_repr : json -> str.
Variable exn_str : exn -> str.
Variable World : Type.
Variable call_tool : World -> json -> str -> World * res (list str).
Variable messages_create : World -> str -> str -> World * res (list str).
Variable agent : ClaudeAgent.SimplicityFixAgent.

(** On a report the history of the loop has grown by one entry for each
    compile submission: the attempt number, the outcome, the excerpt of
    the canonical error after a failure, and the source submitted. *)
Lemma claude_loop_history (max_attempts : Z) (witness_data : str)
      (attempts : list Z) :
  forall (current_code : json) (history : list ClaudeAgent.history_entry)
         (st : state World),
  exists new,
    trace (fst (ClaudeAgent.attempts_loop unicode_alnum json_loads py_repr exn_str
                  World call_tool messages_create agent max_attempts
                  witness_data attempts current_code history st))
    = trace st ++ new
    /\ forall ok final h,
         snd (ClaudeAgent.attempts_loop unicode_alnum json_loads py_repr exn_str
                World call_tool messages_create agent max_attempts witness_data
                attempts current_code history st) = Ok (ok, final, h) ->
         exists recs,
           h = history ++ recs
           /\ length recs = length (submissions new)
           /\ forall k sub, nth_error (submissions new) k = Some sub ->
                exists attempt code content,
                  nth_error attempts k = Some attempt
                  /\ sub = (code, witness_data, Ok content)
                  /\ ((ClaudeAgent.succeeded (first_text content) = true
                       /\ nth_error recs k
                          = Some (ClaudeAgent.mkEntry attempt true None code))
                      \/ (ClaudeAgent.succeeded (first_text content) = false
                          /\ exists error_msg error_excerpt,
                               claude_diagnose json_loads (first_text content)
                               = Ok (error_msg, error_excerpt)
                               /\ nth_error recs k
                                  = Some (ClaudeAgent.mkEntry attempt false
                                            (Some error_excerpt) code))).
Proof.
  induction attempts as [|attempt rest IH]; intros current_code history st.
  - exists []. split; [now rewrite app_nil_r|].
    intros ok final h E. injection E as _ _ <-.
    exists []. split; [now rewrite app_nil_r|]. split; [reflexivity|].
    intros [|k] sub Hk; discriminate.
  - rewrite claude_loop_unfold.
    destruct (call_tool (world st) current_code witness_data)
      as [w1 reply] eqn:Ecall.
    set (ev := EvCompile current_code witness_data reply).
    destruct reply as [content|e]; cbv zeta;
      [|exists [ev]; split; [reflexivity|discriminate]].
    destruct (ClaudeAgent.succeeded (first_text content)) eqn:Esucc.
    + exists [ev]. split; [reflexivity|].
      intros ok final h E. injection E as _ _ <-.
      eexists. split; [reflexivity|]. split; [reflexivity|].
      intros k sub Hk. apply nth_error_singleton in Hk as [-> ->].
      exists attempt, current_code, content.
      split; [reflexivity|]. split; [reflexivity|]. left. now split.
    + destruct (claude_diagnose json_loads (first_text content))
        as [[error_msg error_excerpt]|e] eqn:Ediag;
        [|exists [ev]; split; [reflexivity|discriminate]].
      set (entry := ClaudeAgent.mkEntry attempt false (Some error_excerpt)
                      current_code).
      destruct (max_attempts <=? attempt)%Z.
      * exists [ev]. split; [reflexivity|].
        intros ok final h E. injection E as _ _ <-.
        exists [entry]. split; [reflexivity|]. split; [reflexivity|].
        intros k sub Hk. apply nth_error_singleton in Hk as [-> ->].
        exists attempt, current_code, content.
        split; [reflexivity|]. split; [reflexivity|]. right.
        split; [exact Esucc|]. exists error_msg, error_excerpt. now split.
      * match goal with
          |- context [ClaudeAgent.analyze_and_fix ?a ?b ?c ?d ?e ?f ?g ?h ?i ?j ?s] =>
            destruct (analyze_trace a b c d e f g h i j s) as (asks & Hasks & Hnone);
            destruct (ClaudeAgent.analyze_and_fix a b c d e f g h i j s)
              as [st2 fixed]
        end.
        cbn [fst trace] in Hasks.
        destruct (res_bind fixed claude_next_code) as [fixed_code|e].
        2:{ exists (ev :: asks). split; [|discriminate].
            cbn [fst]. rewrite Hasks. now rewrite <- app_assoc. }
        destruct (IH fixed_code (history ++ [entry]) st2) as (new & Htrace & Hrec).
        exists (ev :: asks ++ new). split.
        -- rewrite Htrace, Hasks. now rewrite <- !app_assoc.
        -- intros ok final h E.
           destruct (Hrec _ _ _ E) as (recs & -> & Hlen & Hk).
           exists (entry :: recs). split; [now rewrite <- app_assoc|].
           assert (Es : submissions (ev :: asks ++ new)
                        = (current_code, witness_data, Ok content)
                            :: submissions new).
           { change (ev :: asks ++ new) with ([ev] ++ asks ++ new).
             rewrite !submissions_app, Hnone. reflexivity. }
           rewrite Es. split; [cbn [length]; now rewrite Hlen|].
           intros [|k] sub Hsub.
           ++ injection Hsub as <-. exists attempt, current_code, content.
              split; [reflexivity|]. split; [reflexivity|]. right.
              split; [exact Esucc|]. exists error_msg, error_excerpt. now split.
           ++ destruct (Hk k sub Hsub) as (a & c & ct & Ha & Hs & Hr).
              exists a, c, ct. repeat split; assumption.
Qed.

End ClaudeHistory.

Section ExampleBatch.

Variable World : Type.
Variable call_tool : World -> json -> str -> World * res (list str).
Variable read_text : World -> str -> World * res str.
Variable path_exists : World -> str -> bool.

(** One example: either a read raises, and the call with it, or the
    reads are followed by one compile submission whose outcome, exception
    included, becomes the result. *)
Lemma test_example_spec (name source_file witness_file : str) (st : state World) :
  exists st' r evs,
    TestExamples.test_example World call_tool read_text path_exists name
      source_file witness_file st = (st', r)
    /\ trace st' = trace st ++ evs
    /\ ((exists path e, In (EvRead path (Raise e)) evs /\ r = Raise e)
        \/ exists reads sub,
             evs = reads ++ [EvCompile (fst (fst sub)) (snd (fst sub)) (snd sub)]
             /\ submissions reads = []
             /\ r = Ok (answered_by Autofix.succeeded ascii_ignore sub)).
Proof.
  unfold TestExamples.test_example.
  unfold bind at 1. unfold external at 1.
  destruct (read_text (world st) source_file) as [w1 r1].
  set (e1 := EvRead source_file r1).
  set (st1 := mkState w1 (trace st ++ [e1])).
  destruct r1 as [source_code|e].
  2:{ exists st1, (Raise e), [e1]. split; [reflexivity|]. split; [reflexivity|].
      left. exists source_file, e. split; [now left|reflexivity]. }
  unfold bind at 1.
  assert (Hwit : exists reads st2 rw,
    (if path_exists (world st1) witness_file
     then external (fun w => read_text w witness_file) (EvRead witness_file) st1
     else ret [] st1) = (st2, rw)
    /\ trace st2 = trace st ++ reads
    /\ submissions reads = []
    /\ forall e, rw = Raise e -> exists path, In (EvRead path (Raise e)) reads).
  { destruct (path_exists (world st1) witness_file).
    - unfold external. cbn [world trace st1].
      destruct (read_text w1 witness_file) as [w2 r2].
      exists [e1; EvRead witness_file r2]. do 2 eexists.
      split; [reflexivity|]. split; [cbn [trace]; now rewrite <- app_assoc|].
      split; [reflexivity|].
      intros e ->. exists witness_file. right; now left.
    - exists [e1], st1, (Ok []). split; [reflexivity|]. split; [reflexivity|].
      split; [reflexivity|]. discriminate. }
  destruct Hwit as (reads & st2 & rw & -> & Ht2 & Hreads & Hraise).
  destruct rw as [witness_data|e].
  2:{ exists st2, (Raise e), reads. split; [reflexivity|]. split; [exact Ht2|].
      left. destruct (Hraise e eq_refl) as [path Hin]. eauto. }
  unfold try_except, bind, external, ret.
  destruct (call_tool (world st2) (JStr source_code) witness_data)
    as [w3 reply] eqn:Ecall.
  exists (mkState w3 (trace st2
                        ++ [EvCompile (JStr source_code) witness_data reply])),
         (Ok (answered_by Autofix.succeeded ascii_ignore
                (JStr source_code, witness_data, reply))),
         (reads ++ [EvCompile (JStr source_code) witness_data reply]).
  split; [destruct reply as [[|text content]|e]; reflexivity|].
  split; [cbn [trace]; now rewrite Ht2, <- app_assoc|].
  right. exists reads, (JStr source_code, witness_data, reply).
  repeat split. exact Hreads.
Qed.

(** The loop over the examples: a read that raises ends it, nothing else
    does, and each example that is read is submitted once. *)
Lemma run_examples_spec (examples : list (str * str * str)) :
  forall (results : list (str * bool)) (st : state World),
  exists st' r evs,
    TestExamples.run_examples World call_tool read_text path_exists examples
      results st = (st', r)
    /\ trace st' = trace st ++ evs
    /\ ((exists path e, In (EvRead path (Raise e)) evs /\ r = Raise e)
        \/ (length (submissions evs) = length examples
            /\ r = Ok (fold_left
                         (fun d c => Autofix.dict_set d (fst (fst (fst c)))
                                       (answered_by Autofix.succeeded ascii_ignore
                                          (snd c)))
                         (combine examples (submissions evs)) results))).
Proof.
  induction examples as [|[[name source] witness] rest IH]; intros results st.
  - exists st, (Ok results), []. split; [reflexivity|].
    split; [now rewrite app_nil_r|]. right. split; reflexivity.
  - cbn [TestExamples.run_examples]. unfold bind at 1.
    destruct (test_example_spec name source witness st)
      as (st1 & r1 & evs1 & -> & Ht1 & [(path & e & Hin & ->)
                                       |(reads & sub & -> & Hreads & ->)]).
    + exists st1, (Raise e), evs1. split; [reflexivity|]. split; [exact Ht1|].
      left. eauto.
    + destruct (IH (Autofix.dict_set results name
                      (answered_by Autofix.succeeded ascii_ignore sub)) st1)
        as (st2 & r2 & evs2 & -> & Ht2 & Hcases).
      exists st2, r2,
        ((reads ++ [EvCompile (fst (fst sub)) (snd (fst sub)) (snd sub)]) ++ evs2).
      split; [reflexivity|].
      split; [rewrite Ht2, Ht1; now rewrite <- !app_assoc|].
      destruct Hcases as [(path & e & Hin & ->)|(Hlen & ->)].
      * left. exists path, e. split; [|reflexivity].
        apply in_or_app. now right.
      * right. rewrite !submissions_app, Hreads.
        destruct sub as [[s w] r].
        cbn [submissions flat_map app fst snd length combine fold_left].
        split; [now rewrite Hlen|reflexivity].
Qed.

End ExampleBatch.

(** X12.  When [compile_with_retries] returns, its history is the record
    of its compile submissions: one entry for each, in order, with the
    attempt number counted from 1 and the source submitted; the entry of
    a submission answered with the success marker has no error, the entry
    of any other holds the first 200 characters of the canonical error. *)
Theorem claude_history_records_the_submissions
        (unicode_alnum : char -> bool) (json_loads : str -> res json)
        (py_repr : json -> str) (exn_str : exn -> str) (World : Type)
        (call_tool : World -> json -> str -> World * res (list str))
        (messages_create : World -> str -> str -> World * res (list str))
        (agent : ClaudeAgent.SimplicityFixAgent)
        (source_code witness_data : str) (max_attempts : Z)
        (st : state World) (ok : bool) (final : json)
        (history : list ClaudeAgent.history_entry) :
  let run := ClaudeAgent.compile_with_retries unicode_alnum json_loads py_repr
               exn_str World call_tool messages_create agent source_code
               witness_data max_attempts st in
  let subs := submissions (since st (fst run)) in
  snd run = Ok (ok, final, history) ->
  length history = length subs
  /\ forall k sub, nth_error subs k = Some sub ->
       exists code content,
         sub = (code, witness_data, Ok content)
         /\ ((ClaudeAgent.succeeded (first_text content) = true
              /\ nth_error history k
                 = Some (ClaudeAgent.mkEntry (Z.of_nat k + 1) true None code))
             \/ (ClaudeAgent.succeeded (first_text content) = false
                 /\ exists error_msg error_excerpt,
                      ClaudeAgent.extract_error json_loads (first_text content)
                      = Ok error_msg
                      /\ py_take 200 error_msg = Ok error_excerpt
                      /\ nth_error history k
                         = Some (ClaudeAgent.mkEntry (Z.of_nat k + 1) false
                                   (Some error_excerpt) code))).
Proof.
  cbv zeta. unfold ClaudeAgent.compile_with_retries. intro E.
  destruct (claude_loop_history unicode_alnum json_loads py_repr exn_str World
              call_tool messages_create agent max_attempts witness_data
              (py_range 1 (max_attempts + 1)) (JStr source_code) [] st)
    as (new & Htrace & Hrec).
  rewrite (since_app _ _ _ Htrace).
  destruct (Hrec _ _ _ E) as (recs & Hh & Hlen & Hk).
  simpl in Hh; subst recs. split; [exact Hlen|].
  intros k sub Hsub.
  destruct (Hk k sub Hsub) as (a & code & content & Ha & Hs & Hr).
  apply py_range_nth in Ha.
  replace (Z.of_nat k + 1)%Z with a by lia.
  exists code, content. split; [exact Hs|].
  destruct Hr as [Hr|(Hf & error_msg & error_excerpt & Hd & Hr)]; [now left|].
  right. split; [exact Hf|]. exists error_msg, error_excerpt.
  split; [|split; [|exact Hr]].
  - unfold claude_diagnose in Hd.
    destruct (ClaudeAgent.extract_error json_loads (first_text content))
      as [m|e]; [|discriminate].
    cbn [res_bind] in Hd.
    destruct (py_take 250 m); [|discriminate]. cbn [res_bind] in Hd.
    destruct (py_take 200 m); [|discriminate]. cbn [res_bind] in Hd.
    congruence.
  - unfold claude_diagnose in Hd.
    destruct (ClaudeAgent.extract_error json_loads (first_text content))
      as [m|e]; [|discriminate].
    cbn [res_bind] in Hd.
    destruct (py_take 250 m); [|discriminate]. cbn [res_bind] in Hd.
    destruct (py_take 200 m) eqn:E2; [|discriminate]. cbn [res_bind] in Hd.
    congruence.
Qed.

Lemma claude_history_witness :
  let run := ClaudeAgent.compile_with_retries Demo.no_unicode_words
               Demo.loads_nothing Demo.repr Demo.exn_text nat Demo.always_fails
               Demo.service_down Demo.no_client (lit "assert!(a);") [] 2
               Demo.start in
  exists history,
    snd run = Ok (false, JStr (lit "jet::verify(a);"), history)
    /\ length history = length (submissions (since Demo.start (fst run))).
Proof.
  cbv zeta. eexists. split; [reflexivity|].
  exact (proj1 (claude_history_records_the_submissions Demo.no_unicode_words
                  Demo.loads_nothing Demo.repr Demo.exn_text nat
                  Demo.always_fails Demo.service_down Demo.no_client
                  (lit "assert!(a);") [] 2 Demo.start false
                  (JStr (lit "jet::verify(a);")) _ eq_refl)).
Defined.

(** X13.  [test_examples.main] is not stopped by the compile tool: in a
    run in which no read of an example file raises, all four examples are
    submitted whatever the tool answers or raises, and the exit code is 0
    when every submission was answered with the success marker and 1
    otherwise. *)
Theorem example_batch_survives_compile_failures
        (World : Type)
        (call_tool : World -> json -> str -> World * res (list str))
        (read_text : World -> str -> World * res str)
        (path_exists : World -> str -> bool) (st : state World) :
  let run := TestExamples.main World call_tool read_text path_exists st in
  let subs := submissions (since st (fst run)) in
  (forall path e, ~ In (EvRead path (Raise e)) (since st (fst run))) ->
  length subs = 4
  /\ snd run
     = Ok (if forallb (answered_by Autofix.succeeded ascii_ignore) subs
           then 0%Z else 1%Z).
Proof.
  cbv zeta. unfold TestExamples.main. unfold bind.
  destruct (run_examples_spec World call_tool read_text path_exists
              Autofix.test_files [] st)
    as (st' & r & evs & -> & Ht & Hcases).
  destruct Hcases as [(path & e & Hin & ->)|(Hlen & ->)].
  - cbn [fst]. rewrite (since_app _ _ _ Ht). intro Hno.
    now destruct (Hno path e).
  - cbn [length Autofix.test_files] in Hlen.
    destruct (submissions evs) as [|[[s1 w1] r1] [|[[s2 w2] r2] [|[[s3 w3] r3]
                                   [|[[s4 w4] r4] [|x t]]]]] eqn:Es;
      try discriminate.
    cbn [Autofix.test_files combine fold_left fst snd].
    set (b1 := answered_by Autofix.succeeded ascii_ignore (s1, w1, r1)).
    set (b2 := answered_by Autofix.succeeded ascii_ignore (s2, w2, r2)).
    set (b3 := answered_by Autofix.succeeded ascii_ignore (s3, w3, r3)).
    set (b4 := answered_by Autofix.succeeded ascii_ignore (s4, w4, r4)).
    assert (Hcode :
      (if Nat.eqb
            (length
               (filter (fun r : str * bool => snd r)
                  (Autofix.dict_set
                     (Autofix.dict_set
                        (Autofix.dict_set
                           (Autofix.dict_set [] (lit "Arithmetic") b1)
                           (lit "Scoping") b2) (lit "Witness Equality") b3)
                     (lit "Witness Computation") b4)))
            (length
               (Autofix.dict_set
                  (Autofix.dict_set
                     (Autofix.dict_set
                        (Autofix.dict_set [] (lit "Arithmetic") b1)
                        (lit "Scoping") b2) (lit "Witness Equality") b3)
                  (lit "Witness Computation") b4))
       then @ret World Z 0%Z else ret 1%Z) st'
      = (st', Ok (if b1 && (b2 && (b3 && (b4 && true))) then 0%Z else 1%Z))).
    { destruct b1, b2, b3, b4; reflexivity. }
    rewrite Hcode. cbn [fst snd].
    rewrite (since_app _ _ _ Ht), Es. intros _.
    split; reflexivity.
Qed.

Lemma example_batch_witness :
  let run := TestExamples.main nat
               (fun calls _ _ => (S calls, Raise (ExternalError (lit "timeout"))))
               Demo.read_text Demo.path_exists Demo.start in
  length (submissions (since Demo.start (fst run))) = 4
  /\ snd run = Ok 1%Z.
Proof.
  apply (example_batch_survives_compile_failures nat
           (fun calls _ _ => (S calls, Raise (ExternalError (lit "timeout"))))
           Demo.read_text Demo.path_exists Demo.start).
  intros path e Hin. vm_compute in Hin.
  repeat (destruct Hin as [Hin|Hin]; [discriminate|]). exact Hin.
Defined.

(* ================================================================== *)
(** ** Lines, fixed points and fences *)
(* ================================================================== *)

Section LineFacts.

Lemma filter_idem {A : Type} (p : A -> bool) (l : list A) :
  filter p (filter p l) = filter p l.
Proof.
  induction l as [|x l IH]; [reflexivity|]. simpl.
  destruct (p x) eqn:E; [simpl; now rewrite E, IH|exact IH].
Qed.

Lemma filter_all {A : Type} (p : A -> bool) (l : list A) :
  forallb p l = true -> filter p l = l.
Proof.
  induction l as [|x l IH]; [reflexivity|]. simpl.
  intro H; apply andb_true_iff in H as [Hx Hl]. now rewrite Hx, (IH Hl).
Qed.

Lemma Forall_filter {A : Type} (P : A -> Prop) (p : A -> bool) (l : list A) :
  Forall P l -> Forall P (filter p l).
Proof.
  induction 1 as [|x l Hx Hl IH]; simpl; [constructor|].
  destruct (p x); [constructor|]; assumption.
Qed.

(** The lines of the text the comment rule returns. *)
Lemma remove_comments_lines (s : str) :
  split_on nl (Autofix.remove_comments s)
  = match filter (fun line => negb (is_comment_line line)) (split_on nl s) with
    | [] => [[]]
    | kept => kept
    end.
Proof.
  unfold Autofix.remove_comments.
  change (fun line => negb (startswith (lit "//") (strip line)))
    with (fun line => negb (is_comment_line line)).
  pose proof (Forall_filter _ (fun line => negb (is_comment_line line)) _
                (split_on_lines s)) as Hl.
  destruct (filter (fun line => negb (is_comment_line line)) (split_on nl s))
    as [|l ls] eqn:E; [reflexivity|].
  apply split_join; [discriminate|exact Hl].
Qed.

End LineFacts.

Section FixedPoint.

Variable unicode_alnum : char -> bool.

Lemma contains_strip_nl (p' : str) (d : char) (s : str) :
  N.eqb d nl = false ->
  contains (p' ++ [d]) s = false ->
  contains (p' ++ [d]) (strip s ++ [nl]) = false.
Proof.
  intros Hd Hs. rewrite contains_snoc by exact Hd.
  destruct (contains (p' ++ [d]) (strip s)) eqn:E; [|reflexivity].
  apply contains_strip in E. congruence.
Qed.

(** No rule fires on the output when none fired on the input. *)
Lemma no_rule_fires_kept (source_code error_message : str) :
  no_rule_fires source_code error_message = true ->
  no_rule_fires (strip source_code ++ [nl]) error_message = true.
Proof.
  unfold no_rule_fires, Autofix.has_main_wrapper, Autofix.has_tuple_pattern.
  intro H.
  apply andb_true_iff in H as [H Ht]. apply andb_true_iff in H as [H Hm].
  rewrite H. cbn [andb].
  apply negb_true_iff, orb_false_iff in Hm as [Hm1 Hm2].
  apply negb_true_iff, andb_false_iff in Ht.
  assert (E1 : contains (lit "fn main()") (strip source_code ++ [nl]) = false)
    by exact (contains_strip_nl (lit "fn main(") 41%N _ eq_refl Hm1).
  assert (E2 : contains (lit "fn main (") (strip source_code ++ [nl]) = false)
    by exact (contains_strip_nl (lit "fn main ") 40%N _ eq_refl Hm2).
  rewrite E1, E2. cbn [orb negb andb].
  apply negb_true_iff, andb_false_iff.
  destruct Ht as [Ht|Ht].
  - left. exact (contains_strip_nl (lit "let ") 40%N _ eq_refl Ht).
  - right. exact (contains_strip_nl (lit ",") 41%N _ eq_refl Ht).
Qed.

Lemma no_rule_fires_fixed_point (source_code error_message : str) :
  no_rule_fires source_code error_message = true ->
  Autofix.apply_rule_based_fixes unicode_alnum (strip source_code ++ [nl])
    error_message
  = strip source_code ++ [nl].
Proof.
  intro H.
  rewrite (no_rule_fires_output unicode_alnum _ _ (no_rule_fires_kept _ _ H)).
  now rewrite strip_strip_nl.
Qed.

Variable json_loads : str -> res json.
Variable World : Type.
Variable call_tool : World -> json -> str -> World * res (list str).

Variable text error_text : str.
Hypothesis no_marker : Autofix.succeeded (ascii_ignore text) = false.
Hypothesis diagnosis :
  Autofix.extract_error json_loads (ascii_ignore text) = Ok (JStr error_text).

(** From a text that the repair maps to itself, a run of the loop whose
    submissions are all answered with [text] keeps submitting that text
    and reports failure. *)
Lemma autofix_loop_stuck (max_attempts : Z) (use_llm : bool) (witness_data : str)
      (fixed : str) (attempts : list Z) :
  Autofix.apply_rule_based_fixes unicode_alnum fixed error_text = fixed ->
  forall (current_code : str) (history : list Autofix.attempt_entry)
         (st : state World),
  exists new,
    trace (fst (Autofix.attempts_loop unicode_alnum json_loads World call_tool
                  max_attempts use_llm witness_data attempts current_code
                  history st)) = trace st ++ new
    /\ (current_code = fixed ->
        (forall sub, In sub (submissions new) -> snd sub = Ok [text]) ->
        (exists h,
           snd (Autofix.attempts_loop unicode_alnum json_loads World call_tool
                  max_attempts use_llm witness_data attempts current_code
                  history st) = Ok (false, fixed, h))
        /\ Forall (fun sub => fst (fst sub) = JStr fixed) (submissions new)).
Proof.
  intro Hfix. induction attempts as [|attempt rest IH];
    intros current_code history st.
  - exists []. split; [now rewrite app_nil_r|]. intros -> _.
    split; [eexists; reflexivity|constructor].
  - rewrite autofix_loop_unfold.
    destruct (call_tool (world st) (JStr current_code) witness_data)
      as [w1 reply] eqn:Ecall.
    set (ev := EvCompile (JStr current_code) witness_data reply).
    assert (Hone : forall r : res (bool * str * list Autofix.attempt_entry),
      (reply = Ok [text] -> current_code = fixed ->
       exists h, r = Ok (false, fixed, h)) ->
      current_code = fixed ->
      (forall sub, In sub (submissions [ev]) -> snd sub = Ok [text]) ->
      (exists h, r = Ok (false, fixed, h))
      /\ Forall (fun sub => fst (fst sub) = JStr fixed) (submissions [ev])).
    { intros r Hr Hc Hall.
      assert (Hrep : reply = Ok [text])
        by exact (Hall (JStr current_code, witness_data, reply) (or_introl eq_refl)).
      split; [now apply Hr|].
      cbn [submissions flat_map ev app]. subst current_code.
      repeat constructor. }
    destruct reply as [content|e0]; cbv zeta.
    2:{ exists [ev]. split; [reflexivity|]. apply Hone. discriminate. }
    destruct (Autofix.succeeded (ascii_ignore (first_text content))) eqn:Esucc.
    { exists [ev]. split; [reflexivity|]. apply Hone.
      intros E _. injection E as ->. cbn [first_text] in Esucc. congruence. }
    destruct (Autofix.extract_error json_loads (ascii_ignore (first_text content)))
      as [[| | | |error_text'| |]|e0] eqn:Eerr;
      try (exists [ev]; split; [reflexivity|]; apply Hone;
           intros E _; injection E as ->; cbn [first_text] in Eerr; congruence).
    destruct (max_attempts <=? attempt)%Z.
    { exists [ev]. split; [reflexivity|]. apply Hone.
      intros _ ->. eexists; reflexivity. }
    match goal with
      |- context [Autofix.attempts_loop _ _ _ _ _ _ _ rest ?c ?h ?s] =>
        destruct (IH c h s) as (new & Htrace & Hrec)
    end.
    exists (ev :: new). split.
    + rewrite Htrace. cbn [trace]. now rewrite <- app_assoc.
    + intros -> Hall.
      change (submissions (ev :: new))
        with ((JStr fixed, witness_data, Ok content) :: submissions new) in *.
      assert (Hrep : Ok content = Ok [text])
        by exact (Hall (JStr fixed, witness_data, Ok content) (or_introl eq_refl)).
      injection Hrep as ->. cbn [first_text] in Eerr.
      rewrite diagnosis in Eerr. injection Eerr as <-.
      assert (Hnext : (if use_llm
                       then Autofix.fix_code_with_llm unicode_alnum fixed
                              error_text attempt
                       else Autofix.apply_rule_based_fixes unicode_alnum fixed
                              error_text) = fixed)
        by (destruct use_llm; exact Hfix).
      destruct (Hrec Hnext (fun sub Hin => Hall sub (or_intror Hin)))
        as [Hres Hforall].
      split; [exact Hres|]. constructor; [reflexivity|exact Hforall].
Qed.

End FixedPoint.

Section FindFacts.

Lemma find_from_absent (l s : str) (i : Z) :
  contains l s = false -> find_from l s i = (-1)%Z.
Proof.
  revert i; induction s as [|c s IH]; intros i H; simpl in *.
  - now rewrite H.
  - apply orb_false_iff in H as [H1 H2]. now rewrite H1, (IH _ H2).
Qed.

Lemma find_from_head (l s : str) (i : Z) :
  startswith l s = true -> find_from l s i = i.
Proof. intro H; destruct s; simpl in *; now rewrite H. Qed.

(** The first occurrence of [l] in [pre ++ w] is at the head of [w] when
    [l] does not occur in [pre] and no occurrence straddles its end. *)
Lemma find_from_skip (l pre w : str) (i : Z) :
  contains l pre = false ->
  (forall k, 0 < k < length l -> startswith (skipn k l) w = false) ->
  find_from l (pre ++ w) i = find_from l w (i + Z.of_nat (length pre))%Z.
Proof.
  intros Hpre Hw; revert i; induction pre as [|c pre IH]; intro i.
  - simpl. f_equal; lia.
  - change ((c :: pre) ++ w) with (c :: (pre ++ w)). cbn [find_from].
    assert (E : startswith l (c :: pre ++ w) = false).
    { destruct (startswith l (c :: pre ++ w)) eqn:E; [|reflexivity].
      change (c :: pre ++ w) with ((c :: pre) ++ w) in E.
      apply startswith_app_cases in E as [E|(k & Hk & Ha & Hs)].
      - rewrite (contains_head _ _ _ Hpre) in E; discriminate.
      - destruct k as [|k]; [destruct l; discriminate|].
        rewrite Hw in Hs by lia. discriminate. }
    rewrite E, (IH (contains_tail _ _ _ Hpre)).
    f_equal. cbn [length]. lia.
Qed.

(** The first occurrence of [d :: l'] after a text free of [d]. *)
Lemma find_from_free (d : char) (l' body w : str) (i : Z) :
  forallb (fun c => negb (N.eqb d c)) body = true ->
  find_from (d :: l') (body ++ w) i
  = find_from (d :: l') w (i + Z.of_nat (length body))%Z.
Proof.
  revert i; induction body as [|c body IH]; intros i H.
  - simpl. f_equal; lia.
  - simpl in H. apply andb_true_iff in H as [Hc Hb]. apply negb_true_iff in Hc.
    change ((c :: body) ++ w) with (c :: (body ++ w)).
    cbn [find_from startswith]. rewrite Hc. cbn [andb].
    rewrite (IH _ Hb). f_equal. cbn [length]. lia.
Qed.

Lemma skipn_app_exact {A : Type} (a b : list A) (n : nat) :
  n = length a -> skipn n (a ++ b) = b.
Proof. intros ->. now rewrite skipn_app, skipn_all, Nat.sub_diag. Qed.

Lemma firstn_app_exact {A : Type} (a b : list A) (n : nat) :
  n = length a -> firstn n (a ++ b) = a.
Proof.
  intros ->. now rewrite firstn_app, Nat.sub_diag, firstn_all, app_nil_r.
Qed.

(** [s[a:b]] for bounds inside the text. *)
Lemma slice_inside (pre mid post : str) (a b : Z) :
  a = Z.of_nat (length pre) -> b = (a + Z.of_nat (length mid))%Z ->
  slice (pre ++ mid ++ post) a b = mid.
Proof.
  intros -> ->. unfold slice, norm_index.
  rewrite !length_app.
  destruct (Z.ltb_spec (Z.of_nat (length pre)) 0); [lia|].
  destruct (Z.ltb_spec (Z.of_nat (length pre) + Z.of_nat (length mid)) 0); [lia|].
  rewrite skipn_app_exact by lia.
  apply firstn_app_exact. lia.
Qed.

(** [s[a:-1]]: everything from [a] but the last character. *)
Lemma slice_to_last (pre body : str) (a : Z) :
  pre <> [] -> a = Z.of_nat (length pre) ->
  slice (pre ++ body) a (-1) = removelast body.
Proof.
  intros Hne ->. unfold slice, norm_index.
  rewrite length_app.
  assert (0 < length pre) by (destruct pre; [contradiction|simpl; lia]).
  destruct (Z.ltb_spec (Z.of_nat (length pre)) 0); [lia|].
  change (-1 <? 0)%Z with true. cbv iota.
  rewrite skipn_app_exact by lia.
  rewrite removelast_firstn_len. f_equal. lia.
Qed.

End FindFacts.

(** X14.  When the error has the trigger of the comment rule (and not
    that of rule 1), the text after the comment rule of
    [agent_autofix.apply_rule_based_fixes] has exactly the lines of the
    source whose stripped text does not start with [//], in their order
    (the empty text when no line is kept); applying the rule to its own
    result changes nothing, and a source without such a line is kept as
    it is. *)
Theorem comment_rule_keeps_the_other_lines (source_code error_message : str) :
  Autofix.wants_wrapper error_message = false ->
  Autofix.wants_comment_removal error_message = true ->
  let kept :=
    filter (fun line => negb (is_comment_line line)) (split_on nl source_code) in
  split_on nl (Autofix.after_comments source_code error_message)
  = match kept with [] => [[]] | _ => kept end
  /\ Autofix.after_comments (Autofix.after_comments source_code error_message)
       error_message
     = Autofix.after_comments source_code error_message
  /\ (forallb (fun line => negb (is_comment_line line)) (split_on nl source_code)
      = true ->
      Autofix.after_comments source_code error_message = source_code).
Proof.
  intros Hw Hc. cbv zeta.
  assert (E : forall s, Autofix.after_comments s error_message
                        = Autofix.remove_comments s).
  { intro s. unfold Autofix.after_comments, Autofix.after_wrap.
    now rewrite Hw, Hc. }
  rewrite !E.
  split; [rewrite remove_comments_lines; now destruct (filter _ _)|].
  split.
  - unfold Autofix.remove_comments at 1. rewrite remove_comments_lines.
    unfold Autofix.remove_comments.
    change (fun line => negb (startswith (lit "//") (strip line)))
      with (fun line => negb (is_comment_line line)).
    destruct (filter (fun line => negb (is_comment_line line))
                (split_on nl source_code)) as [|l ls] eqn:El; [reflexivity|].
    rewrite <- El. now rewrite filter_idem.
  - intro H. unfold Autofix.remove_comments.
    change (fun line => negb (startswith (lit "//") (strip line)))
      with (fun line => negb (is_comment_line line)).
    rewrite (filter_all _ _ H). apply join_split.
Qed.

Lemma comment_rule_witness :
  split_on nl
    (Autofix.after_comments
       (lit "// sum" ++ [nl] ++ lit "let a = 1;" ++ [nl] ++ lit "  // end")
       (lit "expected EOI or item"))
  = [lit "let a = 1;"].
Proof.
  exact (proj1 (comment_rule_keeps_the_other_lines
                  (lit "// sum" ++ [nl] ++ lit "let a = 1;" ++ [nl]
                     ++ lit "  // end")
                  (lit "expected EOI or item") eq_refl eq_refl)).
Defined.

(** X15.  When no rule of the Pattern Fix Engine has its trigger, repairing
    is idempotent: no rule has its trigger on the output either, and
    repairing the output under the same error returns it unchanged. *)
Theorem repair_without_a_rule_is_idempotent (unicode_alnum : char -> bool)
        (source_code error_message : str) :
  no_rule_fires source_code error_message = true ->
  let once :=
    Autofix.apply_rule_based_fixes unicode_alnum source_code error_message in
  no_rule_fires once error_message = true
  /\ Autofix.apply_rule_based_fixes unicode_alnum once error_message = once.
Proof.
  intro H. cbv zeta. rewrite (no_rule_fires_output unicode_alnum _ _ H).
  split; [now apply no_rule_fires_kept|now apply no_rule_fires_fixed_point].
Qed.

Lemma repair_without_a_rule_witness :
  Autofix.apply_rule_based_fixes Demo.no_unicode_words
    (Autofix.apply_rule_based_fixes Demo.no_unicode_words (lit " 1 + 1 ")
       (lit "error: expected item"))
    (lit "error: expected item")
  = lit "1 + 1" ++ [nl].
Proof.
  exact (proj2 (repair_without_a_rule_is_idempotent Demo.no_unicode_words
                  (lit " 1 + 1 ") (lit "error: expected item") eq_refl)).
Defined.

(** X16.  The retry loop of [agent_autofix] makes no progress when no rule
    has its trigger: in a run in which the compile tool answers every
    submission with the same failure text, whose canonical error is
    [error_text], and no rule fires on the source under that error, every
    attempt is used, every submission after the first is the stripped
    source followed by a line break, and the run reports failure. *)
Theorem retry_without_a_rule_resubmits_the_same_text
        (unicode_alnum : char -> bool) (json_loads : str -> res json)
        (World : Type)
        (call_tool : World -> json -> str -> World * res (list str))
        (text error_text source_code witness_data : str) (max_attempts : Z)
        (use_llm : bool) (st : state World) :
  let run := Autofix.compile_and_fix unicode_alnum json_loads World call_tool
               source_code witness_data max_attempts use_llm st in
  let subs := submissions (since st (fst run)) in
  (forall sub, In sub subs -> snd sub = Ok [text]) ->
  Autofix.succeeded (ascii_ignore text) = false ->
  Autofix.extract_error json_loads (ascii_ignore text) = Ok (JStr error_text) ->
  no_rule_fires source_code error_text = true ->
  length subs = Z.to_nat max_attempts
  /\ (exists final history, snd run = Ok (false, final, history))
  /\ forall k sub, nth_error subs (S k) = Some sub ->
                   fst (fst sub) = JStr (strip source_code ++ [nl]).
Proof.
  cbv zeta.
  pose proof (autofix_run_spec unicode_alnum json_loads World call_tool
                source_code witness_data max_attempts use_llm st) as Hspec.
  cbv zeta in Hspec. destruct Hspec as (_ & _ & _ & _ & _ & _ & Hfail).
  assert (Hshape : exists new,
    trace (fst (Autofix.compile_and_fix unicode_alnum json_loads World call_tool
                  source_code witness_data max_attempts use_llm st))
    = trace st ++ new
    /\ ((forall sub, In sub (submissions new) -> snd sub = Ok [text]) ->
        Autofix.succeeded (ascii_ignore text) = false ->
        Autofix.extract_error json_loads (ascii_ignore text)
        = Ok (JStr error_text) ->
        no_rule_fires source_code error_text = true ->
        (exists final h,
           snd (Autofix.compile_and_fix unicode_alnum json_loads World call_tool
                  source_code witness_data max_attempts use_llm st)
           = Ok (false, final, h))
        /\ forall k sub, nth_error (submissions new) (S k) = Some sub ->
                         fst (fst sub) = JStr (strip source_code ++ [nl]))).
  { unfold Autofix.compile_and_fix.
    destruct (Z_lt_le_dec max_attempts 1) as [Hlt|Hge].
    - rewrite py_range_empty by lia.
      exists []. split; [now rewrite app_nil_r|]. intros _ _ _ _.
      split; [do 2 eexists; reflexivity|]. intros k sub Hk. discriminate.
    - rewrite py_range_cons by lia. rewrite autofix_loop_unfold.
      destruct (call_tool (world st) (JStr source_code) witness_data)
        as [w1 reply].
      set (ev := EvCompile (JStr source_code) witness_data reply).
      assert (Hone : forall r : res (bool * str * list Autofix.attempt_entry),
        (reply = Ok [text] ->
         Autofix.succeeded (ascii_ignore text) = false ->
         Autofix.extract_error json_loads (ascii_ignore text)
         = Ok (JStr error_text) ->
         exists final h, r = Ok (false, final, h)) ->
        (forall sub, In sub (submissions [ev]) -> snd sub = Ok [text]) ->
        Autofix.succeeded (ascii_ignore text) = false ->
        Autofix.extract_error json_loads (ascii_ignore text)
        = Ok (JStr error_text) ->
        no_rule_fires source_code error_text = true ->
        (exists final h, r = Ok (false, final, h))
        /\ forall k sub, nth_error (submissions [ev]) (S k) = Some sub ->
                         fst (fst sub) = JStr (strip source_code ++ [nl])).
      { intros r Hr Hall Hm Hd _.
        assert (Hrep : reply = Ok [text])
          by exact (Hall (JStr source_code, witness_data, reply)
                      (or_introl eq_refl)).
        split; [now apply Hr|]. intros [|k] sub Hk; discriminate. }
      destruct reply as [content|e0]; cbv zeta.
      2:{ exists [ev]. split; [reflexivity|]. apply Hone. discriminate. }
      destruct (Autofix.succeeded (ascii_ignore (first_text content))) eqn:Esucc.
      { exists [ev]. split; [reflexivity|]. apply Hone.
        intros E Hm _. injection E as ->. cbn [first_text] in Esucc. congruence. }
      destruct (Autofix.extract_error json_loads
                  (ascii_ignore (first_text content)))
        as [[| | | |error_text'| |]|e0] eqn:Eerr;
        try (exists [ev]; split; [reflexivity|]; apply Hone;
             intros E _ Hd; injection E as ->; cbn [first_text] in Eerr;
             congruence).
      destruct (max_attempts <=? 1)%Z.
      { exists [ev]. split; [reflexivity|]. apply Hone.
        intros _ _ _. do 2 eexists; reflexivity. }
      match goal with
        |- context [Autofix.attempts_loop _ _ _ _ _ _ ?wd ?rest ?c ?h ?s] =>
          pose proof (fun Hm Hd Hfix =>
                        autofix_loop_stuck unicode_alnum json_loads World
                          call_tool text error_text Hm Hd max_attempts use_llm wd
                          (strip source_code ++ [nl]) rest Hfix c h s) as Hstuck;
          destruct (autofix_loop_spec unicode_alnum json_loads World call_tool
                      max_attempts use_llm wd rest c h s) as (new & Htrace & _)
      end.
      exists (ev :: new). split.
      + rewrite Htrace. cbn [trace]. now rewrite <- app_assoc.
      + intros Hall Hm Hd Hrule.
        change (submissions (ev :: new))
          with ((JStr source_code, witness_data, Ok content) :: submissions new)
          in *.
        assert (Hrep : Ok content = Ok [text])
          by exact (Hall (JStr source_code, witness_data, Ok content)
                      (or_introl eq_refl)).
        injection Hrep as ->. cbn [first_text] in Eerr.
        rewrite Hd in Eerr. injection Eerr as <-.
        assert (Hnext : (if use_llm
                         then Autofix.fix_code_with_llm unicode_alnum source_code
                                error_text 1
                         else Autofix.apply_rule_based_fixes unicode_alnum
                                source_code error_text)
                        = strip source_code ++ [nl])
          by (destruct use_llm;
              exact (no_rule_fires_output unicode_alnum _ _ Hrule)).
        destruct (Hstuck Hm Hd (no_rule_fires_fixed_point unicode_alnum _ _ Hrule))
          as (new' & Htrace' & Hrec).
        assert (new' = new).
        { rewrite Htrace in Htrace'. now apply app_inv_head in Htrace'. }
        subst new'.
        destruct (Hrec Hnext (fun sub Hin => Hall sub (or_intror Hin)))
          as [[h' Hres] Hforall].
        split; [eauto|].
        intros k sub Hk. cbn [nth_error] in Hk.
        rewrite Forall_forall in Hforall. apply Hforall.
        eapply nth_error_In; exact Hk. }
  destruct Hshape as (new & Ht & Hshape).
  rewrite (since_app _ _ _ Ht). intros Hall Hm Hd Hrule.
  destruct (Hshape Hall Hm Hd Hrule) as [(final & h & E) Hsubs].
  split; [|split; [eauto|exact Hsubs]].
  destruct (Z_lt_le_dec max_attempts 1) as [Hlt|Hge].
  - unfold Autofix.compile_and_fix in Ht. rewrite py_range_empty in Ht by lia.
    cbn [Autofix.attempts_loop ret fst] in Ht.
    assert (Hn : new = []).
    { rewrite <- (app_nil_r (trace st)) in Ht at 1.
      now apply app_inv_head in Ht. }
    subst new. simpl. lia.
  - assert (Hne : py_range 1 (max_attempts + 1) <> []).
    { rewrite py_range_cons by lia. discriminate. }
    rewrite (since_app _ _ _ Ht) in Hfail.
    destruct (Hfail 1%Z final h eq_refl Hne E) as [Hlen _].
    rewrite Hlen, py_range_length. f_equal; lia.
Qed.

Lemma retry_without_a_rule_witness :
  let run := Autofix.compile_and_fix Demo.no_unicode_words Demo.loads nat
               Demo.always_fails (lit " 1 + 1") [] 3 false Demo.start in
  map (fun sub => fst (fst sub)) (submissions (since Demo.start (fst run)))
  = [JStr (lit " 1 + 1"); JStr (lit "1 + 1" ++ [nl]); JStr (lit "1 + 1" ++ [nl])]
  /\ length (submissions (since Demo.start (fst run))) = Z.to_nat 3.
Proof.
  cbv zeta. split; [reflexivity|].
  refine (proj1 (retry_without_a_rule_resubmits_the_same_text
                   Demo.no_unicode_words Demo.loads nat Demo.always_fails
                   (lit "error: expected item") (lit "error: expected item")
                   (lit " 1 + 1") [] 3 false Demo.start _ eq_refl eq_refl eq_refl)).
  intros sub Hin. vm_compute in Hin.
  repeat (destruct Hin as [Hin|Hin]; [subst sub; reflexivity|]). contradiction.
Defined.

(** X17.  [analyze_and_fix] takes the reply of the service out of its code
    fence: of a reply with an opening fence tagged [json] and a closing
    fence it keeps the text between the two, stripped, whatever stands
    before and after them. *)
Theorem fenced_reply_is_unwrapped (pre body post : str) :
  contains (ClaudeAgent.fence ++ lit "json") pre = false ->
  forallb (fun c => negb (N.eqb 96 c)) body = true ->
  ClaudeAgent.unfence
    (pre ++ (ClaudeAgent.fence ++ lit "json") ++ body ++ ClaudeAgent.fence ++ post)
  = strip body.
Proof.
  intros Hpre Hbody. unfold ClaudeAgent.unfence.
  rewrite contains_app.
  assert (Hstart : find (ClaudeAgent.fence ++ lit "json")
                     (pre ++ (ClaudeAgent.fence ++ lit "json") ++ body
                          ++ ClaudeAgent.fence ++ post)
                   = Z.of_nat (length pre)).
  { unfold find. rewrite find_from_skip; [|exact Hpre|no_straddle].
    rewrite find_from_head by apply startswith_app. lia. }
  rewrite Hstart. cbv zeta.
  assert (Hend : find_at ClaudeAgent.fence
                   (pre ++ (ClaudeAgent.fence ++ lit "json") ++ body
                        ++ ClaudeAgent.fence ++ post)
                   (Z.of_nat (length pre) + 7)
                 = (Z.of_nat (length pre) + 7 + Z.of_nat (length body))%Z).
  { unfold find_at, find.
    rewrite app_assoc, skipn_app_exact
      by (rewrite length_app; cbn [length ClaudeAgent.fence lit app]; simpl; lia).
    change ClaudeAgent.fence with (96%N :: lit "``").
    rewrite find_from_free by exact Hbody.
    rewrite find_from_head by reflexivity.
    destruct (Z.ltb_spec (0 + Z.of_nat (length body)) 0); lia. }
  rewrite Hend. f_equal.
  rewrite (app_assoc pre).
  apply slice_inside.
  - rewrite length_app. simpl. lia.
  - reflexivity.
Qed.

Lemma fenced_reply_witness :
  ClaudeAgent.unfence
    (lit "Here is the fix:" ++ [nl] ++ lit "```json" ++ [nl] ++ lit "{}" ++ [nl]
       ++ lit "```" ++ [nl] ++ lit "Done.")
  = lit "{}".
Proof.
  exact (fenced_reply_is_unwrapped (lit "Here is the fix:" ++ [nl])
           ([nl] ++ lit "{}" ++ [nl]) ([nl] ++ lit "Done.") eq_refl eq_refl).
Defined.

(** X18.  A reply whose fence is opened and never closed loses its last
    character: [find] answers -1 for the closing fence, and the slice up
    to -1 stops one character before the end. *)
Theorem unclosed_fence_drops_the_last_character (pre body : str) :
  contains (ClaudeAgent.fence ++ lit "json") pre = false ->
  contains ClaudeAgent.fence body = false ->
  ClaudeAgent.unfence (pre ++ (ClaudeAgent.fence ++ lit "json") ++ body)
  = strip (removelast body).
Proof.
  intros Hpre Hbody. unfold ClaudeAgent.unfence.
  rewrite contains_app.
  assert (Hstart : find (ClaudeAgent.fence ++ lit "json")
                     (pre ++ (ClaudeAgent.fence ++ lit "json") ++ body)
                   = Z.of_nat (length pre)).
  { unfold find. rewrite find_from_skip; [|exact Hpre|no_straddle].
    rewrite find_from_head by apply startswith_app. lia. }
  rewrite Hstart. cbv zeta.
  assert (Hend : find_at ClaudeAgent.fence
                   (pre ++ (ClaudeAgent.fence ++ lit "json") ++ body)
                   (Z.of_nat (length pre) + 7) = (-1)%Z).
  { unfold find_at, find.
    rewrite app_assoc, skipn_app_exact
      by (rewrite length_app; cbn [length ClaudeAgent.fence lit app]; simpl; lia).
    now rewrite find_from_absent by exact Hbody. }
  rewrite Hend. f_equal.
  rewrite app_assoc. apply slice_to_last.
  - destruct pre; discriminate.
  - rewrite length_app. simpl. lia.
Qed.

Lemma unclosed_fence_witness :
  ClaudeAgent.unfence (lit "```json" ++ [nl] ++ lit "{}") = lit "{".
Proof.
  exact (unclosed_fence_drops_the_last_character [] ([nl] ++ lit "{}")
           eq_refl eq_refl).
Defined.

(* ================================================================== *)
(** ** The compile tool of [server.py] *)
(* ================================================================== *)

Section ServerFacts.

Lemma skipn_S_tl {A : Type} (k : nat) (l : list A) :
  skipn (S k) l = tl (skipn k l).
Proof.
  revert l; induction k as [|k IH]; intros [|x l]; try reflexivity.
  change (skipn (S (S k)) (x :: l)) with (skipn (S k) l).
  change (skipn (S k) (x :: l)) with (skipn k l).
  apply IH.
Qed.

Lemma record_call_unfold (h : list Server.history_entry) (c : recorded_call) :
  record_call h c
  = if 50 <? length (h ++ [entry_of c]) then tl (h ++ [entry_of c])
    else h ++ [entry_of c].
Proof. reflexivity. Qed.

End ServerFacts.

(** X19.  The history of the server is a window on the last 50
    compilations: after any sequence of calls of [add_to_history] from the
    empty history it holds the entries of the last 50 calls (of all of
    them when there were fewer), oldest first. *)
Theorem server_history_keeps_the_last_fifty (calls : list recorded_call) :
  fold_left record_call calls []
  = map entry_of (skipn (length calls - 50) calls).
Proof.
  induction calls as [|c l IH] using rev_ind; [reflexivity|].
  rewrite fold_left_app. cbn [fold_left]. rewrite IH, record_call_unfold.
  rewrite !length_app, length_map, length_skipn. cbn [length].
  destruct (Nat.ltb_spec 50 (length l - (length l - 50) + 1)) as [H|H].
  - replace (length l + 1 - 50) with (S (length l - 50)) by lia.
    rewrite skipn_S_tl, skipn_app.
    replace (length l - 50 - length l) with 0 by lia. cbn [skipn].
    assert (Hne : skipn (length l - 50) l <> []).
    { intro E. apply (f_equal (@length _)) in E.
      rewrite length_skipn in E. simpl in E. lia. }
    destruct (skipn (length l - 50) l) as [|x t]; [contradiction|].
    cbn [map app tl]. now rewrite map_app.
  - replace (length l + 1 - 50) with 0 by lia.
    replace (length l - 50) with 0 by lia. cbn [skipn].
    now rewrite map_app.
Qed.

(** X20.  [get_compilation_history] selects the last [limit] entries of
    the history, all of them when there are fewer, with one exception: a
    limit of 0 selects the whole history, since
    [compilation_history[-0:]] is the whole list. *)
Theorem history_limit_zero_selects_everything
        (limit : Z) (compilation_history : list Server.history_entry) :
  compilation_history <> [] -> (0 <= limit)%Z ->
  Server.selected_history limit compilation_history
  = Some (if (limit =? 0)%Z then compilation_history
          else skipn (length compilation_history - Z.to_nat limit)
                 compilation_history).
Proof.
  intros Hne Hlimit.
  unfold Server.selected_history, Server.list_slice_from, norm_index.
  assert (Hlen : 0 < length compilation_history)
    by (destruct compilation_history; [contradiction|simpl; lia]).
  destruct (Z.eqb_spec limit 0) as [->|Hpos].
  - cbn [Z.opp]. change (0 <? 0)%Z with false. cbv iota.
    replace (Z.to_nat (Z.min 0 (Z.of_nat (length compilation_history)))) with 0
      by lia.
    cbn [skipn]. destruct compilation_history; [contradiction|reflexivity].
  - destruct (Z.ltb_spec (- limit) 0); [|lia].
    replace (Z.to_nat (Z.max 0 (Z.of_nat (length compilation_history) + - limit)))
      with (length compilation_history - Z.to_nat limit) by lia.
    destruct (skipn (length compilation_history - Z.to_nat limit)
                compilation_history) as [|x t] eqn:E; [|reflexivity].
    apply (f_equal (@length _)) in E. rewrite length_skipn in E. simpl in E. lia.
Qed.

Lemma history_limit_witness :
  let entry n :=
    Server.mkEntry (inject_Z n) (lit "1 + 1") [] (JBool true) JNull JNull in
  Server.selected_history 0 [entry 1%Z; entry 2%Z; entry 3%Z]
  = Some [entry 1%Z; entry 2%Z; entry 3%Z].
Proof.
  exact (history_limit_zero_selects_everything 0
           [Server.mkEntry (inject_Z 1) (lit "1 + 1") [] (JBool true) JNull JNull;
            Server.mkEntry (inject_Z 2) (lit "1 + 1") [] (JBool true) JNull JNull;
            Server.mkEntry (inject_Z 3) (lit "1 + 1") [] (JBool true) JNull JNull]
           ltac:(discriminate) ltac:(lia)).
Defined.

(** X21.  The reply of the server to a successful compilation is read as
    a success by its clients, whatever the output and the dump it carries:
    it holds the marker of [agent_claude], and its ASCII part holds the
    marker that [agent_autofix] and [test_examples] look for. *)
Theorem server_success_is_recognised
        (output errors dumped : str) (source_code : json) (witness_data : str) :
  let reply := Server.compile_reply true output errors dumped in
  answered_by Autofix.succeeded ascii_ignore (source_code, witness_data, Ok reply)
  = true
  /\ answered_by ClaudeAgent.succeeded (fun text => text)
       (source_code, witness_data, Ok reply) = true.
Proof.
  cbv zeta. unfold answered_by, Server.compile_reply. cbn [first_text].
  set (R1 := [nl; nl] ++ lit "Output:" ++ [nl] ++ output).
  set (R2 := [nl; nl] ++ lit "---" ++ [nl] ++ lit "Full response:" ++ [nl]
               ++ dumped).
  assert (E : (9989%N :: lit " Compilation successful!" ++ R1) ++ R2
              = [9989%N] ++ ([32%N] ++ lit "Compilation successful!")
                  ++ R1 ++ R2).
  { reflexivity. }
  split.
  - rewrite E, !ascii_ignore_app.
    exact (contains_app (lit "Compilation successful!") [32%N]
             (ascii_ignore R1 ++ ascii_ignore R2)).
  - exact (contains_app (9989%N :: lit " Compilation successful!") []
             (R1 ++ R2)).
Qed.
